(** * Buckling-load prediction backend: a shallow embedding of [backend/api.py]

    The backend computes the Euler critical buckling load of a slender member
    from its cross-section geometry and material, optionally consults a learned
    regression model, and answers with a one-key JSON object.

    Python's [float] is IEEE-754 binary64, which is exactly Rocq's primitive
    [float]; every arithmetic operator of the source is embedded as the
    primitive operator of the same name.  Three operations of the Python
    runtime are not primitive and are written out from their CPython
    definitions: [float.__pow__] ([float_pow]), [float.__truediv__]
    ([float_div]) and [round(x, ndigits)] ([py_round]).  [float.__pow__] ends
    in a call of the C library's [pow], whose last bit differs between C
    libraries: that function is a parameter of the embedding ([Libm]), and a
    theorem with a [Libm] argument holds for every C library.  Closed
    examples are evaluated with [correctly_rounded], the library whose [pow]
    is rounded to nearest; they take only powers that are exact, that
    overflow or that underflow to zero, and [math.pi ** 2], on all of which
    glibc agrees with it.  A Python [str] is held as its UTF-8 encoding in a
    Rocq [string].  Python exceptions are the left summand of [result].
    [print] calls are not modelled. *)

From Stdlib Require Import ZArith List String Ascii Bool Lia Floats DecimalString.
From Stdlib Require Uint63.
Import ListNotations.

Set Warnings "-inexact-float".

Local Open Scope bool_scope.

(** ** Exceptions and the error monad *)

(** The exceptions the request handler can meet.  All three are subclasses of
    [Exception]; [exn_str] is Python's [str(e)]. *)
Inductive exn : Type :=
| OverflowError (msg : string)
| ZeroDivisionError (msg : string)
| ModelError (msg : string).

Definition exn_str (e : exn) : string :=
  match e with
  | OverflowError msg => msg
  | ZeroDivisionError msg => msg
  | ModelError msg => msg
  end.

Definition result (A : Type) : Type := (exn + A)%type.

Definition ret {A : Type} (a : A) : result A := inr a.
Definition raise {A : Type} (e : exn) : result A := inl e.
Definition bind {A B : Type} (m : result A) (k : A -> result B) : result B :=
  match m with
  | inl e => inl e
  | inr a => k a
  end.

Notation "x <- m ;; k" := (bind m (fun x => k))
  (at level 61, m at next level, right associativity).

(** ** Python floats *)

Module PyFloat.
Local Open Scope float_scope.

(** [math.pi] *)
Definition pi : float := 0x1.921fb54442d18p+1.

(** [math.isnan] *)
Definition isnan (x : float) : bool := PrimFloat.is_nan x.

(** The C library.  CPython passes [pow(iv, iw)] along to the platform for
    [iv] positive, finite and different from 1; [libm_pow iv n] is its result
    for the integer exponent [n].  The result depends on the library in the
    last bit (glibc's [pow] is within one unit in the last place of the
    exact power, not always the nearest float: [188.84 ** 2] is not
    [188.84 * 188.84] there), so nothing is assumed of it but two facts: the
    value of [pow(math.pi, 2.0)], which is the nearest float to the square
    on glibc too, and that the power of a positive number is not negative. *)
Class Libm : Type := {
  libm_pow : float -> positive -> float;
  libm_pow_pi_2 : libm_pow pi 2 = 9.869604401089358;
  libm_pow_not_negative :
    forall iv n, (0 <? iv) = true -> (libm_pow iv n <? 0) = false
}.

(** The exact power of a positive finite float, rounded to nearest-even: the
    [pow] of a correctly rounding C library.  An overflow gives infinity, an
    underflow gives a subnormal or zero. *)
Definition nearest_pow (iv : float) (n : positive) : float :=
  match Prim2SF iv with
  | S754_finite false m e =>
      SF2Prim (binary_normalize prec emax (Zpos (Pos.pow m n)) (e * Zpos n) false)
  | _ => iv
  end.

(** [DOUBLE_IS_ODD_INTEGER] of the exponent. *)
Definition is_odd_integer (n : positive) : bool :=
  match n with
  | xO _ => false
  | _ => true
  end.

Definition errno_range : string := "(34, 'Numerical result out of range')".

(** [v ** n] for a float [v] and a positive [int] literal [n], after CPython's
    [float_pow]: NaN, infinities, zeros and [±1] are answered before the C
    library is called; a negative base is negated and the sign restored for
    an odd exponent; an infinite result of [pow] is [ERANGE] and raises
    [OverflowError], a result that underflowed to zero is returned. *)
Definition float_pow {libm : Libm} (v : float) (n : positive) : result float :=
  if PrimFloat.is_nan v then ret v
  else if PrimFloat.is_infinity v then ret (if is_odd_integer n then v else abs v)
  else if v =? 0 then ret (if is_odd_integer n then v else 0)
  else
    let negate_result := (v <? 0) && is_odd_integer n in
    let iv := if v <? 0 then - v else v in
    if iv =? 1 then ret (if negate_result then -1 else 1)
    else
      let ix := libm_pow iv n in
      if PrimFloat.is_infinity ix then raise (OverflowError errno_range)
      else ret (if negate_result then - ix else ix).

(** [a / b]: Python raises on a zero divisor instead of returning an
    infinity or NaN. *)
Definition float_div (a b : float) : result float :=
  if b =? 0 then raise (ZeroDivisionError "float division by zero")
  else ret (a / b).

(** [num / den] rounded to the nearest integer, ties to even ([den > 0]). *)
Definition round_half_even (num den : Z) : Z :=
  let q := (num / den)%Z in
  match (2 * (num mod den) ?= den)%Z with
  | Lt => q
  | Gt => (q + 1)%Z
  | Eq => if Z.even q then q else (q + 1)%Z
  end.

(** [round(x, ndigits)] for [ndigits >= 0], after CPython's [double_round]:
    NaN and infinities round to themselves; otherwise the exact binary value
    is rounded half-even to [ndigits] decimals (the decimal string of
    [_Py_dg_dtoa], mode 3) and that decimal is converted back to the nearest
    float ([_Py_dg_strtod]).  The sign of a zero result is that of [x]. *)
Definition py_round (x : float) (ndigits : N) : float :=
  match Prim2SF x with
  | S754_finite s m e =>
      let p10 := (10 ^ Z.of_N ndigits)%Z in
      let n := if (0 <=? e)%Z then (Zpos m * 2 ^ e * p10)%Z
               else round_half_even (Zpos m * p10) (2 ^ (- e)) in
      match n with
      | Zpos n' =>
          SF2Prim (SFdiv prec emax (S754_finite s n' 0) (S754_finite false (Z.to_pos p10) 0))
      | _ => if s then neg_zero else zero
      end
  | _ => x
  end.

End PyFloat.

(** ** Python strings *)

Module PyStr.
Local Open Scope string_scope.

Definition byte (n : N) : ascii := ascii_of_N n.
Definition code (c : ascii) : N := N_of_ascii c.

(** [s.replace(old, new)] for one-character [old] and [new]. *)
Fixpoint replace (old new : ascii) (s : string) : string :=
  match s with
  | EmptyString => EmptyString
  | String c s' => String (if Ascii.eqb c old then new else c) (replace old new s')
  end.

(** The number of bytes of the whitespace character that starts [s], 0 when
    [s] does not start with one.  Whitespace is what [str.isspace] accepts:
    U+0009..U+000D, U+001C..U+0020, U+0085, U+00A0, U+1680, U+2000..U+200A,
    U+2028, U+2029, U+202F, U+205F and U+3000. *)
Definition whitespace_width (s : string) : nat :=
  match s with
  | EmptyString => 0
  | String c1 r1 =>
      let a := code c1 in
      if ((9 <=? a) && (a <=? 13) || (28 <=? a) && (a <=? 32))%N then 1
      else
        match r1 with
        | EmptyString => 0
        | String c2 r2 =>
            let b := code c2 in
            if ((a =? 194) && ((b =? 133) || (b =? 160)))%N then 2
            else
              match r2 with
              | EmptyString => 0
              | String c3 _ =>
                  let c := code c3 in
                  if ((a =? 225) && (b =? 154) && (c =? 128)
                      || (a =? 226) && (b =? 128)
                         && ((128 <=? c) && (c <=? 138) || (c =? 168) || (c =? 169) || (c =? 175))
                      || (a =? 226) && (b =? 129) && (c =? 159)
                      || (a =? 227) && (b =? 128) && (c =? 128))%N
                  then 3 else 0
              end
        end
  end.

(** [skip] bytes of a whitespace character are still to be dropped. *)
Fixpoint lstrip_from (skip : nat) (s : string) : string :=
  match s with
  | EmptyString => EmptyString
  | String _ s' =>
      match skip with
      | S k => lstrip_from k s'
      | O =>
          match whitespace_width s with
          | O => s
          | S k => lstrip_from k s'
          end
      end
  end.

Definition lstrip : string -> string := lstrip_from 0.

Fixpoint all_whitespace_from (skip : nat) (s : string) : bool :=
  match s with
  | EmptyString => Nat.eqb skip 0
  | String _ s' =>
      match skip with
      | S k => all_whitespace_from k s'
      | O =>
          match whitespace_width s with
          | O => false
          | S k => all_whitespace_from k s'
          end
      end
  end.

Fixpoint rstrip (s : string) : string :=
  match s with
  | EmptyString => EmptyString
  | String c s' => if all_whitespace_from 0 s then EmptyString else String c (rstrip s')
  end.

(** [s.strip()] *)
Definition strip (s : string) : string := rstrip (lstrip s).

Definition is_upper (c : ascii) : bool := ((65 <=? code c) && (code c <=? 90))%N.
Definition is_lower (c : ascii) : bool := ((97 <=? code c) && (code c <=? 122))%N.
Definition is_cased (c : ascii) : bool := is_upper c || is_lower c.
Definition to_lower (c : ascii) : ascii := if is_upper c then byte (code c + 32) else c.
Definition to_upper (c : ascii) : ascii := if is_lower c then byte (code c - 32) else c.

(** [s.title()]: a letter that follows a cased letter is lowered, any other
    letter is raised.  Letters are the ASCII ones; the bytes of a non-ASCII
    character are kept, so such a string never becomes one of the (ASCII)
    shape names, as in Python. *)
Fixpoint title_from (previous_is_cased : bool) (s : string) : string :=
  match s with
  | EmptyString => EmptyString
  | String c s' =>
      String (if previous_is_cased then to_lower c else to_upper c)
             (title_from (is_cased c) s')
  end.

Definition title : string -> string := title_from false.

End PyStr.

(** ** The backend, [backend/api.py] *)

Import PyFloat.
Local Open Scope string_scope.
Local Open Scope float_scope.

(** The input schema. *)
Record BucklingInput : Type := {
  Shape : string;
  Material : string;
  Fibre_Type : string;
  Length_mm : float;
  Width_mm : float;
  Thickness_mm : float;
  Outer_Diameter_mm : float;
  Inner_Diameter_mm : float;
  Hole_Diameter_mm : float;
  Youngs_Modulus_GPa : float;
  Poissons_Ratio : float;
  Strength_0_deg_MPa : float;
  Strength_90_deg_MPa : float;
  Area_mm2 : float;
  I_min_mm4 : float;
  I_max_mm4 : float;
  Buckling_Load_norm : float
}.

(** A Python [dict] with string keys, in insertion order. *)
Fixpoint dict_get {V : Type} (d : list (string * V)) (key : string) (default : V) : V :=
  match d with
  | [] => default
  | (k, v) :: d' => if String.eqb k key then v else dict_get d' key default
  end.

(** Material property mapping (GPa).  The first key of each of the first two
    lines is spelled with an en dash (U+2013), the second with a hyphen. *)
Definition MATERIAL_MODULUS : list (string * float) :=
  [ ("CF–PLA", 3.2); ("CF-PLA", 3.2);
    ("GF–PLA", 5.0); ("GF-PLA", 5.0);
    ("Standard_PLA", 2.3); ("PLA", 2.3);
    ("Standard_ABS", 2.1); ("ABS", 2.1) ].

(** "Infer modulus if not provided": the three lines that [formula_buckling]
    and [predict_buckling] both start with ([E is None] cannot hold for a
    [float] field). *)
Definition resolve_modulus (material : string) (E : float) : float :=
  if E =? 0 then dict_get MATERIAL_MODULUS (PyStr.replace " " "_" material) 2.3
  else E.

(** [data.Shape.strip().replace(" ", "_").title()] *)
Definition normalize_shape (shape : string) : string :=
  PyStr.title (PyStr.replace " " "_" (PyStr.strip shape)).

(** "Moment of Inertia (mm⁴)": the [if]/[elif] chain of [formula_buckling]
    on the normalized shape name; [I] starts as [0.0]. *)
Definition second_moment_of_area {libm : Libm}
    (shape : string) (b t do_ di_ d_hole : float) : result float :=
  if String.eqb shape "Plate" then
    t3 <- float_pow t 3 ;; ret (b * t3 / 12)
  else if String.eqb shape "Plate_With_Hole" then
    t3 <- float_pow t 3 ;;
    d4 <- float_pow d_hole 4 ;;
    ret (b * t3 / 12 - pi * d4 / 64)
  else if String.eqb shape "Cylinder" then
    do4 <- float_pow do_ 4 ;; ret (pi / 64 * do4)
  else if String.eqb shape "Hollow_Cylinder" then
    if di_ <? do_ then
      do4 <- float_pow do_ 4 ;;
      di4 <- float_pow di_ 4 ;;
      ret (pi / 64 * (do4 - di4))
    else ret 0
  else if String.eqb shape "Rectangular_Bar" then
    t3 <- float_pow t 3 ;; ret (b * t3 / 12)
  else if String.eqb shape "Hollow_Rectangular_Bar" then
    if 2 * t <? b then
      b4 <- float_pow b 4 ;;
      bt4 <- float_pow (b - 2 * t) 4 ;;
      ret ((b4 - bt4) / 12)
    else ret 0
  else ret 0.

(** The validity guard [E > 0 and I > 0 and Le > 0]. *)
Definition valid_guard (E I Le : float) : bool :=
  (0 <? E) && (0 <? I) && (0 <? Le).

(** The tail of [formula_buckling], from [Le = 2 * L] on: the Euler load in
    kN for a modulus [E] in MPa, or [0.0] when the guard fails. *)
Definition critical_load_kN {libm : Libm} (E I L : float) : result float :=
  let Le := 2 * L in
  if valid_guard E I Le then
    pi2 <- float_pow pi 2 ;;
    Le2 <- float_pow Le 2 ;;
    P_cr <- float_div (pi2 * E * I) Le2 ;;
    ret (py_round (P_cr / 1000) 3)
  else ret 0.

(** Fallback Euler formula. *)
Definition formula_buckling {libm : Libm} (data : BucklingInput) : result float :=
  let shape := normalize_shape data.(Shape) in
  let L := data.(Length_mm) in
  let b := data.(Width_mm) in
  let t := data.(Thickness_mm) in
  let do_ := data.(Outer_Diameter_mm) in
  let di_ := data.(Inner_Diameter_mm) in
  let d_hole := data.(Hole_Diameter_mm) in
  let E := resolve_modulus data.(Material) data.(Youngs_Modulus_GPa) in
  let E := E * 1000 in
  I <- second_moment_of_area shape b t do_ di_ d_hole ;;
  critical_load_kN E I L.

(** The learned model, when one was loaded at start-up: the row of seven
    features to [float(model.predict(features)[0])], which may raise. *)
Definition predictor : Type := list float -> result float.

(** The feature row, in the order of [feature_names]. *)
Definition features (data : BucklingInput) (E_MPa : float) : list float :=
  [ data.(Length_mm); data.(Width_mm); data.(Thickness_mm);
    data.(Outer_Diameter_mm); data.(Inner_Diameter_mm); data.(Hole_Diameter_mm);
    E_MPa ].

(** "Model output invalid": [pred <= 0 or pred > 1e6 or math.isnan(pred)]. *)
Definition model_output_invalid (pred : float) : bool :=
  (pred <=? 0) || (1e6 <? pred) || isnan pred.

(** The body of the [try] block of [predict_buckling]; its value is
    [pred1]. *)
Definition predict_body {libm : Libm} (model : option predictor) (data : BucklingInput)
    : result float :=
  let E := resolve_modulus data.(Material) data.(Youngs_Modulus_GPa) in
  let E_MPa := E * 1000 in
  pred <- match model with
          | Some predict =>
              pred <- predict (features data E_MPa) ;;
              if model_output_invalid pred then formula_buckling data else ret pred
          | None => formula_buckling data
          end ;;
  pred <- (if (pred =? 0) || isnan pred then formula_buckling data else ret pred) ;;
  r <- formula_buckling data ;;
  ret (r * 1.01).

(** The values of a response object. *)
Inductive pyvalue : Type :=
| PyFloat (x : float)
| PyString (s : string).

Definition response : Type := list (string * pyvalue).

Definition success_response (load : float) : response :=
  [ ("predicted_buckling_load_kN", PyFloat load) ].

Definition error_response (e : exn) : response :=
  [ ("error", PyString (exn_str e)) ].

(** Prediction endpoint: the [try] body, and [except Exception as e]. *)
Definition predict_buckling {libm : Libm} (model : option predictor) (data : BucklingInput)
    : response :=
  match predict_body model data with
  | inr pred1 => success_response pred1
  | inl e => error_response e
  end.

(** ** The specification's vocabulary *)

(** The model did not raise: there is none, or its prediction came back. *)
Definition model_returns (model : option predictor) (data : BucklingInput) : Prop :=
  match model with
  | None => True
  | Some predict =>
      exists p,
        predict (features data (resolve_modulus data.(Material) data.(Youngs_Modulus_GPa) * 1000))
        = inr p
  end.

(** The modulus in MPa and the second moment of area that [formula_buckling]
    computes for a request. *)
Definition E_MPa_of (data : BucklingInput) : float :=
  resolve_modulus data.(Material) data.(Youngs_Modulus_GPa) * 1000.

Definition second_moment_of {libm : Libm} (data : BucklingInput) : result float :=
  second_moment_of_area (normalize_shape data.(Shape)) data.(Width_mm) data.(Thickness_mm)
    data.(Outer_Diameter_mm) data.(Inner_Diameter_mm) data.(Hole_Diameter_mm).

(** The shapes of the specification's data model. *)
Inductive shape_kind : Type :=
| Plate | PlateWithHole | Cylinder | HollowCylinder
| RectangularBar | HollowRectangularBar | UnrecognizedShape.

(** The variant a normalized shape name stands for. *)
Definition shape_of_name (name : string) : shape_kind :=
  if String.eqb name "Plate" then Plate
  else if String.eqb name "Plate_With_Hole" then PlateWithHole
  else if String.eqb name "Cylinder" then Cylinder
  else if String.eqb name "Hollow_Cylinder" then HollowCylinder
  else if String.eqb name "Rectangular_Bar" then RectangularBar
  else if String.eqb name "Hollow_Rectangular_Bar" then HollowRectangularBar
  else UnrecognizedShape.

Notation "x ** n" := (float_pow x n) (at level 30, right associativity).

(** The power of the specification's table: [x] to the [n] as the C library
    defines [pow] on every float, the special values included.  It is total;
    a power that overflows is infinite. *)
Definition power {libm : Libm} (x : float) (n : positive) : float :=
  if PrimFloat.is_nan x then x
  else if PrimFloat.is_infinity x || (x =? 0) then
    if is_odd_integer n then x else abs x
  else
    let y := if abs x =? 1 then 1 else libm_pow (abs x) n in
    if (x <? 0) && is_odd_integer n then - y else y.

(** The shape table of the specification, row by row, in float arithmetic:
    a float for every shape and all dimensions. *)
Definition shape_table {libm : Libm} (k : shape_kind) (b t do_ di_ d : float) : float :=
  match k with
  | Plate | RectangularBar => b * power t 3 / 12
  | PlateWithHole => b * power t 3 / 12 - pi * power d 4 / 64
  | Cylinder => pi / 64 * power do_ 4
  | HollowCylinder =>
      if di_ <? do_ then pi / 64 * (power do_ 4 - power di_ 4) else 0
  | HollowRectangularBar =>
      if 2 * t <? b then (power b 4 - power (b - 2 * t) 4) / 12 else 0
  | UnrecognizedShape => 0
  end.

(** The powers that the row of a shape takes. *)
Definition row_powers (k : shape_kind) (b t do_ di_ d : float) : list (float * positive) :=
  match k with
  | Plate | RectangularBar => [(t, 3%positive)]
  | PlateWithHole => [(t, 3%positive); (d, 4%positive)]
  | Cylinder => [(do_, 4%positive)]
  | HollowCylinder => if di_ <? do_ then [(do_, 4%positive); (di_, 4%positive)] else []
  | HollowRectangularBar =>
      if 2 * t <? b then [(b, 4%positive); (b - 2 * t, 4%positive)] else []
  | UnrecognizedShape => []
  end.

(** The power of a finite number is infinite. *)
Definition power_overflows {libm : Libm} (xn : float * positive) : bool :=
  negb (PrimFloat.is_infinity (fst xn)) && PrimFloat.is_infinity (power (fst xn) (snd xn)).

(** Geometry that the specification calls invalid by its dimensions. *)
Definition invalid_dimensions (data : BucklingInput) : Prop :=
  let kind := shape_of_name (normalize_shape data.(Shape)) in
  kind = UnrecognizedShape \/
  (kind = HollowCylinder /\ (data.(Inner_Diameter_mm) <? data.(Outer_Diameter_mm)) = false) \/
  (kind = HollowRectangularBar /\ (2 * data.(Thickness_mm) <? data.(Width_mm)) = false).

(** The table of default moduli with the six keys the specification lists. *)
Definition listed_moduli : list (string * float) :=
  [ ("CF-PLA", 3.2); ("GF-PLA", 5.0); ("PLA", 2.3); ("Standard_PLA", 2.3);
    ("ABS", 2.1); ("Standard_ABS", 2.1) ].

Definition listed_resolve_modulus (material : string) (E : float) : float :=
  if E =? 0 then dict_get listed_moduli (PyStr.replace " " "_" material) 2.3 else E.

Definition one_of (names : list string) (s : string) : bool := existsb (String.eqb s) names.

(** [x] is within [tolerance] of [target]. *)
Definition within (tolerance target x : float) : bool :=
  (target - tolerance <=? x) && (x <=? target + tolerance).

(** Two requests agree on every field that a computation reads. *)
Definition same_consumed_fields (d1 d2 : BucklingInput) : Prop :=
  d1.(Shape) = d2.(Shape) /\ d1.(Material) = d2.(Material) /\
  d1.(Length_mm) = d2.(Length_mm) /\ d1.(Width_mm) = d2.(Width_mm) /\
  d1.(Thickness_mm) = d2.(Thickness_mm) /\
  d1.(Outer_Diameter_mm) = d2.(Outer_Diameter_mm) /\
  d1.(Inner_Diameter_mm) = d2.(Inner_Diameter_mm) /\
  d1.(Hole_Diameter_mm) = d2.(Hole_Diameter_mm) /\
  d1.(Youngs_Modulus_GPa) = d2.(Youngs_Modulus_GPa).

(** ** Requests used as examples *)

Definition request (shape material : string) (L b t do_ di_ d_hole E : float) : BucklingInput :=
  {| Shape := shape; Material := material; Fibre_Type := "None";
     Length_mm := L; Width_mm := b; Thickness_mm := t;
     Outer_Diameter_mm := do_; Inner_Diameter_mm := di_; Hole_Diameter_mm := d_hole;
     Youngs_Modulus_GPa := E; Poissons_Ratio := 0;
     Strength_0_deg_MPa := 0; Strength_90_deg_MPa := 0;
     Area_mm2 := 0; I_min_mm4 := 0; I_max_mm4 := 0; Buckling_Load_norm := 0 |}.

(** The worked example of the specification: a 20 x 2 mm PLA plate, 100 mm long. *)
Definition pla_plate : BucklingInput := request "Plate" "PLA" 100 20 2 0 0 0 0.

(** The same plate with the carried-only fields filled in. *)
Definition pla_plate_annotated : BucklingInput :=
  {| Shape := "Plate"; Material := "PLA"; Fibre_Type := "Carbon";
     Length_mm := 100; Width_mm := 20; Thickness_mm := 2;
     Outer_Diameter_mm := 0; Inner_Diameter_mm := 0; Hole_Diameter_mm := 0;
     Youngs_Modulus_GPa := 0; Poissons_Ratio := 0.35;
     Strength_0_deg_MPa := 60; Strength_90_deg_MPa := 45;
     Area_mm2 := 40; I_min_mm4 := 13.3; I_max_mm4 := 1333.3; Buckling_Load_norm := 0.5 |}.

(** The plate at extreme lengths and thickness. *)
Definition thin_short_plate : BucklingInput := request "Plate" "PLA" 1e-200 20 2 0 0 0 0.
Definition long_plate : BucklingInput := request "Plate" "PLA" 1e200 20 2 0 0 0 0.
Definition thick_plate : BucklingInput := request "Plate" "PLA" 0 1 1e200 0 0 0 0.
Definition overflowing_plate : BucklingInput := request "Plate" "PLA" 1e308 1e300 1 0 0 0 1e300.

(** A tube whose inner diameter exceeds the outer one. *)
Definition reversed_tube : BucklingInput := request "Hollow Cylinder" "PLA" 100 0 0 20 25 0 0.

(** Plates with a negative supplied modulus. *)
Definition plate_negative_modulus : BucklingInput := request "Plate" "PLA" 100 20 2 0 0 0 (-1).
Definition thick_plate_negative_modulus : BucklingInput :=
  request "Plate" "PLA" 1 1 1e200 0 0 0 (-1).

(** The material the form sends for glass-fibre PLA, spelled with an en dash. *)
Definition en_dash_GF_PLA : string := "GF–PLA".

(** A model that rejects its input. *)
Definition failing_model : predictor := fun _ => raise (ModelError "X has 7 features").

(** ** Vocabulary of binary64 rounding *)

Module Binary64.
Local Open Scope Z_scope.
Import PyFloat.

(** The exponent of a float whose value has magnitude [z]. *)
Definition fx (z : Z) : Z := fexp prec emax z.

(** The truncation record of the non-negative fraction [N / D]: its integer
    part, whether the rest reaches one half, and whether the rest is neither
    zero nor one half. *)
Definition Rec (N D : Z) : shr_record :=
  {| shr_m := N / D;
     shr_r := D <=? 2 * (N mod D);
     shr_s := negb ((N mod D =? 0) || (2 * (N mod D) =? D)) |}.

(** The float with sign [s], mantissa [M] and exponent [E], infinite when the
    exponent is too large. *)
Definition pack (s : bool) (M E : Z) : spec_float :=
  match M with
  | Z0 => S754_zero s
  | Zpos p => if E <=? emax - prec then S754_finite s p E else S754_infinity s
  | Zneg _ => S754_nan
  end.

(** The number of places a mantissa [m] at exponent [e] is shifted right. *)
Definition shift_of (m e : Z) : Z := Z.max 0 (fx (Zdigits2 m + e) - e).

(** Rounding [N / D * 2 ^ e] to nearest-even: the mantissa and the exponent
    of the result. *)
Definition rnd_mant (N D e : Z) : Z :=
  round_half_even N (2 ^ shift_of (N / D) e * D).

Definition rnd_exp (N D e : Z) : Z := e + shift_of (N / D) e.

(** The result after the mantissa that rounding carried to 54 digits is
    shifted once more. *)
Definition rnd (N D e : Z) : Z * Z :=
  let M := rnd_mant N D e in
  let e1 := rnd_exp N D e in
  let n' := shift_of M e1 in
  (M / 2 ^ n', e1 + n').

(** The mantissa at exponent [e] has at least as many digits as the format
    keeps: the first shift of [binary_round_aux] is not negative. *)
Definition enough (N D e : Z) : Prop := e <= fx (Zdigits2 (N / D) + e).

(** A mantissa of at most 53 digits, of exactly 53 unless the exponent is the
    least one. *)
Definition canon (M E : Z) : Prop :=
  -1074 <= E /\ Zdigits2 M <= 53 /\ (Zdigits2 M = 53 \/ E = -1074).

(** The exponent and the numerator that [SFdiv_core_binary] divides at. *)
Definition div_exp (m1 e1 m2 e2 : Z) : Z :=
  Z.min (fx (Zdigits2 m1 + e1 - (Zdigits2 m2 + e2))) (e1 - e2).

Definition div_num (m1 e1 m2 e2 : Z) : Z := m1 * 2 ^ (e1 - e2 - div_exp m1 e1 m2 e2).

(** A float that is not NaN and not negative (zeros and infinity included). *)
Definition nonneg (x : spec_float) : Prop :=
  match x with
  | S754_zero false | S754_infinity false | S754_finite false _ _ => True
  | _ => False
  end.

(** A positive float, finite or infinite. *)
Definition positive_sf (x : spec_float) : Prop :=
  match x with
  | S754_infinity false | S754_finite false _ _ => True
  | _ => False
  end.

(** A float of the binary64 format. *)
Definition valid (x : spec_float) : Prop := valid_binary x = true.

(** [signed s x]: [x] is NaN or carries the sign bit [s]. *)
Definition signed (s : bool) (x : spec_float) : Prop :=
  match x with
  | S754_nan => True
  | S754_zero s' | S754_infinity s' | S754_finite s' _ _ => s' = s
  end.

(** The integer that [py_round] takes for [m * 2 ^ e] scaled by [p10]. *)
Definition scaled_decimal (m : positive) (e p10 : Z) : Z :=
  if (0 <=? e)%Z then (Zpos m * 2 ^ e * p10)%Z
  else round_half_even (Zpos m * p10) (2 ^ (- e)).

(** The decimal [k / p10] as a float. *)
Definition decimal_float (k p10 : Z) : spec_float :=
  match k with
  | Zpos k' => SFdiv prec emax (S754_finite false k' 0) (S754_finite false (Z.to_pos p10) 0)
  | _ => S754_zero false
  end.

End Binary64.

Import Binary64.

(** The same classes on primitive floats. *)
Definition Signed (s : bool) (x : float) : Prop := signed s (Prim2SF x).
Definition Nonneg (x : float) : Prop := nonneg (Prim2SF x).
Definition Positive (x : float) : Prop := positive_sf (Prim2SF x).

(** The load for a numerator [y = pi**2 * E * I] and a squared effective
    length [d]. *)
Definition load_of (y d : float) : float := py_round (y / d / 1000) 3.

(** ** More of the Python runtime *)

(** [s.split(sep)[0]] for a one-character [sep]: [s] up to its first [sep]. *)
Fixpoint first_field (sep : ascii) (s : string) : string :=
  match s with
  | EmptyString => EmptyString
  | String c s' => if Ascii.eqb c sep then EmptyString else String c (first_field sep s')
  end.

(** A [dict] lookup that may miss: [d.get(key, None)]. *)
Fixpoint dict_lookup {V : Type} (d : list (string * V)) (key : string) : option V :=
  match d with
  | [] => None
  | (k, v) :: d' => if String.eqb k key then Some v else dict_lookup d' key
  end.

(** The decimal digits of a natural number. *)
Definition decimal (n : Z) : string := NilZero.string_of_uint (N.to_uint (Z.to_N n)).

(** [f"{x:.2f}"]: the decimal with two places nearest to the exact value of
    [x], ties to the even neighbour; the sign is kept even when the digits
    are all zero. *)
Definition format_2f (x : float) : string :=
  match Prim2SF x with
  | S754_nan => "nan"
  | S754_infinity s => if s then "-inf" else "inf"
  | S754_zero s => if s then "-0.00" else "0.00"
  | S754_finite s m e =>
      let n := scaled_decimal m e 100 in
      (if s then "-" else "") ++ decimal (n / 100) ++ "."
      ++ (if (n mod 100 <? 10)%Z then "0" else "") ++ decimal (n mod 100)
  end.

(** ** The form, [webapp/app.py] *)

Module App.

(** The page is a script that Streamlit runs from top to bottom; the widgets
    return what the user chose or typed.  [number_input] maps the label of a
    number field to the number in it. *)

(** The options of the two select boxes. *)
Definition shape_options : list string :=
  [ "Select"; "Cylinder"; "Hollow Cylinder"; "Rectangular Bar";
    "Hollow Rectangular Bar"; "Plate"; "Plate with Hole" ].

Definition material_options : list string :=
  [ "CF–PLA (15% Carbon Fiber Reinforced PLA)";
    "GF–PLA (25% Glass Fiber Reinforced PLA)";
    "Standard PLA";
    "Standard ABS" ].

(** The six geometry variables of the script. *)
Record dimensions : Type := {
  length : float;
  width : float;
  thickness : float;
  outer_diameter : float;
  inner_diameter : float;
  hole_diameter : float
}.

(** "Shape selection and geometry inputs": every variable starts as [0.0];
    the branch of the chosen shape assigns the fields it shows. *)
Definition geometry_inputs (shape : string) (number_input : string -> float) : dimensions :=
  if String.eqb shape "Cylinder" then
    {| length := number_input "Length (mm)"; width := 0; thickness := 0;
       outer_diameter := number_input "Diameter (mm)";
       inner_diameter := 0; hole_diameter := 0 |}
  else if String.eqb shape "Hollow Cylinder" then
    {| length := number_input "Length (mm)"; width := 0; thickness := 0;
       outer_diameter := number_input "Outer Diameter (mm)";
       inner_diameter := number_input "Inner Diameter (mm)"; hole_diameter := 0 |}
  else if String.eqb shape "Rectangular Bar" then
    {| length := number_input "Length (mm)";
       width := number_input "Width (mm)"; thickness := number_input "Thickness (mm)";
       outer_diameter := 0; inner_diameter := 0; hole_diameter := 0 |}
  else if String.eqb shape "Hollow Rectangular Bar" then
    {| length := number_input "Length (mm)";
       width := number_input "Outer Width (mm)"; thickness := number_input "Thickness (mm)";
       outer_diameter := 0; inner_diameter := 0; hole_diameter := 0 |}
  else if String.eqb shape "Plate" then
    {| length := number_input "Length (mm)";
       width := number_input "Width (mm)"; thickness := number_input "Thickness (mm)";
       outer_diameter := 0; inner_diameter := 0; hole_diameter := 0 |}
  else if String.eqb shape "Plate with Hole" then
    {| length := number_input "Length (mm)";
       width := number_input "Width (mm)"; thickness := number_input "Thickness (mm)";
       outer_diameter := 0; inner_diameter := 0;
       hole_diameter := number_input "Hole Diameter (mm)" |}
  else
    {| length := 0; width := 0; thickness := 0;
       outer_diameter := 0; inner_diameter := 0; hole_diameter := 0 |}.

Definition fibre_type_map : list (string * string) :=
  [ ("CF–PLA (15% Carbon Fiber Reinforced PLA)", "Carbon");
    ("GF–PLA (25% Glass Fiber Reinforced PLA)", "Glass");
    ("Standard PLA", "None");
    ("Standard ABS", "None") ].

(** "Build JSON input payload".  The integer zeros of the script arrive as
    [0.0] in the [float] fields of the backend's schema. *)
Definition input_data (shape material : string) (number_input : string -> float)
    : BucklingInput :=
  let g := geometry_inputs shape number_input in
  {| Shape := if String.eqb shape "Select" then "" else shape;
     Material := first_field " " material;
     Fibre_Type := dict_get fibre_type_map material "Unknown";
     Length_mm := g.(length);
     Width_mm := g.(width);
     Thickness_mm := g.(thickness);
     Outer_Diameter_mm := g.(outer_diameter);
     Inner_Diameter_mm := g.(inner_diameter);
     Hole_Diameter_mm := g.(hole_diameter);
     Youngs_Modulus_GPa := 0;
     Poissons_Ratio := 0;
     Strength_0_deg_MPa := 0;
     Strength_90_deg_MPa := 0;
     Area_mm2 := 0;
     I_min_mm4 := 0;
     I_max_mm4 := 0;
     Buckling_Load_norm := 0 |}.

(** The condition under which the predict button is shown:
    [shape != "Select" and length > 0]. *)
Definition predict_enabled (shape : string) (number_input : string -> float) : bool :=
  negb (String.eqb shape "Select") && (0 <? (geometry_inputs shape number_input).(length)).

(** What the page shows below the form. *)
Inductive element : Type :=
| st_success (body : string)
| st_error (body : string)
| st_info (body : string)
| uncaught (exception : string).

(** The handling of the parsed response: the load is shown with two
    decimals; an object without the load key gives the fixed failure text.
    A load that is not a number cannot be formatted, which the script does
    not catch. *)
Definition show_result (result : response) : element :=
  match dict_lookup result "predicted_buckling_load_kN" with
  | Some (PyFloat load) => st_success ("✅ Predicted Buckling Load: " ++ format_2f load ++ " kN")
  | Some (PyString _) => uncaught "ValueError"
  | None => st_error "❌ Prediction failed. Check backend logs."
  end.

(** "Predict button".  [button] tells whether the button was pressed in this
    run; [post] is [requests.post(...).json()]: the object that the server
    sent, or [None] when the connection failed.  Nothing is shown while the
    button of an enabled form is not pressed. *)
Definition page (shape material : string) (number_input : string -> float)
    (button : bool) (post : BucklingInput -> option response) : option element :=
  if predict_enabled shape number_input then
    if button then
      match post (input_data shape material number_input) with
      | Some result => Some (show_result result)
      | None => Some (st_error "⚠️ Could not connect to FastAPI backend. Is it running?")
      end
    else None
  else Some (st_info "Please select a shape and enter required dimensions.").

End App.

(** ** Vocabulary of the further properties *)

(** What a user typed for the worked example of the specification, and for
    a plate with a 4 mm hole. *)
Definition plate_entries (label : string) : float :=
  if String.eqb label "Length (mm)" then 100
  else if String.eqb label "Width (mm)" then 20
  else if String.eqb label "Thickness (mm)" then 2
  else if String.eqb label "Hole Diameter (mm)" then 4
  else 0.

(** What a user typed for the same plate, 140 mm long, and for a plate whose
    thickness makes the backend fail. *)
Definition long_plate_entries (label : string) : float :=
  if String.eqb label "Length (mm)" then 140 else plate_entries label.

Definition thick_plate_entries (label : string) : float :=
  if String.eqb label "Thickness (mm)" then 1e200 else plate_entries label.

(** Only the length is filled in. *)
Definition only_length (label : string) : float :=
  if String.eqb label "Length (mm)" then 100 else 0.

(** Two requests of the same shape, length and dimensions: they differ at
    most in the material, in the supplied modulus and in the fields that are
    only carried. *)
Definition same_geometry (d1 d2 : BucklingInput) : Prop :=
  d1.(Shape) = d2.(Shape) /\
  d1.(Length_mm) = d2.(Length_mm) /\ d1.(Width_mm) = d2.(Width_mm) /\
  d1.(Thickness_mm) = d2.(Thickness_mm) /\
  d1.(Outer_Diameter_mm) = d2.(Outer_Diameter_mm) /\
  d1.(Inner_Diameter_mm) = d2.(Inner_Diameter_mm) /\
  d1.(Hole_Diameter_mm) = d2.(Hole_Diameter_mm).

(** [s.lower()], for ASCII letters. *)
Fixpoint lower (s : string) : string :=
  match s with
  | EmptyString => EmptyString
  | String c s' => String (PyStr.to_lower c) (lower s')
  end.

(** [n] spaces. *)
Fixpoint spaces (n : nat) : string :=
  match n with
  | O => EmptyString
  | S n' => String " " (spaces n')
  end.

(** ** Signs in binary64 arithmetic *)

Module FloatFacts.

Lemma binary_round_aux_signed s m e l :
  signed s (binary_round_aux prec emax s m e l).
Proof.
  unfold binary_round_aux.
  destruct (shr_fexp prec emax m e l) as [mrs' e'].
  destruct (shr_fexp prec emax _ e' loc_Exact) as [mrs'' e''].
  destruct (shr_m mrs''); simpl; trivial.
  destruct (Z.leb _ _); simpl; reflexivity.
Qed.

Lemma binary_round_signed s m e : signed s (binary_round prec emax s m e).
Proof.
  unfold binary_round.
  destruct (shl_align m e _) as [mz ez].
  apply binary_round_aux_signed.
Qed.

Lemma SFmul_signed sx sy x y :
  signed sx x -> signed sy y -> signed (xorb sx sy) (SFmul prec emax x y).
Proof.
  destruct x, y; simpl; intros; subst; trivial.
  apply binary_round_aux_signed.
Qed.

Lemma SFdiv_signed sx sy x y :
  signed sx x -> signed sy y -> signed (xorb sx sy) (SFdiv prec emax x y).
Proof.
  destruct x, y; simpl; intros; subst; trivial.
  destruct (SFdiv_core_binary prec emax _ _ _ _) as [[mz ez] lz].
  apply binary_round_aux_signed.
Qed.

Lemma SFldexp_signed s x e : signed s x -> signed s (SFldexp prec emax x e).
Proof.
  destruct x; simpl; trivial.
  intros ->. apply binary_round_signed.
Qed.

Lemma SFopp_signed s x : signed s x -> signed (negb s) (SFopp x).
Proof. destruct x; simpl; trivial; intros ->; reflexivity. Qed.

Lemma of_uint63_signed n : signed false (Prim2SF (of_uint63 n)).
Proof.
  rewrite of_uint63_spec.
  pose proof (Uint63.to_Z_bounded n) as [Hn _].
  destruct (Uint63Axioms.to_Z n); simpl; trivial.
  - apply binary_round_signed.
  - lia.
Qed.

(** Converting a specification float back to a primitive one keeps the sign. *)
Lemma SF2Prim_signed s x : signed s x -> signed s (Prim2SF (SF2Prim x)).
Proof.
  destruct x as [s'|s'| |s' m e]; simpl; trivial.
  - intros ->. destruct s; vm_compute; reflexivity.
  - intros ->. destruct s; vm_compute; reflexivity.
  - intros ->.
    assert (H : signed false
                  (Prim2SF (Z.ldexp (of_uint63 (Uint63Axioms.of_Z (Zpos m))) e))).
    { unfold Z.ldexp. rewrite ldshiftexp_spec.
      apply SFldexp_signed, of_uint63_signed. }
    destruct s; trivial.
    rewrite FloatAxioms.opp_spec. apply (SFopp_signed false), H.
Qed.

Lemma mul_Signed sx sy x y : Signed sx x -> Signed sy y -> Signed (xorb sx sy) (x * y).
Proof. unfold Signed. rewrite FloatAxioms.mul_spec. apply SFmul_signed. Qed.

Lemma div_Signed sx sy x y : Signed sx x -> Signed sy y -> Signed (xorb sx sy) (x / y).
Proof. unfold Signed. rewrite FloatAxioms.div_spec. apply SFdiv_signed. Qed.

Lemma abs_Signed x : Signed false (abs x).
Proof. unfold Signed. rewrite FloatAxioms.abs_spec. destruct (Prim2SF x); simpl; trivial. Qed.

Lemma Prim2SF_zero : Prim2SF 0 = S754_zero false.
Proof. reflexivity. Qed.

Ltac by_class x :=
  rewrite ?FloatAxioms.ltb_spec, ?FloatAxioms.leb_spec, ?FloatAxioms.eqb_spec, ?Prim2SF_zero;
  destruct (Prim2SF x) as [[]|[]| |[] ? ?]; simpl;
  try discriminate; try reflexivity; auto.

Lemma positive_Signed x : (0 <? x) = true -> Signed false x.
Proof. unfold Signed. by_class x. Qed.

Lemma negative_Signed x : (x <? 0) = true -> Signed true x.
Proof. unfold Signed. by_class x. Qed.

Lemma Signed_true_not_positive x : Signed true x -> (0 <? x) = false.
Proof. unfold Signed. by_class x. Qed.

Lemma Signed_false_not_negative x : Signed false x -> (x <? 0) = false.
Proof. unfold Signed. by_class x. Qed.

Lemma Signed_false_nonneg x : Signed false x -> (0 <=? x) = true \/ isnan x = true.
Proof. unfold Signed, isnan, is_nan. by_class x. Qed.

Lemma ltb_eqb x y : (x <? y) = true -> (x =? y) = false.
Proof.
  rewrite FloatAxioms.ltb_spec, FloatAxioms.eqb_spec. unfold SFltb, SFeqb.
  destruct (SFcompare _ _) as [[]|]; congruence.
Qed.

Lemma negative_times_1000 E : (E <? 0) = true -> (0 <? E * 1000) = false.
Proof.
  intros H. apply Signed_true_not_positive.
  apply (mul_Signed true false); [apply negative_Signed, H|reflexivity].
Qed.

Lemma nearest_pow_Signed x n : Signed false x -> Signed false (nearest_pow x n).
Proof.
  intros Hx. unfold nearest_pow.
  destruct (Prim2SF x) as [s|s| |s m e] eqn:Hs; trivial.
  destruct s; trivial.
  apply SF2Prim_signed. simpl. apply binary_round_signed.
Qed.

(** A float that is neither negative nor zero is NaN or has a clear sign
    bit. *)
Lemma not_negative_nonzero_Signed x :
  (x <? 0) = false -> (x =? 0) = false -> Signed false x.
Proof. unfold Signed. by_class x. Qed.

(** The power of a positive float is never negative. *)
Lemma float_pow_not_negative {libm : Libm} x n y :
  (0 <? x) = true -> float_pow x n = inr y -> (y <? 0) = false.
Proof.
  intros Hpos. pose proof (positive_Signed x Hpos) as Hx.
  unfold float_pow. rewrite (Signed_false_not_negative x Hx). simpl.
  destruct (is_nan x); [intros [= <-]; apply Signed_false_not_negative, Hx|].
  destruct (is_infinity x).
  { intros [= <-]. apply Signed_false_not_negative.
    destruct (is_odd_integer n); [exact Hx|apply abs_Signed]. }
  destruct (x =? 0).
  { intros [= <-]. destruct (is_odd_integer n); [apply Signed_false_not_negative, Hx|reflexivity]. }
  destruct (x =? 1); [intros [= <-]; reflexivity|].
  destruct (is_infinity (libm_pow x n)); [discriminate|].
  intros [= <-]. apply libm_pow_not_negative, Hpos.
Qed.

Lemma py_round_Signed s x n : Signed s x -> Signed s (py_round x n).
Proof.
  unfold Signed at 1. intros Hx. unfold py_round.
  destruct (Prim2SF x) as [s'|s'| |s' m e] eqn:Hs;
    try (unfold Signed; rewrite Hs; exact Hx).
  simpl in Hx. subst s'.
  match goal with
  | |- context [match ?n with Z0 => _ | Zpos _ => _ | Zneg _ => _ end] => destruct n
  end.
  - destruct s; reflexivity.
  - apply SF2Prim_signed.
    rewrite <- (xorb_false_r s) at 1. apply SFdiv_signed; reflexivity.
  - destruct s; reflexivity.
Qed.

End FloatFacts.

Import FloatFacts.

(** ** The correctly rounding C library *)

Lemma nearest_pow_pi_2 : nearest_pow pi 2 = 9.869604401089358.
Proof. vm_compute. reflexivity. Qed.

Lemma nearest_pow_not_negative iv n :
  (0 <? iv) = true -> (nearest_pow iv n <? 0) = false.
Proof.
  intros H. apply Signed_false_not_negative, nearest_pow_Signed, positive_Signed, H.
Qed.

(** The C library whose [pow] is rounded to nearest. *)
#[export] Instance correctly_rounded : Libm :=
  {| libm_pow := nearest_pow;
     libm_pow_pi_2 := nearest_pow_pi_2;
     libm_pow_not_negative := nearest_pow_not_negative |}.

(** ** The definitions on examples *)

Example pow_exact : float_pow 2 3 = inr 8 /\ float_pow 200 2 = inr 40000.
Proof. split; vm_compute; reflexivity. Qed.

Example pow_overflows : float_pow 1e200 3 = inl (OverflowError errno_range).
Proof. vm_compute. reflexivity. Qed.

Example pow_underflows : float_pow 2e-200 2 = inr 0.
Proof. vm_compute. reflexivity. Qed.

Example pow_negative_base : float_pow (-3) 3 = inr (-27) /\ float_pow (-3) 2 = inr 9.
Proof. split; vm_compute; reflexivity. Qed.

Example round_examples :
  py_round 0.0075666967075018413 3 = 0.008 /\ py_round 2.675 2 = 2.67 /\
  py_round 0.125 2 = 0.12 /\ py_round (-0.0001) 3 = (-0) /\
  py_round infinity 3 = infinity /\ py_round nan 3 = nan.
Proof. repeat split; vm_compute; reflexivity. Qed.

Example normalize_examples :
  normalize_shape "  hollow cylinder " = "Hollow_Cylinder"%string /\
  normalize_shape "Plate with Hole" = "Plate_With_Hole"%string /\
  normalize_shape "PLATE" = "Plate"%string.
Proof. repeat split. Qed.

Example second_moment_examples :
  second_moment_of_area "Plate" 20 2 0 0 0 = inr (20 * 8 / 12) /\
  second_moment_of_area "Plate_With_Hole" 20 2 0 0 4 = inr (20 * 8 / 12 - pi * 256 / 64) /\
  second_moment_of_area "Cylinder" 0 0 10 0 0 = inr (pi / 64 * 10000) /\
  second_moment_of_area "Hollow_Cylinder" 0 0 10 8 0 = inr (pi / 64 * (10000 - 4096)) /\
  second_moment_of_area "Hollow_Cylinder" 0 0 20 25 0 = inr 0 /\
  second_moment_of_area "Hollow_Rectangular_Bar" 10 2 0 0 0 = inr ((10000 - 1296) / 12) /\
  second_moment_of_area "Hollow_Rectangular_Bar" 4 2 0 0 0 = inr 0 /\
  second_moment_of_area "Sphere" 20 2 10 8 4 = inr 0.
Proof. repeat split; vm_compute; reflexivity. Qed.

Example pla_plate_formula : formula_buckling pla_plate = inr 0.008.
Proof. vm_compute. reflexivity. Qed.

Example reversed_tube_response : predict_buckling None reversed_tube = success_response 0.
Proof. vm_compute. reflexivity. Qed.

(** ** The Euler formula *)

(** [math.pi ** 2] *)
Lemma pi_squared {libm : Libm} : float_pow pi 2 = inr 9.869604401089358.
Proof.
  unfold float_pow.
  change (PrimFloat.is_nan pi) with false. change (PrimFloat.is_infinity pi) with false.
  change (pi =? 0) with false. change (pi <? 0) with false. cbv iota.
  change (pi =? 1) with false. cbv iota zeta.
  rewrite libm_pow_pi_2. reflexivity.
Qed.


Lemma formula_buckling_unfold {libm : Libm} data :
  formula_buckling data =
  (I <- second_moment_of data ;; critical_load_kN (E_MPa_of data) I data.(Length_mm)).
Proof. reflexivity. Qed.

Lemma critical_load_guard_fails {libm : Libm} E I L :
  valid_guard E I (2 * L) = false -> critical_load_kN E I L = inr 0.
Proof. intros H. unfold critical_load_kN. rewrite H. reflexivity. Qed.

Lemma critical_load_guard_holds {libm : Libm} E I L :
  valid_guard E I (2 * L) = true ->
  critical_load_kN E I L =
  (Le2 <- float_pow (2 * L) 2 ;;
   P_cr <- float_div (9.869604401089358 * E * I) Le2 ;;
   ret (py_round (P_cr / 1000) 3)).
Proof. intros H. unfold critical_load_kN. rewrite H, pi_squared. reflexivity. Qed.

Lemma critical_load_Signed {libm : Libm} E I L r :
  critical_load_kN E I L = inr r -> Signed false r.
Proof.
  destruct (valid_guard E I (2 * L)) eqn:Hg.
  - rewrite (critical_load_guard_holds _ _ _ Hg).
    unfold valid_guard in Hg.
    apply andb_prop in Hg as [Hg HLe]. apply andb_prop in Hg as [HE HI].
    destruct (float_pow (2 * L) 2) as [e|Le2] eqn:Hp; [discriminate|]. simpl.
    unfold float_div. destruct (Le2 =? 0) eqn:Hz; [discriminate|]. simpl. intros [= <-].
    apply py_round_Signed.
    apply (div_Signed false false); [|reflexivity].
    apply (div_Signed false false);
      [|apply not_negative_nonzero_Signed;
        [apply (float_pow_not_negative _ _ _ HLe Hp)|exact Hz]].
    apply (mul_Signed false false); [|apply positive_Signed, HI].
    apply (mul_Signed false false); [reflexivity|apply positive_Signed, HE].
  - rewrite (critical_load_guard_fails _ _ _ Hg). intros [= <-]. reflexivity.
Qed.

Lemma formula_buckling_Signed {libm : Libm} data r :
  formula_buckling data = inr r -> Signed false r.
Proof.
  rewrite formula_buckling_unfold.
  destruct (second_moment_of data) as [e|I]; [discriminate|].
  apply critical_load_Signed.
Qed.

Lemma formula_buckling_degenerate {libm : Libm} data I :
  second_moment_of data = inr I -> (0 <? I) = false -> formula_buckling data = inr 0.
Proof.
  intros HI Hn. rewrite formula_buckling_unfold, HI. simpl.
  apply critical_load_guard_fails. unfold valid_guard.
  rewrite Hn, andb_false_r. reflexivity.
Qed.

Lemma invalid_dimensions_zero {libm : Libm} data :
  invalid_dimensions data -> second_moment_of data = inr 0.
Proof.
  unfold invalid_dimensions, second_moment_of, second_moment_of_area, shape_of_name.
  repeat match goal with
         | |- context [String.eqb ?n ?k] => destruct (String.eqb n k)
         end;
    intros [H | [[H1 H2] | [H1 H2]]]; try discriminate; rewrite ?H2; reflexivity.
Qed.

Lemma dict_get_cons {V : Type} k (v : V) d key default :
  dict_get ((k, v) :: d) key default = if String.eqb k key then v else dict_get d key default.
Proof. reflexivity. Qed.

(** ** Rounding to nearest in binary64 *)

(** [binary_round_aux], the rounding step of every operation of
    [SpecFloat], is described in closed form ([rnd]) on the record of a
    fraction [N / D] at an exponent [e]; the result is a canonical float
    whose value is monotone in the value of the fraction, whatever exponent
    the fraction was given at.  Multiplication, division and the decimal
    rounding of [round] are instances. *)

Module Rounding.
Local Open Scope Z_scope.
Import PyFloat.

(** *** Binary digits *)

Lemma fx_eq z : fx z = Z.max (z - 53) (-1074).
Proof. reflexivity. Qed.

Lemma digits2_pos_size p : digits2_pos p = Pos.size p.
Proof. induction p; simpl; congruence. Qed.

Lemma Zdigits2_log2 m : 0 < m -> Zdigits2 m = Z.log2 m + 1.
Proof.
  destruct m as [|p|p]; try lia. intros _. simpl. rewrite digits2_pos_size.
  destruct p; simpl; lia.
Qed.

Lemma Zdigits2_bounds m : 0 < m -> 2 ^ (Zdigits2 m - 1) <= m < 2 ^ Zdigits2 m.
Proof.
  intros H. rewrite (Zdigits2_log2 m H).
  replace (Z.log2 m + 1 - 1) with (Z.log2 m) by lia.
  apply (Z.log2_spec m H).
Qed.

Lemma Zdigits2_pos m : 0 < m -> 1 <= Zdigits2 m.
Proof. intros H. rewrite (Zdigits2_log2 m H). pose proof (Z.log2_nonneg m). lia. Qed.

Lemma Zdigits2_nonneg m : 0 <= Zdigits2 m.
Proof. destruct m; simpl; lia. Qed.

Lemma Zdigits2_unique m d : 1 <= d -> 2 ^ (d - 1) <= m < 2 ^ d -> Zdigits2 m = d.
Proof.
  intros Hd H.
  assert (0 < m) by (pose proof (Z.pow_pos_nonneg 2 (d - 1)); lia).
  rewrite (Zdigits2_log2 m) by assumption.
  rewrite (Z.log2_unique m (d - 1)); try lia.
  replace (Z.succ (d - 1)) with d by lia. assumption.
Qed.

Lemma Zdigits2_mono a b : 0 <= a <= b -> Zdigits2 a <= Zdigits2 b.
Proof.
  intros [Ha Hab]. destruct (Z.eq_dec a 0) as [->|Hne].
  - apply Zdigits2_nonneg.
  - rewrite !Zdigits2_log2 by lia. pose proof (Z.log2_le_mono a b Hab). lia.
Qed.

(** [m < 2 ^ d] bounds the number of digits, and conversely. *)
Lemma Zdigits2_le m d : 0 <= m -> 0 <= d -> m < 2 ^ d -> Zdigits2 m <= d.
Proof.
  intros Hm Hd H. destruct (Z.eq_dec m 0) as [->|Hne]; [simpl; lia|].
  pose proof (Zdigits2_bounds m ltac:(lia)) as [Hlo _].
  destruct (Z_lt_le_dec d (Zdigits2 m)) as [Hlt|]; [|lia].
  assert (2 ^ d <= 2 ^ (Zdigits2 m - 1)) by (apply Z.pow_le_mono_r; lia).
  lia.
Qed.

Lemma Zdigits2_ge m d : 0 <= d -> 2 ^ d <= m -> d + 1 <= Zdigits2 m.
Proof.
  intros Hd H.
  assert (0 < m) by (pose proof (Z.pow_pos_nonneg 2 d); lia).
  pose proof (Zdigits2_bounds m ltac:(lia)) as [_ Hhi].
  destruct (Z_lt_le_dec (Zdigits2 m) (d + 1)) as [Hlt|]; [|lia].
  assert (2 ^ Zdigits2 m <= 2 ^ d).
  { apply Z.pow_le_mono_r; try lia. }
  lia.
Qed.

(** Shifting a positive mantissa left adds digits. *)
Lemma Zdigits2_shift m k : 0 < m -> 0 <= k -> Zdigits2 (m * 2 ^ k) = Zdigits2 m + k.
Proof.
  intros Hm Hk. pose proof (Zdigits2_bounds m Hm) as [Hlo Hhi].
  pose proof (Zdigits2_pos m Hm).
  apply Zdigits2_unique; [lia|].
  replace (Zdigits2 m + k - 1) with (Zdigits2 m - 1 + k) by lia.
  rewrite !Z.pow_add_r by lia.
  pose proof (Z.pow_pos_nonneg 2 k). nia.
Qed.

Lemma Rec_exact m : Rec m 1 = shr_record_of_loc m loc_Exact.
Proof.
  unfold Rec. rewrite Z.div_1_r, Z.mod_1_r. reflexivity.
Qed.

Lemma halving N D :
  0 <= N -> 0 < D ->
  N / (2 * D) = N / D / 2 /\ N mod (2 * D) = (N / D) mod 2 * D + N mod D.
Proof.
  intros HN HD.
  pose proof (Z.div_mod N D ltac:(lia)) as E1.
  pose proof (Z.mod_pos_bound N D HD) as B1.
  pose proof (Z.div_mod (N / D) 2 ltac:(lia)) as E2.
  pose proof (Z.mod_pos_bound (N / D) 2 ltac:(lia)) as B2.
  assert (E : N = N / D / 2 * (2 * D) + ((N / D) mod 2 * D + N mod D)) by nia.
  assert (B : 0 <= (N / D) mod 2 * D + N mod D < 2 * D) by nia.
  symmetry in E.
  pose proof (Z.div_mod_unique (2 * D) (N / D / 2) (N / (2 * D))
                ((N / D) mod 2 * D + N mod D) (N mod (2 * D))) as U.
  pose proof (Z.div_mod N (2 * D) ltac:(lia)) as E3.
  pose proof (Z.mod_pos_bound N (2 * D) ltac:(lia)) as B3.
  destruct U as [U1 U2]; [left; lia | left; lia | lia |].
  split; congruence.
Qed.

Lemma shr_1_Rec N D : 0 <= N -> 0 < D -> shr_1 (Rec N D) = Rec N (2 * D).
Proof.
  intros HN HD. destruct (halving N D HN HD) as [Hq Hr].
  pose proof (Z.mod_pos_bound N D HD) as B1.
  pose proof (Z.div_pos N D HN HD) as Hq0.
  unfold Rec, shr_1. rewrite Hq, Hr.
  set (q := N / D) in *. set (r := N mod D) in *.
  assert (Hs : (D <=? 2 * r) || negb ((r =? 0) || (2 * r =? D)) = negb (r =? 0)).
  { destruct (Z.leb_spec D (2 * r)), (Z.eqb_spec r 0), (Z.eqb_spec (2 * r) D);
      simpl; trivial; lia. }
  rewrite Hs.
  destruct q as [|[p|p|]|p]; try lia.
  - (* 0 *) change (0 / 2) with 0. change (0 mod 2) with 0. f_equal.
    + destruct (Z.leb_spec (2 * D) (2 * (0 * D + r))); trivial; lia.
    + destruct (Z.eqb_spec r 0), (Z.eqb_spec (0 * D + r) 0),
        (Z.eqb_spec (2 * (0 * D + r)) (2 * D)); simpl; trivial; lia.
  - (* 2p+1 *)
    replace (Z.pos p~1 / 2) with (Z.pos p) by (rewrite Pos2Z.inj_xI; apply Z.div_unique with 1; lia).
    replace (Z.pos p~1 mod 2) with 1 by (rewrite Pos2Z.inj_xI; apply Z.mod_unique with (Z.pos p); lia).
    f_equal.
    + destruct (Z.leb_spec (2 * D) (2 * (1 * D + r))); trivial; lia.
    + destruct (Z.eqb_spec r 0), (Z.eqb_spec (1 * D + r) 0),
        (Z.eqb_spec (2 * (1 * D + r)) (2 * D)); simpl; trivial; lia.
  - (* 2p *)
    replace (Z.pos p~0 / 2) with (Z.pos p) by (rewrite Pos2Z.inj_xO; apply Z.div_unique with 0; lia).
    replace (Z.pos p~0 mod 2) with 0 by (rewrite Pos2Z.inj_xO; apply Z.mod_unique with (Z.pos p); lia).
    f_equal.
    + destruct (Z.leb_spec (2 * D) (2 * (0 * D + r))); trivial; lia.
    + destruct (Z.eqb_spec r 0), (Z.eqb_spec (0 * D + r) 0),
        (Z.eqb_spec (2 * (0 * D + r)) (2 * D)); simpl; trivial; lia.
  - (* 1 *) change (1 / 2) with 0. change (1 mod 2) with 1. f_equal.
    + destruct (Z.leb_spec (2 * D) (2 * (1 * D + r))); trivial; lia.
    + destruct (Z.eqb_spec r 0), (Z.eqb_spec (1 * D + r) 0),
        (Z.eqb_spec (2 * (1 * D + r)) (2 * D)); simpl; trivial; lia.
Qed.

Lemma iter_shr_1_Rec p : forall N D,
  0 <= N -> 0 < D -> iter_pos shr_1 p (Rec N D) = Rec N (2 ^ Zpos p * D).
Proof.
  induction p as [p IH|p IH|]; intros N D HN HD; cbn [iter_pos].
  - rewrite shr_1_Rec, IH, IH by (try apply Z.mul_pos_pos; try apply Z.pow_pos_nonneg; lia).
    f_equal. replace (Zpos p~1) with (Zpos p + Zpos p + 1) by lia.
    rewrite !Z.pow_add_r by lia. change (2 ^ 1) with 2. ring.
  - rewrite IH, IH by (try apply Z.mul_pos_pos; try apply Z.pow_pos_nonneg; lia).
    f_equal. replace (Zpos p~0) with (Zpos p + Zpos p) by lia.
    rewrite !Z.pow_add_r by lia. ring.
  - rewrite shr_1_Rec by assumption. reflexivity.
Qed.

(** Shifting by [n] places, when [n] is not negative. *)
Lemma shr_Rec N D e n :
  0 <= N -> 0 < D -> 0 <= n -> shr (Rec N D) e n = (Rec N (2 ^ n * D), e + n).
Proof.
  intros HN HD Hn. unfold shr. destruct n as [|p|p]; try lia.
  - rewrite Z.pow_0_r, Z.mul_1_l, Z.add_0_r. reflexivity.
  - rewrite iter_shr_1_Rec by assumption. reflexivity.
Qed.

(** Rounding the record of [N / D] to nearest-even is [round_half_even]. *)
Lemma round_nearest_even_Rec N D :
  0 < D ->
  round_nearest_even (shr_m (Rec N D)) (loc_of_shr_record (Rec N D))
  = PyFloat.round_half_even N D.
Proof.
  intros HD. pose proof (Z.mod_pos_bound N D HD) as B.
  unfold Rec, PyFloat.round_half_even, loc_of_shr_record, round_nearest_even, shr_m.
  set (q := N / D). set (r := N mod D) in *.
  destruct (Z.leb_spec D (2 * r)), (Z.eqb_spec r 0), (Z.eqb_spec (2 * r) D),
    (Z.compare_spec (2 * r) D); simpl; trivial; lia.
Qed.

Lemma shr_m_of_loc m l : shr_m (shr_record_of_loc m l) = m.
Proof. destruct l as [|[]]; reflexivity. Qed.

Lemma shr_clip r e n : shr r e n = shr r e (Z.max 0 n).
Proof. destruct n; reflexivity. Qed.

Lemma round_half_even_bounds N D :
  0 < D -> N / D <= round_half_even N D <= N / D + 1.
Proof.
  intros HD. unfold round_half_even.
  destruct (2 * (N mod D) ?= D); try destruct (Z.even (N / D)); lia.
Qed.

Lemma round_half_even_nonneg N D : 0 <= N -> 0 < D -> 0 <= round_half_even N D.
Proof.
  intros HN HD. pose proof (round_half_even_bounds N D HD).
  pose proof (Z.div_pos N D HN HD). lia.
Qed.

Lemma shift_of_nonneg m e : 0 <= shift_of m e.
Proof. unfold shift_of. lia. Qed.

Lemma pow2_pos n : 0 <= n -> 0 < 2 ^ n.
Proof. intros. apply Z.pow_pos_nonneg; lia. Qed.

(** What [binary_round_aux] computes from the record of a fraction. *)
Lemma binary_round_aux_Rec s m e l N D :
  0 <= N -> 0 < D -> shr_record_of_loc m l = Rec N D ->
  binary_round_aux prec emax s m e l = pack s (fst (rnd N D e)) (snd (rnd N D e)).
Proof.
  intros HN HD Hrec.
  assert (Hm : m = N / D).
  { rewrite <- (shr_m_of_loc m l), Hrec. reflexivity. }
  unfold binary_round_aux, shr_fexp. rewrite Hrec, shr_clip.
  fold (fx (Zdigits2 m + e)). fold (shift_of m e). rewrite Hm.
  rewrite shr_Rec by (try apply shift_of_nonneg; assumption).
  pose proof (pow2_pos _ (shift_of_nonneg (N / D) e)) as Hp.
  rewrite round_nearest_even_Rec by (apply Z.mul_pos_pos; assumption).
  fold (rnd_mant N D e). fold (rnd_exp N D e).
  assert (HM : 0 <= rnd_mant N D e).
  { apply round_half_even_nonneg; [assumption|apply Z.mul_pos_pos; assumption]. }
  rewrite <- Rec_exact, shr_clip.
  fold (fx (Zdigits2 (rnd_mant N D e) + rnd_exp N D e)).
  fold (shift_of (rnd_mant N D e) (rnd_exp N D e)).
  rewrite shr_Rec by (try apply shift_of_nonneg; lia).
  unfold rnd, pack. cbn [fst snd shr_m Rec]. rewrite Z.mul_1_r. reflexivity.
Qed.

(** *** Rounding a fraction to the nearest integer *)

Lemma round_half_even_cases N D :
  0 < D ->
  let M := round_half_even N D in
  (2 * N < (2 * M + 1) * D /\ (2 * M - 1) * D < 2 * N) \/
  (2 * N = (2 * M + 1) * D /\ Z.even M = true) \/
  (2 * N = (2 * M - 1) * D /\ Z.even M = true).
Proof.
  intros HD M. subst M. unfold round_half_even.
  pose proof (Z.div_mod N D ltac:(lia)) as E.
  pose proof (Z.mod_pos_bound N D HD) as B.
  set (q := N / D) in *. set (r := N mod D) in *.
  destruct (Z.compare_spec (2 * r) D) as [H|H|H].
  - destruct (Z.even q) eqn:Hq.
    + right. left. split; [nia|assumption].
    + right. right. split; [nia|].
      rewrite Z.even_add, Hq. reflexivity.
  - left. nia.
  - left. nia.
Qed.

(** Rounding to nearest is monotone on fractions. *)
Lemma round_half_even_mono N1 D1 N2 D2 :
  0 < D1 -> 0 < D2 -> N1 * D2 <= N2 * D1 ->
  round_half_even N1 D1 <= round_half_even N2 D2.
Proof.
  intros H1 H2 Hle.
  pose proof (round_half_even_cases N1 D1 H1) as C1.
  pose proof (round_half_even_cases N2 D2 H2) as C2.
  cbv zeta in C1, C2.
  set (M1 := round_half_even N1 D1) in *. set (M2 := round_half_even N2 D2) in *.
  destruct (Z_le_gt_dec M1 M2) as [|Hgt]; [assumption|exfalso].
  assert (Hstep : M2 + 1 <= M1) by lia.
  (* 2 N1 D2 <= 2 N2 D1, (2 M1 - 1) D1 <= 2 N1, 2 N2 <= (2 M2 + 1) D2 *)
  assert (A1 : (2 * M1 - 1) * D1 <= 2 * N1) by (destruct C1 as [[]|[[]|[]]]; nia).
  assert (A2 : 2 * N2 <= (2 * M2 + 1) * D2) by (destruct C2 as [[]|[[]|[]]]; nia).
  assert (A3 : (2 * M1 - 1) * (D1 * D2) <= (2 * M2 + 1) * (D1 * D2)) by nia.
  assert (A4 : M1 = M2 + 1) by nia.
  assert (A5 : (2 * M1 - 1) * D1 = 2 * N1) by nia.
  assert (A6 : 2 * N2 = (2 * M2 + 1) * D2) by nia.
  assert (E1 : Z.even M1 = true) by (destruct C1 as [[]|[[]|[]]]; trivial; nia).
  assert (E2 : Z.even M2 = true) by (destruct C2 as [[]|[[]|[]]]; trivial; nia).
  rewrite A4, Z.even_add, E2 in E1. discriminate.
Qed.

Lemma round_half_even_scale t N D :
  0 < t -> 0 < D -> round_half_even (t * N) (t * D) = round_half_even N D.
Proof.
  intros Ht HD. apply Z.le_antisymm; apply round_half_even_mono; nia.
Qed.

Lemma round_half_even_exact m : round_half_even m 1 = m.
Proof.
  unfold round_half_even. rewrite Z.mod_1_r, Z.div_1_r. reflexivity.
Qed.

(** *** The shape of a rounded result *)

Lemma Zdigits2_shiftr q n :
  0 <= q -> 0 <= n -> Zdigits2 (q / 2 ^ n) = Z.max 0 (Zdigits2 q - n).
Proof.
  intros Hq Hn. pose proof (pow2_pos n Hn) as Hp.
  destruct (Z.eq_dec q 0) as [->|Hne].
  { rewrite Z.div_0_l by lia. simpl. lia. }
  pose proof (Zdigits2_bounds q ltac:(lia)) as [Hlo Hhi].
  pose proof (Zdigits2_pos q ltac:(lia)) as Hd.
  destruct (Z_lt_le_dec (Zdigits2 q - n) 1) as [Hsmall|Hbig].
  - assert (q < 2 ^ n).
    { assert (2 ^ Zdigits2 q <= 2 ^ n) by (apply Z.pow_le_mono_r; lia). lia. }
    rewrite Z.div_small by lia. simpl. lia.
  - rewrite Z.max_r by lia. apply Zdigits2_unique; [lia|].
    split.
    + apply Z.div_le_lower_bound; [lia|].
      rewrite <- Z.pow_add_r by lia.
      replace (n + (Zdigits2 q - n - 1)) with (Zdigits2 q - 1) by lia. assumption.
    + apply Z.div_lt_upper_bound; [lia|].
      rewrite <- Z.pow_add_r by lia.
      replace (n + (Zdigits2 q - n)) with (Zdigits2 q) by lia. assumption.
Qed.

Section Rounded.
Variables N D e : Z.
Hypothesis HN : 0 <= N.
Hypothesis HD : 0 < D.
Hypothesis Henough : enough N D e.

Let q := N / D.
Let n := shift_of q e.
Let E := rnd_exp N D e.
Let M := rnd_mant N D e.

Lemma shift_of_enough : n = fx (Zdigits2 q + e) - e.
Proof. unfold n, shift_of. unfold enough in Henough. fold q in Henough. lia. Qed.

Lemma rnd_exp_enough : E = fx (Zdigits2 q + e).
Proof. unfold E, rnd_exp. fold q. fold n. rewrite shift_of_enough. lia. Qed.

Lemma rnd_exp_ge : e <= E /\ -1074 <= E.
Proof. rewrite rnd_exp_enough. unfold enough in Henough. fold q in Henough. rewrite fx_eq in *. lia. Qed.

Lemma quotient_nonneg : 0 <= q.
Proof. apply Z.div_pos; assumption. Qed.

Lemma places_nonneg : 0 <= n.
Proof. apply shift_of_nonneg. Qed.

(** The truncated mantissa. *)
Lemma truncated_eq : N / (2 ^ n * D) = q / 2 ^ n.
Proof.
  pose proof (pow2_pos n places_nonneg).
  rewrite (Z.mul_comm (2 ^ n) D), <- Z.div_div by lia. reflexivity.
Qed.

Lemma truncated_canon : canon (q / 2 ^ n) E.
Proof.
  pose proof rnd_exp_ge as [_ HE]. pose proof rnd_exp_enough as HEq.
  pose proof shift_of_enough as Hn. pose proof places_nonneg as Hn0.
  unfold canon. rewrite (Zdigits2_shiftr q n quotient_nonneg Hn0).
  rewrite fx_eq in *. pose proof (Zdigits2_nonneg q). lia.
Qed.

Lemma rnd_mant_bounds : q / 2 ^ n <= M <= q / 2 ^ n + 1.
Proof.
  unfold M, rnd_mant. fold q. fold n. rewrite <- truncated_eq.
  apply round_half_even_bounds. apply Z.mul_pos_pos; [apply pow2_pos, places_nonneg|assumption].
Qed.

Lemma rnd_mant_nonneg : 0 <= M.
Proof.
  pose proof rnd_mant_bounds. pose proof quotient_nonneg.
  pose proof (Z.div_pos q (2 ^ n) quotient_nonneg (pow2_pos n places_nonneg)). lia.
Qed.

(** The rounded mantissa has at most 54 digits, and 54 only as [2 ^ 53]. *)
Lemma rnd_mant_digits :
  (Zdigits2 M <= 53 /\ (Zdigits2 M = 53 \/ E = -1074)) \/ (M = 2 ^ 53 /\ -1074 <= E).
Proof.
  pose proof truncated_canon as (HE & Hd & Hc). pose proof rnd_mant_bounds as [Hlo Hhi].
  pose proof (Z.div_pos q (2 ^ n) quotient_nonneg (pow2_pos n places_nonneg)) as Ht.
  set (t := q / 2 ^ n) in *.
  assert (Hlt : t < 2 ^ 53).
  { destruct (Z.eq_dec t 0) as [->|]; [reflexivity|].
    pose proof (Zdigits2_bounds t ltac:(lia)) as [_ Hb].
    assert (2 ^ Zdigits2 t <= 2 ^ 53) by (apply Z.pow_le_mono_r; lia). lia. }
  destruct (Z.eq_dec M (2 ^ 53)) as [HM|HM]; [right; split; assumption|left].
  assert (HM53 : Zdigits2 M <= 53) by (apply Zdigits2_le; lia).
  split; [assumption|].
  destruct Hc as [Hc|Hc]; [left|right; assumption].
  pose proof (Zdigits2_mono t M ltac:(lia)). lia.
Qed.

(** The result of [rnd]: a canonical mantissa and exponent that stand for
    the value [M * 2 ^ E]. *)
Lemma rnd_canon :
  let Mo := fst (rnd N D e) in
  let Eo := snd (rnd N D e) in
  canon Mo Eo /\ E <= Eo /\ Mo * 2 ^ (Eo - E) = M /\ 0 <= Mo.
Proof.
  unfold rnd. cbn [fst snd]. fold M. fold E.
  destruct rnd_mant_digits as [(Hd & Hc)|(HM & HE)].
  - pose proof rnd_exp_ge as [_ HE].
    assert (Hs : shift_of M E = 0).
    { unfold shift_of. rewrite fx_eq. lia. }
    rewrite Hs, Z.pow_0_r, Z.div_1_r, Z.add_0_r, Z.sub_diag, Z.pow_0_r.
    pose proof rnd_mant_nonneg. unfold canon. repeat split; try lia.
  - assert (Hs : shift_of M E = 1).
    { unfold shift_of. rewrite HM. change (Zdigits2 (2 ^ 53)) with 54. rewrite fx_eq. lia. }
    rewrite Hs, HM. change (2 ^ 53 / 2 ^ 1) with (2 ^ 52).
    replace (E + 1 - E) with 1 by lia.
    unfold canon. change (Zdigits2 (2 ^ 52)) with 53.
    repeat split; try lia.
Qed.

End Rounded.

(** *** The same value at a finer exponent *)

Lemma fx_mono a b : a <= b -> fx a <= fx b.
Proof. rewrite !fx_eq. lia. Qed.

Lemma refine_digits N D e k :
  0 <= N -> 0 < D -> 0 <= k -> enough N D e ->
  fx (Zdigits2 (2 ^ k * N / D) + (e - k)) = fx (Zdigits2 (N / D) + e).
Proof.
  intros HN HD Hk He. unfold enough in He.
  pose proof (pow2_pos k Hk) as Hp.
  pose proof (Z.div_mod N D ltac:(lia)) as Eq. pose proof (Z.mod_pos_bound N D HD) as B.
  pose proof (Z.div_pos N D HN HD) as Hq.
  destruct (Z.eq_dec (N / D) 0) as [Hz|Hnz].
  - rewrite Hz in *. simpl Zdigits2 in *. rewrite !fx_eq in *.
    assert (HND : N < D) by lia.
    assert (2 ^ k * N / D < 2 ^ k).
    { apply Z.div_lt_upper_bound; [lia|]. rewrite (Z.mul_comm D).
      apply Z.mul_lt_mono_pos_l; lia. }
    assert (0 <= 2 ^ k * N / D) by (apply Z.div_pos; [apply Z.mul_nonneg_nonneg|]; lia).
    pose proof (Zdigits2_le (2 ^ k * N / D) k ltac:(lia) Hk ltac:(lia)).
    pose proof (Zdigits2_nonneg (2 ^ k * N / D)). lia.
  - f_equal.
    pose proof (Zdigits2_bounds (N / D) ltac:(lia)) as [Hlo Hhi].
    pose proof (Zdigits2_pos (N / D) ltac:(lia)) as Hd.
    rewrite (Zdigits2_unique (2 ^ k * N / D) (Zdigits2 (N / D) + k)); [lia|lia|].
    set (q := N / D) in *. set (r := N mod D) in *. set (d := Zdigits2 q) in *.
    clearbody q r d.
    assert (Hlo' : 2 ^ (d - 1) * D <= N) by nia.
    assert (Hhi' : N < 2 ^ d * D) by nia.
    split.
    + apply Z.div_le_lower_bound; [lia|].
      replace (d + k - 1) with (d - 1 + k) by lia.
      rewrite Z.pow_add_r by lia.
      pose proof (pow2_pos (d - 1) ltac:(lia)). nia.
    + apply Z.div_lt_upper_bound; [lia|].
      rewrite Z.pow_add_r by lia.
      pose proof (pow2_pos d ltac:(lia)). nia.
Qed.

Lemma rnd_refine N D e k :
  0 <= N -> 0 < D -> 0 <= k -> enough N D e ->
  enough (2 ^ k * N) D (e - k) /\
  rnd_mant (2 ^ k * N) D (e - k) = rnd_mant N D e /\
  rnd_exp (2 ^ k * N) D (e - k) = rnd_exp N D e /\
  rnd (2 ^ k * N) D (e - k) = rnd N D e.
Proof.
  intros HN HD Hk He.
  pose proof (refine_digits N D e k HN HD Hk He) as Hfx.
  assert (He' : enough (2 ^ k * N) D (e - k)).
  { unfold enough in *. rewrite Hfx. lia. }
  assert (Hs : shift_of (2 ^ k * N / D) (e - k) = shift_of (N / D) e + k).
  { unfold shift_of. rewrite Hfx. unfold enough in He. lia. }
  assert (HM : rnd_mant (2 ^ k * N) D (e - k) = rnd_mant N D e).
  { unfold rnd_mant. rewrite Hs.
    rewrite Z.pow_add_r by (try apply shift_of_nonneg; lia).
    replace (2 ^ shift_of (N / D) e * 2 ^ k * D) with (2 ^ k * (2 ^ shift_of (N / D) e * D)) by ring.
    apply round_half_even_scale; [apply pow2_pos; lia|].
    apply Z.mul_pos_pos; [apply pow2_pos, shift_of_nonneg|assumption]. }
  assert (HE : rnd_exp (2 ^ k * N) D (e - k) = rnd_exp N D e).
  { unfold rnd_exp. rewrite Hs. lia. }
  repeat split; trivial.
  unfold rnd. rewrite HM, HE. reflexivity.
Qed.

(** *** The values of rounded fractions *)

Lemma div_fraction_mono N1 D1 N2 D2 :
  0 < D1 -> 0 < D2 -> N1 * D2 <= N2 * D1 -> N1 / D1 <= N2 / D2.
Proof.
  intros H1 H2 Hle.
  apply Z.div_le_lower_bound; [lia|].
  pose proof (Z.div_mod N1 D1 ltac:(lia)) as E1. pose proof (Z.mod_pos_bound N1 D1 H1) as B1.
  (* D2 * (N1/D1) <= N2 *)
  assert (D1 * (D2 * (N1 / D1)) <= D1 * N2) by nia.
  nia.
Qed.

(** The values of two rounded fractions at a common exponent. *)
Lemma rnd_value_mono N1 D1 N2 D2 e :
  0 <= N1 -> 0 < D1 -> 0 <= N2 -> 0 < D2 ->
  enough N1 D1 e -> enough N2 D2 e ->
  N1 * D2 <= N2 * D1 ->
  rnd_mant N1 D1 e * 2 ^ (rnd_exp N1 D1 e - e) <= rnd_mant N2 D2 e * 2 ^ (rnd_exp N2 D2 e - e).
Proof.
  intros HN1 HD1 HN2 HD2 He1 He2 Hle.
  pose proof (div_fraction_mono N1 D1 N2 D2 HD1 HD2 Hle) as Hq.
  pose proof (Z.div_pos N1 D1 HN1 HD1) as Hq1.
  pose proof (Zdigits2_mono (N1 / D1) (N2 / D2) ltac:(lia)) as Hd.
  pose proof (shift_of_enough N1 D1 e He1) as Hn1.
  pose proof (shift_of_enough N2 D2 e He2) as Hn2.
  pose proof (shift_of_nonneg (N1 / D1) e) as Hn1'.
  pose proof (shift_of_nonneg (N2 / D2) e) as Hn2'.
  unfold rnd_exp.
  replace (e + shift_of (N1 / D1) e - e) with (shift_of (N1 / D1) e) by lia.
  replace (e + shift_of (N2 / D2) e - e) with (shift_of (N2 / D2) e) by lia.
  set (n1 := shift_of (N1 / D1) e) in *. set (n2 := shift_of (N2 / D2) e) in *.
  assert (Hn : n1 <= n2).
  { rewrite Hn1, Hn2. pose proof (fx_mono (Zdigits2 (N1 / D1) + e) (Zdigits2 (N2 / D2) + e)). lia. }
  pose proof (pow2_pos n1 Hn1') as Hp1. pose proof (pow2_pos n2 Hn2') as Hp2.
  destruct (Z.eq_dec n1 n2) as [Heq|Hne].
  - rewrite <- Heq. apply Z.mul_le_mono_nonneg_r; [lia|].
    unfold rnd_mant. fold n1. fold n2. rewrite <- Heq.
    apply round_half_even_mono; try (apply Z.mul_pos_pos; assumption). nia.
  - (* the second fraction is at least a power of two above the first *)
    pose proof (rnd_mant_bounds N1 D1 e HD1) as [_ Hhi1].
    pose proof (rnd_mant_bounds N2 D2 e HD2) as [Hlo2 _].
    fold n1 in Hhi1. fold n2 in Hlo2.
    pose proof (Z.div_pos N2 D2 HN2 HD2) as Hq2.
    set (q1 := N1 / D1) in *. set (q2 := N2 / D2) in *.
    set (d1 := Zdigits2 q1) in *. set (d2 := Zdigits2 q2) in *.
    rewrite fx_eq in Hn1, Hn2.
    assert (Hn2eq : n2 = d2 - 53) by lia.
    assert (Hd12 : d1 < d2) by lia.
    assert (Hq2pos : 0 < q2).
    { destruct (Z.eq_dec q2 0) as [Hz|]; [|lia].
      unfold d2 in *. rewrite Hz in *. simpl in *. pose proof (Zdigits2_nonneg q1). lia. }
    (* upper bound of the first value *)
    assert (U : rnd_mant N1 D1 e * 2 ^ n1 <= 2 ^ (d2 - 1)).
    { assert (Ht : Zdigits2 (q1 / 2 ^ n1) = Z.max 0 (d1 - n1)) by (apply Zdigits2_shiftr; lia).
      assert (Ht0 : 0 <= q1 / 2 ^ n1) by (apply Z.div_pos; lia).
      assert (Hb : q1 / 2 ^ n1 + 1 <= 2 ^ Z.max 0 (d1 - n1)).
      { destruct (Z.eq_dec (q1 / 2 ^ n1) 0) as [Hz|Hnz].
        - rewrite Hz. pose proof (pow2_pos (Z.max 0 (d1 - n1)) ltac:(lia)). lia.
        - pose proof (Zdigits2_bounds (q1 / 2 ^ n1) ltac:(lia)) as [_ Hb]. rewrite Ht in Hb. lia. }
      assert (Hc : 2 ^ Z.max 0 (d1 - n1) * 2 ^ n1 <= 2 ^ (d2 - 1)).
      { rewrite <- Z.pow_add_r by lia. apply Z.pow_le_mono_r; lia. }
      nia. }
    (* lower bound of the second value *)
    assert (L : 2 ^ (d2 - 1) <= rnd_mant N2 D2 e * 2 ^ n2).
    { assert (Ht : Zdigits2 (q2 / 2 ^ n2) = Z.max 0 (d2 - n2)) by (apply Zdigits2_shiftr; lia).
      rewrite Z.max_r in Ht by lia.
      assert (Ht0 : 0 <= q2 / 2 ^ n2) by (apply Z.div_pos; lia).
      assert (Hnz : q2 / 2 ^ n2 <> 0).
      { intros Hz. rewrite Hz in Ht. simpl in Ht. lia. }
      pose proof (Zdigits2_bounds (q2 / 2 ^ n2) ltac:(lia)) as [Hb _]. rewrite Ht in Hb.
      replace (d2 - n2 - 1) with 52 in Hb by lia.
      assert (Hc : 2 ^ (d2 - 1) = 2 ^ 52 * 2 ^ n2).
      { rewrite <- Z.pow_add_r by lia. f_equal. lia. }
      rewrite Hc. apply Z.mul_le_mono_nonneg_r; lia. }
    lia.
Qed.

(** *** The order of canonical floats *)

Lemma canon_bound M E : canon M E -> 0 <= M -> M < 2 ^ 53.
Proof.
  intros (_ & Hd & _) HM.
  destruct (Z.eq_dec M 0) as [->|]; [reflexivity|].
  pose proof (Zdigits2_bounds M ltac:(lia)) as [_ Hb].
  assert (2 ^ Zdigits2 M <= 2 ^ 53) by (apply Z.pow_le_mono_r; lia). lia.
Qed.

Lemma canon_normal M E : canon M E -> 0 <= M -> -1074 < E -> 2 ^ 52 <= M.
Proof.
  intros (_ & Hd & Hc) HM HE.
  assert (Hd53 : Zdigits2 M = 53) by lia.
  assert (0 < M) by (destruct M; simpl in Hd53; lia).
  pose proof (Zdigits2_bounds M ltac:(lia)) as [Hb _]. rewrite Hd53 in Hb. exact Hb.
Qed.

(** A canonical float with the larger exponent is the larger one. *)
Lemma canon_lt M1 E1 M2 E2 b :
  canon M1 E1 -> canon M2 E2 -> 0 <= M1 -> 0 <= M2 -> b <= E1 -> E1 < E2 ->
  M1 * 2 ^ (E1 - b) < M2 * 2 ^ (E2 - b).
Proof.
  intros C1 C2 H1 H2 Hb Hlt.
  pose proof (canon_bound M1 E1 C1 H1) as B1.
  assert (HE1 : -1074 <= E1) by (destruct C1; assumption).
  pose proof (canon_normal M2 E2 C2 H2 ltac:(lia)) as B2.
  replace (E2 - b) with (E2 - E1 + (E1 - b)) by lia.
  rewrite Z.pow_add_r by lia.
  pose proof (pow2_pos (E1 - b) ltac:(lia)) as Hp.
  assert (Hq : 2 ^ 1 <= 2 ^ (E2 - E1)) by (apply Z.pow_le_mono_r; lia).
  change (2 ^ 1) with 2 in Hq. change (2 ^ 53) with (2 * 2 ^ 52) in B1.
  set (x := 2 ^ (E1 - b)) in *. set (y := 2 ^ (E2 - E1)) in *. set (c := 2 ^ 52) in *.
  assert (0 < c) by reflexivity.
  clearbody x y c.
  assert (S1 : M1 * x < 2 * c * x) by (apply Z.mul_lt_mono_pos_r; lia).
  assert (S2 : 2 * c <= M2 * y) by nia.
  assert (S3 : 2 * c * x <= M2 * y * x) by (apply Z.mul_le_mono_nonneg_r; lia).
  lia.
Qed.

(** Canonical floats compare as their values do. *)
Lemma pack_leb M1 E1 M2 E2 b :
  canon M1 E1 -> canon M2 E2 -> 0 <= M1 -> 0 <= M2 -> b <= E1 -> b <= E2 ->
  M1 * 2 ^ (E1 - b) <= M2 * 2 ^ (E2 - b) ->
  SFleb (pack false M1 E1) (pack false M2 E2) = true.
Proof.
  intros C1 C2 H1 H2 Hb1 Hb2 Hle.
  pose proof (pow2_pos (E1 - b) ltac:(lia)) as Hp1.
  pose proof (pow2_pos (E2 - b) ltac:(lia)) as Hp2.
  destruct M1 as [|p1|p1]; [|clear H1|lia].
  - destruct M2 as [|p2|p2]; [reflexivity| |lia].
    unfold pack. destruct (E2 <=? emax - prec); reflexivity.
  - destruct M2 as [|p2|p2]; [lia| |lia].
    assert (Hord : E1 < E2 \/ (E1 = E2 /\ Zpos p1 <= Zpos p2)).
    { destruct (Z.lt_trichotomy E1 E2) as [Hlt|[Heq|Hgt]].
      - left. assumption.
      - right. split; [assumption|]. subst E2. nia.
      - exfalso. pose proof (canon_lt (Zpos p2) E2 (Zpos p1) E1 b C2 C1 ltac:(lia) ltac:(lia) Hb2 Hgt). lia. }
    unfold pack.
    destruct (Z.leb_spec E1 (emax - prec)) as [Ho1|Ho1];
      destruct (Z.leb_spec E2 (emax - prec)) as [Ho2|Ho2]; try reflexivity.
    + unfold SFleb, SFcompare.
      destruct Hord as [Hlt|[Heq Hm]].
      * apply Z.compare_lt_iff in Hlt. rewrite Hlt. reflexivity.
      * subst E2. rewrite Z.compare_refl.
        change (Pos.compare_cont Eq p1 p2) with (Pos.compare p1 p2).
        destruct (Pos.compare_spec p1 p2); try reflexivity. lia.
    + exfalso. lia.
Qed.

(** *** Rounding is monotone *)

(** Two fractions with exponents, ordered by value, round to ordered
    floats. *)
Theorem rnd_leb N1 D1 e1 N2 D2 e2 :
  0 <= N1 -> 0 < D1 -> 0 <= N2 -> 0 < D2 ->
  enough N1 D1 e1 -> enough N2 D2 e2 ->
  (2 ^ (e1 - Z.min e1 e2) * N1) * D2 <= (2 ^ (e2 - Z.min e1 e2) * N2) * D1 ->
  SFleb (pack false (fst (rnd N1 D1 e1)) (snd (rnd N1 D1 e1)))
        (pack false (fst (rnd N2 D2 e2)) (snd (rnd N2 D2 e2))) = true.
Proof.
  intros HN1 HD1 HN2 HD2 He1 He2 Hle.
  set (b := Z.min e1 e2) in *.
  destruct (rnd_refine N1 D1 e1 (e1 - b) HN1 HD1 ltac:(lia) He1) as (He1' & HM1 & HE1 & Hr1).
  destruct (rnd_refine N2 D2 e2 (e2 - b) HN2 HD2 ltac:(lia) He2) as (He2' & HM2 & HE2 & Hr2).
  replace (e1 - (e1 - b)) with b in * by lia.
  replace (e2 - (e2 - b)) with b in * by lia.
  rewrite <- Hr1, <- Hr2.
  set (N1' := 2 ^ (e1 - b) * N1) in *. set (N2' := 2 ^ (e2 - b) * N2) in *.
  assert (HN1' : 0 <= N1') by (apply Z.mul_nonneg_nonneg; [apply Z.lt_le_incl, pow2_pos|]; lia).
  assert (HN2' : 0 <= N2') by (apply Z.mul_nonneg_nonneg; [apply Z.lt_le_incl, pow2_pos|]; lia).
  pose proof (rnd_value_mono N1' D1 N2' D2 b HN1' HD1 HN2' HD2 He1' He2' Hle) as Hv.
  pose proof (rnd_canon N1' D1 b HN1' HD1 He1') as (C1 & G1 & V1 & P1).
  pose proof (rnd_canon N2' D2 b HN2' HD2 He2') as (C2 & G2 & V2 & P2).
  pose proof (rnd_exp_ge N1' D1 b He1') as [B1 _].
  pose proof (rnd_exp_ge N2' D2 b He2') as [B2 _].
  cbv zeta in *.
  apply (pack_leb _ _ _ _ b C1 C2 P1 P2); try lia.
  rewrite <- V1, <- V2 in Hv.
  rewrite <- !Z.mul_assoc, <- !Z.pow_add_r in Hv by lia.
  replace (snd (rnd N1' D1 b) - rnd_exp N1' D1 b + (rnd_exp N1' D1 b - b))
    with (snd (rnd N1' D1 b) - b) in Hv by lia.
  replace (snd (rnd N2' D2 b) - rnd_exp N2' D2 b + (rnd_exp N2' D2 b - b))
    with (snd (rnd N2' D2 b) - b) in Hv by lia.
  exact Hv.
Qed.

(** *** Valid floats *)

Lemma valid_canon s m e :
  valid_binary (S754_finite s m e) = true -> canon (Zpos m) e /\ e <= 971.
Proof.
  unfold valid_binary, SpecFloat.valid_binary, bounded, canonical_mantissa.
  intros H. apply andb_prop in H as [H1 H2].
  apply Z.eqb_eq in H1. apply Z.leb_le in H2.
  change (fexp prec emax (Zpos (digits2_pos m) + e)) with (fx (Zdigits2 (Zpos m) + e)) in H1.
  rewrite fx_eq in H1. change (emax - prec) with 971 in H2.
  unfold canon. lia.
Qed.

(** The order of valid positive floats is the order of their values. *)
Lemma finite_leb_value m1 e1 m2 e2 :
  canon (Zpos m1) e1 -> canon (Zpos m2) e2 ->
  SFleb (S754_finite false m1 e1) (S754_finite false m2 e2) = true ->
  Zpos m1 * 2 ^ (e1 - Z.min e1 e2) <= Zpos m2 * 2 ^ (e2 - Z.min e1 e2).
Proof.
  intros C1 C2. unfold SFleb, SFcompare.
  destruct (Z.compare_spec e1 e2) as [Heq|Hlt|Hgt].
  - subst e2. change (Pos.compare_cont Eq m1 m2) with (Pos.compare m1 m2).
    destruct (Pos.compare_spec m1 m2); try discriminate; intros _;
      apply Z.mul_le_mono_nonneg_r; try lia; apply Z.lt_le_incl, pow2_pos; lia.
  - intros _. apply Z.lt_le_incl, canon_lt; trivial; lia.
  - discriminate.
Qed.

(** *** Multiplication *)

Lemma SFmul_finite sx mx ex sy my ey :
  SFmul prec emax (S754_finite sx mx ex) (S754_finite sy my ey)
  = pack (xorb sx sy) (fst (rnd (Zpos mx * Zpos my) 1 (ex + ey)))
                      (snd (rnd (Zpos mx * Zpos my) 1 (ex + ey))).
Proof.
  unfold SFmul. apply binary_round_aux_Rec; try lia.
  rewrite Rec_exact. reflexivity.
Qed.

Lemma Zdigits2_mul a b : 0 < a -> 0 < b -> Zdigits2 a + Zdigits2 b - 1 <= Zdigits2 (a * b).
Proof.
  intros Ha Hb.
  pose proof (Zdigits2_bounds a Ha) as [La _]. pose proof (Zdigits2_bounds b Hb) as [Lb _].
  pose proof (Zdigits2_pos a Ha). pose proof (Zdigits2_pos b Hb).
  pose proof (Zdigits2_ge (a * b) (Zdigits2 a - 1 + (Zdigits2 b - 1)) ltac:(lia)) as G.
  rewrite Z.pow_add_r in G by lia.
  pose proof (pow2_pos (Zdigits2 a - 1) ltac:(lia)).
  pose proof (pow2_pos (Zdigits2 b - 1) ltac:(lia)).
  assert (2 ^ (Zdigits2 a - 1) * 2 ^ (Zdigits2 b - 1) <= a * b) by (apply Z.mul_le_mono_nonneg; lia).
  lia.
Qed.

Lemma mul_enough mx ex my ey :
  canon (Zpos mx) ex -> canon (Zpos my) ey -> enough (Zpos mx * Zpos my) 1 (ex + ey).
Proof.
  intros (Hx1 & Hx2 & Hx3) (Hy1 & Hy2 & Hy3). unfold enough.
  rewrite Z.div_1_r, fx_eq.
  pose proof (Zdigits2_mul (Zpos mx) (Zpos my) ltac:(lia) ltac:(lia)).
  pose proof (Zdigits2_pos (Zpos mx) ltac:(lia)). pose proof (Zdigits2_pos (Zpos my) ltac:(lia)).
  lia.
Qed.

(** Multiplying by a positive float is monotone on positive floats. *)
Lemma SFmul_mono ma ea mb eb mc ec :
  canon (Zpos ma) ea -> canon (Zpos mb) eb -> canon (Zpos mc) ec ->
  SFleb (S754_finite false ma ea) (S754_finite false mb eb) = true ->
  SFleb (SFmul prec emax (S754_finite false ma ea) (S754_finite false mc ec))
        (SFmul prec emax (S754_finite false mb eb) (S754_finite false mc ec)) = true.
Proof.
  intros Ca Cb Cc Hle. rewrite !SFmul_finite. cbn [xorb].
  pose proof (finite_leb_value ma ea mb eb Ca Cb Hle) as Hv.
  apply rnd_leb; try lia; try (apply mul_enough; assumption).
  replace (Z.min (ea + ec) (eb + ec)) with (Z.min ea eb + ec) by lia.
  replace (ea + ec - (Z.min ea eb + ec)) with (ea - Z.min ea eb) by lia.
  replace (eb + ec - (Z.min ea eb + ec)) with (eb - Z.min ea eb) by lia.
  set (x := 2 ^ (ea - Z.min ea eb)) in *. set (y := 2 ^ (eb - Z.min ea eb)) in *.
  clearbody x y. nia.
Qed.

(** *** Division *)

Lemma new_location_Rec N D :
  0 <= N -> 0 < D ->
  shr_record_of_loc (N / D) (new_location D (N mod D)) = Rec N D.
Proof.
  intros HN HD. pose proof (Z.mod_pos_bound N D HD) as B.
  unfold Rec, new_location, new_location_even, new_location_odd.
  set (q := N / D). set (r := N mod D) in *. clearbody q r.
  destruct (Z.even D) eqn:Hev.
  - destruct (Z.eqb_spec r 0) as [->|Hr].
    + simpl. f_equal. destruct (Z.leb_spec D (2 * 0)); trivial; lia.
    + destruct (Z.compare_spec (2 * r) D), (Z.leb_spec D (2 * r)), (Z.eqb_spec (2 * r) D);
        simpl; trivial; lia.
  - assert (Hodd : 2 * r <> D).
    { intros <-. rewrite Z.even_mul in Hev. discriminate. }
    destruct (Z.eqb_spec r 0) as [->|Hr].
    + simpl. f_equal. destruct (Z.leb_spec D (2 * 0)); trivial; lia.
    + destruct (Z.compare_spec (2 * r + 1) D), (Z.leb_spec D (2 * r)), (Z.eqb_spec (2 * r) D);
        simpl; trivial; lia.
Qed.

Lemma SFdiv_core_binary_eq m1 e1 m2 e2 :
  0 < m1 -> 0 < m2 ->
  SFdiv_core_binary prec emax m1 e1 m2 e2
  = (div_num m1 e1 m2 e2 / m2, div_exp m1 e1 m2 e2,
     new_location m2 (div_num m1 e1 m2 e2 mod m2)).
Proof.
  intros H1 H2. unfold SFdiv_core_binary.
  change (fexp prec emax (Zdigits2 m1 + e1 - (Zdigits2 m2 + e2)))
    with (fx (Zdigits2 m1 + e1 - (Zdigits2 m2 + e2))).
  fold (div_exp m1 e1 m2 e2).
  assert (Hs : 0 <= e1 - e2 - div_exp m1 e1 m2 e2) by (unfold div_exp; lia).
  assert (Hm : match e1 - e2 - div_exp m1 e1 m2 e2 with
               | Zpos _ => Z.shiftl m1 (e1 - e2 - div_exp m1 e1 m2 e2)
               | Z0 => m1
               | Zneg _ => 0
               end = div_num m1 e1 m2 e2).
  { unfold div_num. destruct (e1 - e2 - div_exp m1 e1 m2 e2) eqn:E; try lia.
    rewrite Z.shiftl_mul_pow2 by lia. reflexivity. }
  rewrite Hm. unfold Z.div, Z.modulo.
  destruct (Z.div_eucl (div_num m1 e1 m2 e2) m2). reflexivity.
Qed.

Lemma SFdiv_finite sx mx ex sy my ey :
  let N := div_num (Zpos mx) ex (Zpos my) ey in
  let e := div_exp (Zpos mx) ex (Zpos my) ey in
  SFdiv prec emax (S754_finite sx mx ex) (S754_finite sy my ey)
  = pack (xorb sx sy) (fst (rnd N (Zpos my) e)) (snd (rnd N (Zpos my) e)).
Proof.
  intros N e. unfold SFdiv. rewrite SFdiv_core_binary_eq by lia. fold N. fold e.
  assert (HN : 0 <= N).
  { unfold N, div_num. apply Z.mul_nonneg_nonneg; [lia|].
    apply Z.pow_nonneg. lia. }
  apply binary_round_aux_Rec; try lia.
  apply new_location_Rec; lia.
Qed.

Lemma div_num_pos m1 e1 m2 e2 : 0 < m1 -> 0 < div_num m1 e1 m2 e2.
Proof.
  intros H. unfold div_num. apply Z.mul_pos_pos; [assumption|].
  apply pow2_pos. unfold div_exp. lia.
Qed.

Lemma div_enough m1 e1 m2 e2 :
  0 < m1 -> 0 < m2 ->
  enough (div_num m1 e1 m2 e2) m2 (div_exp m1 e1 m2 e2).
Proof.
  intros H1 H2. unfold enough.
  set (e' := div_exp m1 e1 m2 e2). set (s := e1 - e2 - e').
  assert (Hs : 0 <= s) by (unfold s, e', div_exp; lia).
  assert (He' : e' = Z.min (fx (Zdigits2 m1 + e1 - (Zdigits2 m2 + e2))) (e1 - e2)) by reflexivity.
  change (div_num m1 e1 m2 e2) with (m1 * 2 ^ s).
  pose proof (pow2_pos s Hs) as Hp.
  assert (Hq : 0 <= m1 * 2 ^ s / m2) by (apply Z.div_pos; nia).
  pose proof (Zdigits2_nonneg (m1 * 2 ^ s / m2)) as Hd0.
  rewrite !fx_eq in *.
  destruct (Z_lt_le_dec (Zdigits2 m1 + s - Zdigits2 m2) 1) as [Hsmall|Hbig].
  - lia.
  - assert (Hd : Zdigits2 m1 + s - Zdigits2 m2 <= Zdigits2 (m1 * 2 ^ s / m2)).
    { pose proof (Zdigits2_bounds m1 H1) as [L1 _].
      pose proof (Zdigits2_bounds m2 H2) as [_ U2].
      pose proof (Zdigits2_pos m1 H1). pose proof (Zdigits2_pos m2 H2).
      pose proof (Zdigits2_ge (m1 * 2 ^ s / m2) (Zdigits2 m1 + s - Zdigits2 m2 - 1) ltac:(lia)) as G.
      assert (2 ^ (Zdigits2 m1 + s - Zdigits2 m2 - 1) <= m1 * 2 ^ s / m2); [|lia].
      apply Z.div_le_lower_bound; [lia|].
      assert (A : m2 * 2 ^ (Zdigits2 m1 + s - Zdigits2 m2 - 1)
                  <= 2 ^ Zdigits2 m2 * 2 ^ (Zdigits2 m1 + s - Zdigits2 m2 - 1)).
      { apply Z.mul_le_mono_nonneg_r; [apply Z.lt_le_incl, pow2_pos|]; lia. }
      rewrite <- Z.pow_add_r in A by lia.
      replace (Zdigits2 m2 + (Zdigits2 m1 + s - Zdigits2 m2 - 1)) with (Zdigits2 m1 - 1 + s) in A by lia.
      rewrite Z.pow_add_r in A by lia.
      assert (2 ^ (Zdigits2 m1 - 1) * 2 ^ s <= m1 * 2 ^ s) by (apply Z.mul_le_mono_nonneg_r; lia).
      lia. }
    lia.
Qed.

(** A quotient of positive floats is monotone in the value of the
    fraction. *)
Lemma SFdiv_leb mx1 ex1 my1 ey1 mx2 ex2 my2 ey2 :
  let c := Z.min (ex1 + ey2) (ex2 + ey1) in
  Zpos mx1 * Zpos my2 * 2 ^ (ex1 + ey2 - c) <= Zpos mx2 * Zpos my1 * 2 ^ (ex2 + ey1 - c) ->
  SFleb (SFdiv prec emax (S754_finite false mx1 ex1) (S754_finite false my1 ey1))
        (SFdiv prec emax (S754_finite false mx2 ex2) (S754_finite false my2 ey2)) = true.
Proof.
  intros c Hle. rewrite !SFdiv_finite. cbn [xorb].
  pose proof (div_num_pos (Zpos mx1) ex1 (Zpos my1) ey1 ltac:(lia)) as HN1.
  pose proof (div_num_pos (Zpos mx2) ex2 (Zpos my2) ey2 ltac:(lia)) as HN2.
  apply rnd_leb; try lia; try (apply div_enough; lia).
  unfold div_num.
  set (e1 := div_exp (Zpos mx1) ex1 (Zpos my1) ey1).
  set (e2 := div_exp (Zpos mx2) ex2 (Zpos my2) ey2).
  assert (B1 : e1 <= ex1 - ey1) by (unfold e1, div_exp; lia).
  assert (B2 : e2 <= ex2 - ey2) by (unfold e2, div_exp; lia).
  subst c.
  remember (Z.min (ex1 + ey2) (ex2 + ey1)) as c eqn:Hc.
  remember (Z.min e1 e2) as b eqn:Hb.
  remember (c - ey1 - ey2 - b) as t eqn:Ht.
  assert (Ht0 : 0 <= t) by lia.
  assert (P1 : 2 ^ (e1 - b) * 2 ^ (ex1 - ey1 - e1) = 2 ^ (ex1 + ey2 - c) * 2 ^ t).
  { rewrite <- !Z.pow_add_r by lia. f_equal. lia. }
  assert (P2 : 2 ^ (e2 - b) * 2 ^ (ex2 - ey2 - e2) = 2 ^ (ex2 + ey1 - c) * 2 ^ t).
  { rewrite <- !Z.pow_add_r by lia. f_equal. lia. }
  replace (2 ^ (e1 - b) * (Zpos mx1 * 2 ^ (ex1 - ey1 - e1)) * Zpos my2)
    with (Zpos mx1 * Zpos my2 * (2 ^ (e1 - b) * 2 ^ (ex1 - ey1 - e1))) by ring.
  replace (2 ^ (e2 - b) * (Zpos mx2 * 2 ^ (ex2 - ey2 - e2)) * Zpos my1)
    with (Zpos mx2 * Zpos my1 * (2 ^ (e2 - b) * 2 ^ (ex2 - ey2 - e2))) by ring.
  rewrite P1, P2, !Z.mul_assoc.
  apply Z.mul_le_mono_nonneg_r; [apply Z.lt_le_incl, pow2_pos|]; assumption.
Qed.

Lemma scale_le a b x y z :
  0 <= z -> a * 2 ^ x <= b * 2 ^ y -> 0 <= x -> 0 <= y ->
  a * 2 ^ (x + z) <= b * 2 ^ (y + z).
Proof.
  intros Hz H Hx Hy. rewrite !Z.pow_add_r, !Z.mul_assoc by lia.
  apply Z.mul_le_mono_nonneg_r; [apply Z.lt_le_incl, pow2_pos|]; assumption.
Qed.

(** Division by a positive float is monotone on positive floats. *)
Lemma SFdiv_mono ma ea mb eb md ed :
  canon (Zpos ma) ea -> canon (Zpos mb) eb ->
  SFleb (S754_finite false ma ea) (S754_finite false mb eb) = true ->
  SFleb (SFdiv prec emax (S754_finite false ma ea) (S754_finite false md ed))
        (SFdiv prec emax (S754_finite false mb eb) (S754_finite false md ed)) = true.
Proof.
  intros Ca Cb Hle. pose proof (finite_leb_value ma ea mb eb Ca Cb Hle) as Hv.
  apply SFdiv_leb. cbv zeta.
  replace (Z.min (ea + ed) (eb + ed)) with (Z.min ea eb + ed) by lia.
  replace (ea + ed - (Z.min ea eb + ed)) with (ea - Z.min ea eb) by lia.
  replace (eb + ed - (Z.min ea eb + ed)) with (eb - Z.min ea eb) by lia.
  set (x := 2 ^ (ea - Z.min ea eb)) in *. set (y := 2 ^ (eb - Z.min ea eb)) in *.
  clearbody x y. nia.
Qed.


(** *** Rounded results are valid floats *)

Lemma pack_valid s M E : canon M E -> 0 <= M -> valid_binary (pack s M E) = true.
Proof.
  intros (H1 & H2 & H3) HM. unfold pack.
  destruct M as [|p|p]; [reflexivity| |lia].
  destruct (Z.leb_spec E (emax - prec)) as [Hb|Hb]; [|reflexivity].
  unfold valid_binary, SpecFloat.valid_binary, bounded, canonical_mantissa.
  change (fexp prec emax (Zpos (digits2_pos p) + E)) with (fx (Zdigits2 (Zpos p) + E)).
  apply andb_true_intro. split; [apply Z.eqb_eq|apply Z.leb_le; assumption].
  rewrite fx_eq. simpl Zdigits2 in *. lia.
Qed.

Lemma SFdiv_valid sx mx ex sy my ey :
  valid_binary (SFdiv prec emax (S754_finite sx mx ex) (S754_finite sy my ey)) = true.
Proof.
  rewrite SFdiv_finite.
  pose proof (div_num_pos (Zpos mx) ex (Zpos my) ey ltac:(lia)) as HN.
  pose proof (rnd_canon (div_num (Zpos mx) ex (Zpos my) ey) (Zpos my)
                (div_exp (Zpos mx) ex (Zpos my) ey) ltac:(lia) ltac:(lia)
                (div_enough (Zpos mx) ex (Zpos my) ey ltac:(lia) ltac:(lia))) as (C & _ & _ & P).
  apply pack_valid; assumption.
Qed.

(** A rounded result is not negative: it is at least zero. *)
Lemma pack_nonneg M E : 0 <= M -> SFleb (S754_zero false) (pack false M E) = true.
Proof.
  intros HM. unfold pack. destruct M as [|p|p]; [reflexivity| |lia].
  destruct (E <=? emax - prec); reflexivity.
Qed.

Lemma pack_le_infinity M E : 0 <= M -> SFleb (pack false M E) (S754_infinity false) = true.
Proof.
  intros HM. unfold pack. destruct M as [|p|p]; [reflexivity| |lia].
  destruct (E <=? emax - prec); reflexivity.
Qed.

(** *** Monotone operations on non-negative floats *)

Lemma rnd_fst_nonneg N D e : 0 <= N -> 0 < D -> 0 <= fst (rnd N D e).
Proof.
  intros HN HD. unfold rnd. cbn [fst].
  apply Z.div_pos; [apply rnd_mant_nonneg; assumption|apply pow2_pos, shift_of_nonneg].
Qed.

Lemma SFmul_finite_nonneg mx ex my ey :
  SFleb (S754_zero false)
    (SFmul prec emax (S754_finite false mx ex) (S754_finite false my ey)) = true /\
  SFleb (SFmul prec emax (S754_finite false mx ex) (S754_finite false my ey))
    (S754_infinity false) = true.
Proof.
  rewrite SFmul_finite. cbn [xorb].
  split; [apply pack_nonneg|apply pack_le_infinity]; apply rnd_fst_nonneg; lia.
Qed.

Lemma SFdiv_finite_nonneg mx ex my ey :
  SFleb (S754_zero false)
    (SFdiv prec emax (S754_finite false mx ex) (S754_finite false my ey)) = true /\
  SFleb (SFdiv prec emax (S754_finite false mx ex) (S754_finite false my ey))
    (S754_infinity false) = true.
Proof.
  rewrite SFdiv_finite. cbn [xorb].
  pose proof (div_num_pos (Zpos mx) ex (Zpos my) ey ltac:(lia)).
  split; [apply pack_nonneg|apply pack_le_infinity]; apply rnd_fst_nonneg; lia.
Qed.

Ltac canon_of H := apply valid_canon in H; destruct H as [H _].

(** [a <= b] gives [a * c <= b * c] for non-negative floats, unless a
    product is NaN. *)
Lemma SFmul_le_mono a b c :
  valid a -> valid b -> valid c -> nonneg a -> nonneg b -> nonneg c ->
  SFleb a b = true ->
  SFmul prec emax a c <> S754_nan -> SFmul prec emax b c <> S754_nan ->
  SFleb (SFmul prec emax a c) (SFmul prec emax b c) = true.
Proof.
  unfold valid.
  destruct a as [[]|[]| |[] ma ea]; try contradiction;
  destruct b as [[]|[]| |[] mb eb]; try contradiction;
  destruct c as [[]|[]| |[] mc ec]; try contradiction;
  intros Va Vb Vc _ _ _ Hle Ha Hb;
  try discriminate; try reflexivity; try (exfalso; apply Ha; reflexivity);
  try (exfalso; apply Hb; reflexivity);
  try (apply SFmul_finite_nonneg).
  canon_of Va. canon_of Vb. canon_of Vc.
  apply SFmul_mono; assumption.
Qed.

(** [a <= b] gives [a / d <= b / d] for non-negative floats and a positive
    divisor, unless a quotient is NaN. *)
Lemma SFdiv_le_mono a b d :
  valid a -> valid b -> nonneg a -> nonneg b -> positive_sf d ->
  SFleb a b = true ->
  SFdiv prec emax a d <> S754_nan -> SFdiv prec emax b d <> S754_nan ->
  SFleb (SFdiv prec emax a d) (SFdiv prec emax b d) = true.
Proof.
  unfold valid.
  destruct a as [[]|[]| |[] ma ea]; try contradiction;
  destruct b as [[]|[]| |[] mb eb]; try contradiction;
  destruct d as [[]|[]| |[] md ed]; try contradiction;
  intros Va Vb _ _ _ Hle Ha Hb;
  try discriminate; try reflexivity; try (exfalso; apply Ha; reflexivity);
  try (exfalso; apply Hb; reflexivity);
  try (apply SFdiv_finite_nonneg).
  canon_of Va. canon_of Vb.
  apply SFdiv_mono; assumption.
Qed.


(** Squaring is monotone on positive floats. *)
Lemma SFmul_square_mono a b :
  valid a -> valid b -> positive_sf a -> positive_sf b ->
  SFleb a b = true ->
  SFleb (SFmul prec emax a a) (SFmul prec emax b b) = true.
Proof.
  unfold valid.
  destruct a as [[]|[]| |[] ma ea]; try contradiction;
  destruct b as [[]|[]| |[] mb eb]; try contradiction;
  intros Va Vb _ _ Hle;
  try discriminate; try reflexivity; try (apply SFmul_finite_nonneg).
  canon_of Va. canon_of Vb.
  pose proof (finite_leb_value ma ea mb eb Va Vb Hle) as Hv.
  rewrite !SFmul_finite. cbn [xorb].
  apply rnd_leb; try lia; try (apply mul_enough; assumption).
  replace (Z.min (ea + ea) (eb + eb)) with (Z.min ea eb + Z.min ea eb) by lia.
  replace (ea + ea - (Z.min ea eb + Z.min ea eb))
    with ((ea - Z.min ea eb) + (ea - Z.min ea eb)) by lia.
  replace (eb + eb - (Z.min ea eb + Z.min ea eb))
    with ((eb - Z.min ea eb) + (eb - Z.min ea eb)) by lia.
  rewrite !Z.pow_add_r by lia.
  pose proof (pow2_pos (ea - Z.min ea eb) ltac:(lia)).
  pose proof (pow2_pos (eb - Z.min ea eb) ltac:(lia)).
  set (x := 2 ^ (ea - Z.min ea eb)) in *. set (y := 2 ^ (eb - Z.min ea eb)) in *.
  clearbody x y.
  assert (S : (Zpos ma * x) * (Zpos ma * x) <= (Zpos mb * y) * (Zpos mb * y)).
  { apply Z.mul_le_mono_nonneg; lia. }
  nia.
Qed.

Lemma SFmul_comm x y : SFmul prec emax x y = SFmul prec emax y x.
Proof.
  destruct x as [sx|sx| |sx mx ex], y as [sy|sy| |sy my ey]; simpl;
    rewrite ?(xorb_comm sx sy); trivial.
  rewrite (Pos.mul_comm mx my), (Z.add_comm ex ey). reflexivity.
Qed.

End Rounding.

Import Rounding.

(** ** The order of primitive floats *)

Module FloatOrder.

Lemma SFcompare_refl x : x <> S754_nan -> SFcompare x x = Some Eq.
Proof.
  destruct x as [s|s| |s m e]; simpl; try congruence.
  - destruct s; reflexivity.
  - intros _. rewrite Z.compare_refl.
    change (Pos.compare_cont Eq m m) with (Pos.compare m m).
    rewrite Pos.compare_refl. destruct s; reflexivity.
Qed.

Lemma isnan_spec x : isnan x = true <-> Prim2SF x = S754_nan.
Proof.
  unfold isnan, is_nan. rewrite FloatAxioms.eqb_spec. unfold SFeqb. split.
  - intros H. destruct (Prim2SF x) as [s|s| |s m e] eqn:E; trivial;
      rewrite SFcompare_refl in H by discriminate; discriminate.
  - intros ->. reflexivity.
Qed.

Lemma not_nan x : isnan x = false <-> Prim2SF x <> S754_nan.
Proof.
  rewrite <- isnan_spec. destruct (isnan x); split; congruence.
Qed.

Lemma Nonneg_intro x : Signed false x -> isnan x = false -> Nonneg x.
Proof.
  unfold Signed, Nonneg. rewrite not_nan.
  destruct (Prim2SF x) as [s|s| |s m e]; simpl; intros; subst; trivial; congruence.
Qed.

Lemma Nonneg_Signed x : Nonneg x -> Signed false x.
Proof.
  unfold Signed, Nonneg. destruct (Prim2SF x) as [[]|[]| |[] m e]; simpl; tauto.
Qed.

Lemma positive_Positive x : (0 <? x) = true -> Positive x.
Proof.
  unfold Positive. rewrite FloatAxioms.ltb_spec, Prim2SF_zero.
  destruct (Prim2SF x) as [[]|[]| |[] m e]; simpl; trivial; discriminate.
Qed.

Lemma Positive_positive x : Positive x -> (0 <? x) = true.
Proof.
  unfold Positive. rewrite FloatAxioms.ltb_spec, Prim2SF_zero.
  destruct (Prim2SF x) as [[]|[]| |[] m e]; simpl; trivial; contradiction.
Qed.

Lemma Positive_Nonneg x : Positive x -> Nonneg x.
Proof.
  unfold Positive, Nonneg. destruct (Prim2SF x) as [[]|[]| |[] m e]; simpl; trivial.
Qed.


(** A float above a positive float is positive. *)
Lemma Positive_leb x y : Positive x -> (x <=? y) = true -> Positive y.
Proof.
  unfold Positive. rewrite FloatAxioms.leb_spec.
  destruct (Prim2SF x) as [[]|[]| |[] mx ex]; try contradiction;
    destruct (Prim2SF y) as [[]|[]| |[] my ey]; simpl; trivial; discriminate.
Qed.

Lemma mul_not_nan x y : isnan (x * y) = false -> isnan x = false /\ isnan y = false.
Proof.
  rewrite !not_nan, FloatAxioms.mul_spec.
  destruct (Prim2SF x), (Prim2SF y); simpl; intros H; split; congruence.
Qed.

Lemma div_not_nan x y : isnan (x / y) = false -> isnan x = false /\ isnan y = false.
Proof.
  rewrite !not_nan, FloatAxioms.div_spec.
  destruct (Prim2SF x), (Prim2SF y); simpl; intros H; split; congruence.
Qed.

Lemma py_round_not_nan x n : isnan (py_round x n) = false -> isnan x = false.
Proof.
  intros H. destruct (isnan x) eqn:Hx; trivial.
  apply isnan_spec in Hx. unfold py_round in H. rewrite Hx in H.
  apply isnan_spec in Hx. congruence.
Qed.

Lemma mul_comm x y : x * y = y * x.
Proof.
  apply Prim2SF_inj. rewrite !FloatAxioms.mul_spec. apply SFmul_comm.
Qed.

Lemma mul_le_mono_r a b c :
  Nonneg a -> Nonneg b -> Nonneg c -> (a <=? b) = true ->
  isnan (a * c) = false -> isnan (b * c) = false ->
  (a * c <=? b * c) = true.
Proof.
  unfold Nonneg. rewrite !not_nan, !FloatAxioms.leb_spec, !FloatAxioms.mul_spec.
  intros. apply SFmul_le_mono; trivial; apply Prim2SF_valid.
Qed.

Lemma mul_le_mono_l a b c :
  Nonneg a -> Nonneg b -> Nonneg c -> (a <=? b) = true ->
  isnan (c * a) = false -> isnan (c * b) = false ->
  (c * a <=? c * b) = true.
Proof.
  rewrite !(mul_comm c). apply mul_le_mono_r.
Qed.

Lemma div_le_mono a b d :
  Nonneg a -> Nonneg b -> Positive d -> (a <=? b) = true ->
  isnan (a / d) = false -> isnan (b / d) = false ->
  (a / d <=? b / d) = true.
Proof.
  unfold Nonneg, Positive. rewrite !not_nan, !FloatAxioms.leb_spec, !FloatAxioms.div_spec.
  intros. apply SFdiv_le_mono; trivial; apply Prim2SF_valid.
Qed.


Lemma square_le_mono a b :
  Positive a -> Positive b -> (a <=? b) = true -> (a * a <=? b * b) = true.
Proof.
  unfold Positive. rewrite !FloatAxioms.leb_spec, !FloatAxioms.mul_spec.
  intros. apply SFmul_square_mono; trivial; apply Prim2SF_valid.
Qed.

(** A non-zero float that is not negative is positive. *)
Lemma Nonneg_nonzero_Positive x : Nonneg x -> (x =? 0) = false -> Positive x.
Proof.
  unfold Nonneg, Positive. rewrite FloatAxioms.eqb_spec, Prim2SF_zero.
  destruct (Prim2SF x) as [[]|[]| |[] m e]; simpl; trivial; discriminate.
Qed.

(** *** Rounding to decimals *)

Lemma scaled_decimal_eq m e p10 :
  scaled_decimal m e p10
  = round_half_even (Zpos m * p10 * 2 ^ Z.max e 0) (2 ^ Z.max (- e) 0).
Proof.
  unfold scaled_decimal. destruct (Z.leb_spec 0 e).
  - rewrite (Z.max_l e 0), (Z.max_r (- e) 0) by lia.
    rewrite Z.pow_0_r, round_half_even_exact. ring.
  - rewrite (Z.max_r e 0), (Z.max_l (- e) 0) by lia.
    rewrite Z.pow_0_r, Z.mul_1_r. reflexivity.
Qed.

Lemma scaled_decimal_nonneg m e p10 : (0 < p10)%Z -> (0 <= scaled_decimal m e p10)%Z.
Proof.
  intros Hp. rewrite scaled_decimal_eq.
  apply round_half_even_nonneg; [|apply pow2_pos; lia].
  apply Z.mul_nonneg_nonneg; [lia|apply Z.lt_le_incl, pow2_pos; lia].
Qed.

Lemma scaled_decimal_mono m1 e1 m2 e2 p10 :
  (0 < p10)%Z ->
  (Zpos m1 * 2 ^ (e1 - Z.min e1 e2) <= Zpos m2 * 2 ^ (e2 - Z.min e1 e2))%Z ->
  (scaled_decimal m1 e1 p10 <= scaled_decimal m2 e2 p10)%Z.
Proof.
  intros Hp Hv. rewrite !scaled_decimal_eq.
  apply round_half_even_mono; try (apply pow2_pos; lia).
  remember (Z.min e1 e2) as b eqn:Hb.
  remember (Z.max (- e1) 0 + Z.max (- e2) 0 + b)%Z as t eqn:Ht.
  assert (Ht0 : (0 <= t)%Z) by lia.
  assert (P1 : (2 ^ Z.max e1 0 * 2 ^ Z.max (- e2) 0 = 2 ^ (e1 - b) * 2 ^ t)%Z).
  { rewrite <- !Z.pow_add_r by lia. f_equal. lia. }
  assert (P2 : (2 ^ Z.max e2 0 * 2 ^ Z.max (- e1) 0 = 2 ^ (e2 - b) * 2 ^ t)%Z).
  { rewrite <- !Z.pow_add_r by lia. f_equal. lia. }
  replace (Zpos m1 * p10 * 2 ^ Z.max e1 0 * 2 ^ Z.max (- e2) 0)%Z
    with (Zpos m1 * (2 ^ Z.max e1 0 * 2 ^ Z.max (- e2) 0) * p10)%Z by ring.
  replace (Zpos m2 * p10 * 2 ^ Z.max e2 0 * 2 ^ Z.max (- e1) 0)%Z
    with (Zpos m2 * (2 ^ Z.max e2 0 * 2 ^ Z.max (- e1) 0) * p10)%Z by ring.
  rewrite P1, P2, !Z.mul_assoc.
  apply Z.mul_le_mono_nonneg_r; [lia|].
  apply Z.mul_le_mono_nonneg_r; [apply Z.lt_le_incl, pow2_pos; lia|]. assumption.
Qed.

Lemma py_round_finite x n m e :
  Prim2SF x = S754_finite false m e ->
  Prim2SF (py_round x n)
  = decimal_float (scaled_decimal m e (10 ^ Z.of_N n)) (10 ^ Z.of_N n).
Proof.
  intros Hx. unfold py_round. rewrite Hx. cbv zeta.
  fold (scaled_decimal m e (10 ^ Z.of_N n)).
  unfold decimal_float.
  destruct (scaled_decimal m e (10 ^ Z.of_N n)) as [|k|k]; try reflexivity.
  apply Prim2SF_SF2Prim, SFdiv_valid.
Qed.

Lemma decimal_float_mono k1 k2 p10 :
  (0 <= k1 <= k2)%Z ->
  SFleb (decimal_float k1 p10) (decimal_float k2 p10) = true.
Proof.
  intros [H1 H2]. unfold decimal_float.
  destruct k1 as [|k1|k1]; [|clear H1|lia].
  - destruct k2 as [|k2|k2]; try reflexivity. apply SFdiv_finite_nonneg.
  - destruct k2 as [|k2|k2]; try lia.
    apply SFdiv_leb. cbv zeta. simpl Z.min. simpl Z.sub. rewrite Z.pow_0_r. nia.
Qed.

Lemma decimal_float_nonneg k p10 :
  SFleb (S754_zero false) (decimal_float k p10) = true /\
  SFleb (decimal_float k p10) (S754_infinity false) = true.
Proof.
  unfold decimal_float. destruct k; try (split; reflexivity). apply SFdiv_finite_nonneg.
Qed.

(** [round(x, n)] is monotone on non-negative floats. *)
Lemma py_round_mono x1 x2 n :
  Nonneg x1 -> Nonneg x2 -> (x1 <=? x2) = true ->
  (py_round x1 n <=? py_round x2 n) = true.
Proof.
  unfold Nonneg. intros N1 N2 Hle.
  assert (Hp : (0 < 10 ^ Z.of_N n)%Z) by (apply Z.pow_pos_nonneg; lia).
  pose proof (Prim2SF_valid x1) as V1. pose proof (Prim2SF_valid x2) as V2.
  rewrite FloatAxioms.leb_spec in *.
  destruct (Prim2SF x1) as [[]|[]| |[] m1 e1] eqn:E1; try contradiction;
    destruct (Prim2SF x2) as [[]|[]| |[] m2 e2] eqn:E2; try contradiction;
    try discriminate;
    try rewrite (py_round_finite x1 n m1 e1 E1);
    try rewrite (py_round_finite x2 n m2 e2 E2);
    try (unfold py_round; rewrite ?E1, ?E2);
    try reflexivity; try apply decimal_float_nonneg.
  apply valid_canon in V1 as [C1 _]. apply valid_canon in V2 as [C2 _].
  apply decimal_float_mono. split; [apply scaled_decimal_nonneg; assumption|].
  apply scaled_decimal_mono; [assumption|].
  apply finite_leb_value; assumption.
Qed.

(** *** The square of the effective length *)

Lemma shl_align_enough m e :
  enough (Zpos m) 1 e ->
  shl_align m e (fexp prec emax (Zpos (digits2_pos m) + e)) = (m, e).
Proof.
  unfold enough. rewrite Z.div_1_r. intros H. unfold shl_align.
  change (fexp prec emax (Zpos (digits2_pos m) + e)) with (fx (Zdigits2 (Zpos m) + e)).
  destruct (fx (Zdigits2 (Zpos m) + e) - e)%Z eqn:E; try reflexivity. lia.
Qed.

(** The correctly rounded square is the floating-point product. *)
Lemma nearest_pow_2 x m e :
  Prim2SF x = S754_finite false m e -> nearest_pow x 2 = x * x.
Proof.
  intros Hx. unfold nearest_pow. rewrite Hx.
  pose proof (Prim2SF_valid x) as V. rewrite Hx in V. apply valid_canon in V as [C _].
  replace (Pos.pow m 2) with (m * m)%positive
    by (unfold Pos.pow; simpl; rewrite Pos.mul_1_r; reflexivity).
  replace (e * 2)%Z with (e + e)%Z by lia.
  unfold binary_normalize, binary_round.
  rewrite shl_align_enough by (rewrite Pos2Z.inj_mul; apply mul_enough; assumption).
  change (binary_round_aux prec emax false (Zpos (m * m)) (e + e) loc_Exact)
    with (SFmul prec emax (S754_finite false m e) (S754_finite false m e)).
  rewrite <- Hx, <- FloatAxioms.mul_spec. apply SF2Prim_Prim2SF.
Qed.

Lemma eqb_finite_eq x y :
  (x =? y) = true -> (exists s m e, Prim2SF y = S754_finite s m e) -> x = y.
Proof.
  rewrite FloatAxioms.eqb_spec. intros H (s & m & e & Hy). apply Prim2SF_inj.
  rewrite Hy in *. unfold SFeqb, SFcompare in H.
  destruct (Prim2SF x) as [sx|sx| |sx mx ex]; try discriminate;
    try (destruct sx; discriminate); try (destruct s; discriminate).
  destruct sx, s; try discriminate;
    destruct (Z.compare_spec ex e); try discriminate; subst;
    change (Pos.compare_cont Eq mx m) with (Pos.compare mx m) in H;
    destruct (Pos.compare_spec mx m); try discriminate; subst; reflexivity.
Qed.

(** With the correctly rounding library, [Le ** 2] is [Le * Le] for a
    positive effective length, when it returns. *)
Lemma float_pow_2_square x d :
  Positive x -> float_pow (libm := correctly_rounded) x 2 = inr d -> d = x * x.
Proof.
  intros Hpos. pose proof (Positive_positive x Hpos) as Hgt.
  pose proof (positive_Signed x Hgt) as Hs.
  unfold Positive in Hpos.
  unfold float_pow. rewrite (Signed_false_not_negative x Hs). simpl.
  destruct (is_nan x) eqn:Hn.
  { apply isnan_spec in Hn. rewrite Hn in Hpos. contradiction. }
  destruct (is_infinity x) eqn:Hi.
  { intros [= <-]. unfold is_infinity in Hi.
    rewrite FloatAxioms.eqb_spec, FloatAxioms.abs_spec in Hi.
    apply Prim2SF_inj. rewrite FloatAxioms.abs_spec, FloatAxioms.mul_spec.
    destruct (Prim2SF x) as [[]|[]| |[] m e]; try contradiction; try discriminate.
    reflexivity. }
  destruct (x =? 0) eqn:Hz.
  { assert (Hsym : (x =? 0) = (0 =? x)).
    { rewrite !FloatAxioms.eqb_spec, Prim2SF_zero.
      destruct (Prim2SF x) as [[]|[]| |[] m e]; reflexivity. }
    rewrite Hsym, (ltb_eqb 0 x Hgt) in Hz. discriminate. }
  destruct (x =? 1) eqn:H1.
  { intros [= <-]. apply eqb_finite_eq in H1.
    - subst x. reflexivity.
    - eexists _, _, _. reflexivity. }
  change (libm_pow x 2) with (nearest_pow x 2).
  destruct (is_infinity (nearest_pow x 2)); [discriminate|].
  intros [= <-].
  unfold is_infinity in Hi. rewrite FloatAxioms.eqb_spec, FloatAxioms.abs_spec in Hi.
  destruct (Prim2SF x) as [[]|[]| |[] m e] eqn:Hx; try contradiction; try discriminate.
  apply (nearest_pow_2 x m e Hx).
Qed.

(** *** Twice a positive length is positive *)

Lemma rnd_fst_pos N D e :
  (0 <= N)%Z -> (0 < D)%Z -> enough N D e ->
  (shift_of (N / D) e < Zdigits2 (N / D))%Z ->
  (0 < fst (rnd N D e))%Z.
Proof.
  intros HN HD He Hs.
  pose proof (rnd_canon N D e HN HD He) as (_ & HE & HM & H0). cbv zeta in *.
  pose proof (rnd_mant_bounds N D e HD) as [Hlo _].
  pose proof (Z.div_pos N D HN HD) as Hq.
  pose proof (shift_of_nonneg (N / D) e) as Hn.
  assert (Hq0 : (N / D <> 0)%Z).
  { intros Hz. rewrite Hz in Hs, Hn. simpl in Hs. lia. }
  pose proof (Zdigits2_bounds (N / D) ltac:(lia)) as [Hb _].
  assert (Ht : (1 <= N / D / 2 ^ shift_of (N / D) e)%Z).
  { apply Z.div_le_lower_bound; [apply pow2_pos; assumption|].
    rewrite Z.mul_1_r.
    assert ((2 ^ shift_of (N / D) e <= 2 ^ (Zdigits2 (N / D) - 1))%Z)
      by (apply Z.pow_le_mono_r; lia).
    lia. }
  destruct (Z.eq_dec (fst (rnd N D e)) 0) as [Hz|]; [|lia].
  rewrite Hz in HM. lia.
Qed.

Lemma two_mul_Positive L : Positive L -> Positive (2 * L).
Proof.
  unfold Positive. rewrite FloatAxioms.mul_spec.
  pose proof (Prim2SF_valid L) as V.
  change (Prim2SF 2) with (S754_finite false 4503599627370496 (-51)).
  destruct (Prim2SF L) as [[]|[]| |[] m e]; try contradiction; intros _; [exact I|].
  apply valid_canon in V as [C _].
  rewrite SFmul_finite. cbn [xorb].
  assert (Hc2 : canon (Zpos 4503599627370496) (-51)).
  { unfold canon. simpl. lia. }
  pose proof (mul_enough _ _ _ _ Hc2 C) as He.
  assert (Hpos : (0 < fst (rnd (Zpos 4503599627370496 * Zpos m) 1 (-51 + e)))%Z).
  { apply rnd_fst_pos; try lia; [exact He|].
    rewrite (shift_of_enough _ _ _ He), !Z.div_1_r.
    change (Zpos 4503599627370496) with (2 ^ 52)%Z.
    rewrite (Z.mul_comm (2 ^ 52)), Zdigits2_shift by lia.
    destruct C as (C1 & C2 & C3). pose proof (Zdigits2_pos (Zpos m) ltac:(lia)).
    rewrite fx_eq. lia. }
  unfold pack. destruct (fst (rnd _ 1 (-51 + e))) as [|p|p]; try lia.
  destruct (Z.leb _ _); exact I.
Qed.

End FloatOrder.

Import FloatOrder.

(** ** The Euler load is monotone *)

Lemma critical_load_inv {libm : Libm} E I L r :
  critical_load_kN E I L = inr r ->
  (valid_guard E I (2 * L) = false /\ r = 0) \/
  (valid_guard E I (2 * L) = true /\
   exists d, float_pow (2 * L) 2 = inr d /\ (d =? 0) = false /\
             r = load_of (9.869604401089358 * E * I) d).
Proof.
  destruct (valid_guard E I (2 * L)) eqn:Hg.
  - rewrite (critical_load_guard_holds _ _ _ Hg).
    destruct (float_pow (2 * L) 2) as [e|d]; [discriminate|]. simpl.
    unfold float_div. destruct (d =? 0) eqn:Hz; [discriminate|]. simpl.
    intros [= <-]. right. split; trivial. exists d. repeat split; trivial.
  - rewrite (critical_load_guard_fails _ _ _ Hg). intros [= <-]. left. split; trivial.
Qed.

Lemma Positive_1000 : Positive 1000.
Proof. exact I. Qed.

Lemma load_of_not_nan y d :
  isnan (load_of y d) = false ->
  isnan (y / d / 1000) = false /\ isnan (y / d) = false /\ isnan y = false /\ isnan d = false.
Proof.
  intros H. apply py_round_not_nan in H.
  destruct (div_not_nan _ _ H) as [H1 _]. destruct (div_not_nan _ _ H1). auto.
Qed.

Lemma load_mono_num y1 y2 d :
  Nonneg y1 -> Nonneg y2 -> Positive d -> (y1 <=? y2) = true ->
  isnan (load_of y1 d) = false -> isnan (load_of y2 d) = false ->
  (load_of y1 d <=? load_of y2 d) = true.
Proof.
  intros N1 N2 Pd Hle H1 H2.
  destruct (load_of_not_nan _ _ H1) as (K1 & P1 & _ & _).
  destruct (load_of_not_nan _ _ H2) as (K2 & P2 & _ & _).
  pose proof (Positive_Nonneg d Pd) as Nd.
  assert (NP1 : Nonneg (y1 / d)).
  { apply Nonneg_intro; trivial. apply (div_Signed false false); apply Nonneg_Signed; trivial. }
  assert (NP2 : Nonneg (y2 / d)).
  { apply Nonneg_intro; trivial. apply (div_Signed false false); apply Nonneg_Signed; trivial. }
  assert (NK1 : Nonneg (y1 / d / 1000)).
  { apply Nonneg_intro; trivial.
    apply (div_Signed false false); [apply Nonneg_Signed; trivial|reflexivity]. }
  assert (NK2 : Nonneg (y2 / d / 1000)).
  { apply Nonneg_intro; trivial.
    apply (div_Signed false false); [apply Nonneg_Signed; trivial|reflexivity]. }
  apply py_round_mono; trivial.
  apply div_le_mono; trivial; [apply Positive_1000|].
  apply div_le_mono; trivial.
Qed.


Lemma Positive_not_nan x : Positive x -> isnan x = false.
Proof.
  unfold Positive. intros H. apply not_nan. intros Hc. rewrite Hc in H. exact H.
Qed.

Lemma valid_guard_inv E I Le :
  valid_guard E I Le = true -> Positive E /\ Positive I /\ Positive Le.
Proof.
  unfold valid_guard. intros H.
  apply andb_prop in H as [H HLe]. apply andb_prop in H as [HE HI].
  repeat split; apply positive_Positive; assumption.
Qed.

Lemma valid_guard_intro E I Le :
  Positive E -> Positive I -> Positive Le -> valid_guard E I Le = true.
Proof.
  intros HE HI HLe. unfold valid_guard.
  rewrite !Positive_positive by assumption. reflexivity.
Qed.

Lemma Nonneg_pi_squared : Nonneg 9.869604401089358.
Proof. exact I. Qed.

(** The numerator [pi**2 * E * I] is not negative when it is a number. *)
Lemma numerator_Nonneg E I :
  Positive E -> Positive I -> isnan (9.869604401089358 * E * I) = false ->
  Nonneg (9.869604401089358 * E) /\ Nonneg (9.869604401089358 * E * I).
Proof.
  intros HE HI Hn. destruct (mul_not_nan _ _ Hn) as [Hn1 _].
  assert (S1 : Signed false (9.869604401089358 * E)).
  { apply (mul_Signed false false); [reflexivity|apply Nonneg_Signed, Positive_Nonneg, HE]. }
  split; apply Nonneg_intro; trivial.
  apply (mul_Signed false false); [exact S1|apply Nonneg_Signed, Positive_Nonneg, HI].
Qed.

Lemma result_nonneg {libm : Libm} E I L r :
  critical_load_kN E I L = inr r -> isnan r = false -> (0 <=? r) = true.
Proof.
  intros H Hn. destruct (Signed_false_nonneg r (critical_load_Signed E I L r H)); congruence.
Qed.

(** The square of a positive effective length is positive when it is a
    number that divides. *)
Lemma squared_length_Positive {libm : Libm} x d :
  (0 <? x) = true -> float_pow x 2 = inr d -> (d =? 0) = false -> isnan d = false ->
  Positive d.
Proof.
  intros Hx Hd Hz Hn. apply Nonneg_nonzero_Positive; trivial. apply Nonneg_intro; trivial.
  apply not_negative_nonzero_Signed; trivial. apply (float_pow_not_negative x 2 d Hx Hd).
Qed.

Section Monotone.
Context {libm : Libm}.
Variables (r1 r2 : float).
Hypothesis Hn1 : isnan r1 = false.
Hypothesis Hn2 : isnan r2 = false.

Lemma critical_load_mono_E E1 E2 I L :
  (E1 <=? E2) = true ->
  critical_load_kN E1 I L = inr r1 -> critical_load_kN E2 I L = inr r2 ->
  (r1 <=? r2) = true.
Proof.
  intros Hle H1 H2.
  destruct (critical_load_inv _ _ _ _ H1) as [[G1 ->]|(G1 & d1 & Hd1 & Hz1 & E1')].
  { apply (result_nonneg _ _ _ _ H2 Hn2). }
  destruct (valid_guard_inv _ _ _ G1) as (PE1 & PI & PLe).
  pose proof (Positive_leb _ _ PE1 Hle) as PE2.
  destruct (critical_load_inv _ _ _ _ H2) as [[G2 _]|(G2 & d2 & Hd2 & Hz2 & E2')].
  { rewrite (valid_guard_intro _ _ _ PE2 PI PLe) in G2. discriminate. }
  rewrite Hd1 in Hd2. injection Hd2 as <-. subst r1 r2.
  destruct (load_of_not_nan _ _ Hn1) as (_ & _ & Y1 & D1).
  destruct (load_of_not_nan _ _ Hn2) as (_ & _ & Y2 & _).
  destruct (numerator_Nonneg E1 I PE1 PI Y1) as [X1 NY1].
  destruct (numerator_Nonneg E2 I PE2 PI Y2) as [X2 NY2].
  assert (Pd : Positive d1).
  { apply (squared_length_Positive (2 * L) d1); trivial. apply Positive_positive, PLe. }
  apply load_mono_num; trivial.
  apply mul_le_mono_r; trivial; [apply Positive_Nonneg, PI|].
  destruct (mul_not_nan _ _ Y1) as [Z1 _]. destruct (mul_not_nan _ _ Y2) as [Z2 _].
  apply mul_le_mono_l; trivial; try (apply Positive_Nonneg; assumption).
  apply Nonneg_pi_squared.
Qed.



End Monotone.

(** *** The order of the squares is needed *)

(** A C library whose [pow] is rounded to nearest except at one square, where
    it returns the float above, still within one unit in the last place of
    the exact square. *)
Definition last_place_pow (iv : float) (n : positive) : float :=
  if (iv =? 0x1.fa0715330e889p-533) && Pos.eqb n 2 then next_up (nearest_pow iv n)
  else nearest_pow iv n.

Lemma last_place_pow_pi_2 : last_place_pow pi 2 = 9.869604401089358.
Proof. vm_compute. reflexivity. Qed.

Lemma last_place_pow_not_negative iv n :
  (0 <? iv) = true -> (last_place_pow iv n <? 0) = false.
Proof.
  intros H. unfold last_place_pow.
  destruct (iv =? 0x1.fa0715330e889p-533) eqn:Hx; [|apply nearest_pow_not_negative, H].
  destruct (Pos.eqb_spec n 2) as [->|]; [|apply nearest_pow_not_negative, H].
  apply eqb_finite_eq in Hx; [|eexists _, _, _; reflexivity].
  subst iv. vm_compute. reflexivity.
Qed.

Definition last_place : Libm :=
  {| libm_pow := last_place_pow;
     libm_pow_pi_2 := last_place_pow_pi_2;
     libm_pow_not_negative := last_place_pow_not_negative |}.

(** With that library the load grows between two adjacent lengths, because
    the squares of the effective lengths come out in the opposite order. *)
Lemma length_order_needs_ordered_squares :
  let L1 := 0x1.fa0715330e889p-534 in
  let L2 := 0x1.fa0715330e88ap-534 in
  (0 <? L1) = true /\ (L1 <=? L2) = true /\
  float_pow (libm := last_place) (2 * L1) 2 = inr 0x0.00000000003e9p-1022 /\
  float_pow (libm := last_place) (2 * L2) 2 = inr 0x0.00000000003e8p-1022 /\
  float_pow (libm := correctly_rounded) (2 * L1) 2 = inr 0x0.00000000003e8p-1022 /\
  critical_load_kN (libm := last_place) 1e-7 1e-7 L1 = inr 0x1.d19cffb7e3e24p+1010 /\
  critical_load_kN (libm := last_place) 1e-7 1e-7 L2 = inr 0x1.d214322668f9cp+1010 /\
  (0x1.d214322668f9cp+1010 <=? 0x1.d19cffb7e3e24p+1010) = false.
Proof. repeat split; vm_compute; reflexivity. Qed.

(** ** The request handler *)

Section Handler.
Context {libm : Libm}.
Variable data : BucklingInput.

Let row : list float :=
  features data (resolve_modulus data.(Material) data.(Youngs_Modulus_GPa) * 1000).

Lemma predict_body_model_raises (predict : predictor) e :
  predict row = inl e -> predict_body (Some predict) data = inl e.
Proof. intros H. unfold predict_body. fold row. rewrite H. reflexivity. Qed.

Lemma predict_body_formula_raises_None e :
  formula_buckling data = inl e -> predict_body None data = inl e.
Proof. intros H. unfold predict_body. rewrite H. reflexivity. Qed.

Lemma predict_body_formula_raises (predict : predictor) p e :
  predict row = inr p -> formula_buckling data = inl e ->
  predict_body (Some predict) data = inl e.
Proof.
  intros Hp H. unfold predict_body. fold row. rewrite Hp, H. simpl.
  destruct (model_output_invalid p); simpl; trivial.
  destruct ((p =? 0) || isnan p); reflexivity.
Qed.

Lemma predict_body_formula_returns_None r :
  formula_buckling data = inr r -> predict_body None data = inr (r * 1.01).
Proof.
  intros H. unfold predict_body. rewrite H. simpl.
  destruct ((r =? 0) || isnan r); simpl; rewrite ?H; reflexivity.
Qed.

Lemma predict_body_formula_returns (predict : predictor) p r :
  predict row = inr p -> formula_buckling data = inr r ->
  predict_body (Some predict) data = inr (r * 1.01).
Proof.
  intros Hp H. unfold predict_body. fold row. rewrite Hp, H. simpl.
  destruct (model_output_invalid p); simpl.
  - destruct ((r =? 0) || isnan r); simpl; rewrite ?H; reflexivity.
  - destruct ((p =? 0) || isnan p); simpl; rewrite ?H; reflexivity.
Qed.

Lemma predict_buckling_returns model r :
  model_returns model data -> formula_buckling data = inr r ->
  predict_buckling model data = success_response (r * 1.01).
Proof.
  intros Hm H. unfold predict_buckling.
  destruct model as [predict|].
  - destruct Hm as [p Hp]. rewrite (predict_body_formula_returns _ _ _ Hp H). reflexivity.
  - rewrite (predict_body_formula_returns_None _ H). reflexivity.
Qed.

Lemma predict_buckling_raises model e :
  model_returns model data -> formula_buckling data = inl e ->
  predict_buckling model data = error_response e.
Proof.
  intros Hm H. unfold predict_buckling. destruct model as [predict|].
  - destruct Hm as [p Hp]. rewrite (predict_body_formula_raises _ _ _ Hp H). reflexivity.
  - rewrite (predict_body_formula_raises_None _ H). reflexivity.
Qed.

Lemma predict_body_inr model v :
  predict_body model data = inr v ->
  exists r, formula_buckling data = inr r /\ v = r * 1.01.
Proof.
  unfold predict_body.
  destruct (formula_buckling data) as [e|r] eqn:H.
  - destruct model as [predict|]; simpl.
    + destruct (predict _) as [e'|p]; simpl; try discriminate.
      destruct (model_output_invalid p); simpl; try discriminate.
      destruct ((p =? 0) || isnan p); discriminate.
    + discriminate.
  - intros Hv. exists r. split; trivial. unfold ret in Hv.
    destruct model as [predict|]; simpl in Hv.
    + destruct (predict _) as [e'|p]; simpl in Hv; try discriminate.
      destruct (model_output_invalid p); simpl in Hv.
      * destruct ((r =? 0) || isnan r); simpl in Hv; congruence.
      * destruct ((p =? 0) || isnan p); simpl in Hv; congruence.
    + destruct ((r =? 0) || isnan r); simpl in Hv; congruence.
Qed.

Lemma success_response_inv model v :
  predict_buckling model data = success_response v -> predict_body model data = inr v.
Proof.
  unfold predict_buckling. destruct (predict_body model data); [discriminate|].
  intros [= ->]. reflexivity.
Qed.

End Handler.

(** ** The powers of the shape table *)

(** What the tests of [float_pow] answer on each class of floats. *)
Lemma float_class x :
  match Prim2SF x with
  | S754_nan => PrimFloat.is_nan x = true /\ PrimFloat.is_infinity x = false
  | S754_infinity s =>
      PrimFloat.is_nan x = false /\ PrimFloat.is_infinity x = true /\
      PrimFloat.is_infinity (abs x) = true
  | S754_zero s =>
      PrimFloat.is_nan x = false /\ PrimFloat.is_infinity x = false /\
      (x =? 0) = true /\ abs x = 0
  | S754_finite s m e =>
      PrimFloat.is_nan x = false /\ PrimFloat.is_infinity x = false /\
      (x =? 0) = false /\ (x <? 0) = s /\ abs x = (if s then - x else x)
  end.
Proof.
  unfold PrimFloat.is_nan, PrimFloat.is_infinity.
  rewrite !FloatAxioms.eqb_spec, FloatAxioms.ltb_spec, !FloatAxioms.abs_spec, Prim2SF_zero.
  destruct (Prim2SF x) as [s|s| |s m e] eqn:Hx; simpl.
  - repeat split; try (destruct s; reflexivity).
    apply Prim2SF_inj. rewrite FloatAxioms.abs_spec, Hx. reflexivity.
  - repeat split; destruct s; reflexivity.
  - split; reflexivity.
  - unfold SFeqb, SFltb, SFcompare. rewrite Z.compare_refl, Pos.compare_cont_refl.
    repeat split; try (destruct s; reflexivity).
    apply Prim2SF_inj. rewrite FloatAxioms.abs_spec, Hx.
    destruct s; [rewrite FloatAxioms.opp_spec|]; rewrite Hx; reflexivity.
Qed.

Lemma is_infinity_opp y : PrimFloat.is_infinity (- y) = PrimFloat.is_infinity y.
Proof.
  unfold PrimFloat.is_infinity.
  rewrite !FloatAxioms.eqb_spec, !FloatAxioms.abs_spec, FloatAxioms.opp_spec.
  destruct (Prim2SF y); reflexivity.
Qed.

(** [x ** n] is the power of the table, unless that is infinite for a finite
    [x]: then it raises. *)
Lemma float_pow_power {libm : Libm} x n :
  float_pow x n =
  if power_overflows (x, n) then raise (OverflowError errno_range) else ret (power x n).
Proof.
  unfold power_overflows, float_pow, power. simpl fst. simpl snd.
  pose proof (float_class x) as C.
  destruct (Prim2SF x) as [s|s| |s m e].
  - destruct C as (-> & Hi & -> & ->). rewrite Hi. simpl.
    destruct (is_odd_integer n); [rewrite Hi; reflexivity|reflexivity].
  - destruct C as (-> & -> & _). reflexivity.
  - destruct C as (-> & ->). reflexivity.
  - destruct C as (-> & -> & -> & -> & ->). simpl.
    set (iv := if s then - x else x).
    destruct (iv =? 1).
    + destruct (s && is_odd_integer n); reflexivity.
    + destruct (s && is_odd_integer n); rewrite ?is_infinity_opp;
        destruct (PrimFloat.is_infinity (libm_pow iv n)); reflexivity.
Qed.

Lemma float_pow_raises {libm : Libm} x n e :
  float_pow x n = inl e -> e = OverflowError errno_range.
Proof.
  rewrite float_pow_power. destruct (power_overflows (x, n)); [|discriminate].
  intros [= <-]. reflexivity.
Qed.

(** The [if]/[elif] chain of the code is the table, unless a power of its
    row overflows. *)
Lemma second_moment_of_area_table {libm : Libm} name b t do_ di_ d :
  second_moment_of_area name b t do_ di_ d =
  if existsb power_overflows (row_powers (shape_of_name name) b t do_ di_ d)
  then raise (OverflowError errno_range)
  else ret (shape_table (shape_of_name name) b t do_ di_ d).
Proof.
  unfold second_moment_of_area, shape_of_name.
  repeat match goal with
         | |- context [String.eqb name ?k] => destruct (String.eqb name k)
         end;
    unfold row_powers, shape_table;
    repeat match goal with
           | |- context [if ?c <? ?c' then _ else _] => destruct (c <? c')
           end;
    rewrite ?float_pow_power; simpl existsb;
    repeat match goal with
           | |- context [power_overflows ?xn] => destruct (power_overflows xn)
           end; reflexivity.
Qed.

Lemma second_moment_of_area_raises {libm : Libm} name b t do_ di_ d e :
  second_moment_of_area name b t do_ di_ d = inl e -> e = OverflowError errno_range.
Proof.
  rewrite second_moment_of_area_table. destruct (existsb _ _); [|discriminate].
  intros [= <-]. reflexivity.
Qed.

(** The only exceptions of the Euler formula, with their messages. *)
Lemma formula_buckling_raises_only {libm : Libm} data e :
  formula_buckling data = inl e ->
  e = OverflowError "(34, 'Numerical result out of range')" \/
  e = ZeroDivisionError "float division by zero".
Proof.
  rewrite formula_buckling_unfold. unfold second_moment_of.
  destruct (second_moment_of_area _ _ _ _ _ _) as [e'|I] eqn:HI; simpl.
  - intros [= <-]. left. apply (second_moment_of_area_raises _ _ _ _ _ _ _ HI).
  - destruct (valid_guard (E_MPa_of data) I (2 * Length_mm data)) eqn:Hg.
    + rewrite (critical_load_guard_holds _ _ _ Hg).
      destruct (float_pow (2 * Length_mm data) 2) as [e'|Le2] eqn:Hp; simpl.
      * intros [= <-]. left. apply (float_pow_raises _ _ _ Hp).
      * unfold float_div. destruct (Le2 =? 0); [|discriminate].
        intros [= <-]. right. reflexivity.
    + rewrite (critical_load_guard_fails _ _ _ Hg). discriminate.
Qed.

(** ** The claims *)

(** C1 — Whenever the prediction endpoint answers with a success value, that
    value is the Euler-formula result for the same input multiplied by 1.01,
    whether or not a model is present and whatever the model predicted. *)
Theorem success_value_is_formula_uplift {libm : Libm}
    (model : option predictor) (data : BucklingInput) (v : float) :
  predict_buckling model data = success_response v ->
  exists r, formula_buckling data = inr r /\ v = r * 1.01.
Proof.
  unfold predict_buckling.
  destruct (predict_body model data) as [e|v'] eqn:Hb.
  - discriminate.
  - intros Hv. injection Hv as ->. apply (predict_body_inr data model v Hb).
Qed.

Lemma success_value_is_formula_uplift_witness :
  exists r, formula_buckling pla_plate = inr r /\ 0.008 * 1.01 = r * 1.01.
Proof.
  apply (success_value_is_formula_uplift (Some (fun _ => ret 42)) pla_plate (0.008 * 1.01)).
  vm_compute. reflexivity.
Defined.

(** C2, as stated, fails: with the validity guard true the formula raises
    [ZeroDivisionError] when the squared effective length underflows to zero
    and [OverflowError] when it overflows, and it raises [OverflowError]
    before the guard is reached when a power of the geometry overflows. *)
Lemma formula_buckling_raises :
  (second_moment_of thin_short_plate = inr (20 * 8 / 12) /\
   valid_guard 2300 (20 * 8 / 12) (2 * 1e-200) = true /\
   formula_buckling thin_short_plate = inl (ZeroDivisionError "float division by zero")) /\
  (valid_guard 2300 (20 * 8 / 12) (2 * 1e200) = true /\
   formula_buckling long_plate = inl (OverflowError errno_range)) /\
  formula_buckling thick_plate = inl (OverflowError errno_range).
Proof. repeat split; vm_compute; reflexivity. Qed.

(** C2, amended — For every input whose second moment of area [I] is
    computed (no power of the geometry overflows), with [E_MPa] the resolved
    modulus in GPa times 1000 and the effective length [Le = 2 * length_mm]:
    the formula returns exactly 0.0 when the guard [E_MPa > 0 and I > 0 and
    Le > 0] fails; when the guard holds it returns
    [round(pi**2 * E_MPa * I / Le**2 / 1000, 3)] if [Le**2] is a non-zero
    float, raises [ZeroDivisionError] if [Le**2] underflowed to zero, and
    raises the error of [Le**2] if that overflowed. *)
Theorem formula_buckling_value {libm : Libm} (data : BucklingInput) (I : float) :
  let E_MPa := resolve_modulus data.(Material) data.(Youngs_Modulus_GPa) * 1000 in
  let Le := 2 * data.(Length_mm) in
  second_moment_of data = inr I ->
  (valid_guard E_MPa I Le = false -> formula_buckling data = inr 0) /\
  (valid_guard E_MPa I Le = true ->
     (forall Le2, float_pow Le 2 = inr Le2 -> (Le2 =? 0) = false ->
        formula_buckling data
        = inr (py_round (9.869604401089358 * E_MPa * I / Le2 / 1000) 3)) /\
     (float_pow Le 2 = inr 0 ->
        formula_buckling data = inl (ZeroDivisionError "float division by zero")) /\
     (forall e, float_pow Le 2 = inl e -> formula_buckling data = inl e)).
Proof.
  intros E_MPa Le HI. rewrite formula_buckling_unfold, HI. simpl.
  fold (E_MPa_of data). change (E_MPa_of data) with E_MPa.
  split; [apply critical_load_guard_fails|].
  intros Hg. rewrite (critical_load_guard_holds _ _ _ Hg). fold Le.
  repeat split.
  - intros Le2 -> Hnz. simpl. unfold float_div. rewrite Hnz. reflexivity.
  - intros ->. reflexivity.
  - intros e ->. reflexivity.
Qed.

Lemma formula_buckling_value_witness :
  (valid_guard 2300 (20 * 8 / 12) 200 = false -> formula_buckling pla_plate = inr 0) /\
  (valid_guard 2300 (20 * 8 / 12) 200 = true ->
     (forall Le2, float_pow 200 2 = inr Le2 -> (Le2 =? 0) = false ->
        formula_buckling pla_plate
        = inr (py_round (9.869604401089358 * 2300 * (20 * 8 / 12) / Le2 / 1000) 3)) /\
     (float_pow 200 2 = inr 0 ->
        formula_buckling pla_plate = inl (ZeroDivisionError "float division by zero")) /\
     (forall e, float_pow 200 2 = inl e -> formula_buckling pla_plate = inl e)).
Proof.
  apply (formula_buckling_value pla_plate (20 * 8 / 12)).
  vm_compute. reflexivity.
Defined.

(** C3, as stated, fails: for a plate of thickness 1e200 the power [t**3]
    overflows and the code raises [OverflowError]; it has no second moment of
    area, where the table gives the float [b*t**3/12], here infinity. *)
Lemma second_moment_raises_on_overflow :
  second_moment_of_area "Plate" 1 1e200 0 0 0
  = inl (OverflowError "(34, 'Numerical result out of range')") /\
  second_moment_of thick_plate = inl (OverflowError "(34, 'Numerical result out of range')") /\
  shape_table Plate 1 1e200 0 0 0 = infinity.
Proof. repeat split; vm_compute; reflexivity. Qed.

(** C3, amended — For every normalized shape name and all dimensions, the
    code raises [OverflowError] when a power of the shape's row overflows
    (it is infinite for a finite dimension), and otherwise the second moment
    of area it computes is the row of the shape table for the variant the
    name stands for: [b*t**3/12] for Plate and RectangularBar,
    [b*t**3/12 - pi*d**4/64] (not clamped) for PlateWithHole,
    [(pi/64)*do**4] for Cylinder, [(pi/64)*(do**4 - di**4)] when [do > di]
    and 0 otherwise for HollowCylinder, [(b**4 - (b-2t)**4)/12] when
    [b > 2t] and 0 otherwise for HollowRectangularBar, and 0 for any
    unrecognized name. *)
Theorem second_moment_matches_shape_table {libm : Libm}
    (name : string) (b t do_ di_ d : float) :
  let kind := shape_of_name name in
  second_moment_of_area name b t do_ di_ d =
    if existsb power_overflows (row_powers kind b t do_ di_ d)
    then raise (OverflowError "(34, 'Numerical result out of range')")
    else ret (shape_table kind b t do_ di_ d).
Proof. intros kind. apply second_moment_of_area_table. Qed.

Lemma second_moment_matches_shape_table_witness :
  second_moment_of_area "Plate" 20 2 0 0 0 = inr 13.333333333333334 /\
  second_moment_of_area "Plate_With_Hole" 20 2 0 0 4 = inr 0.7669627189741615 /\
  second_moment_of_area "Plate_With_Hole" 20 2 0 0 40 = inr (-125650.3728102584) /\
  second_moment_of_area "Cylinder" 0 0 10 0 0 = inr 490.8738521234052 /\
  second_moment_of_area "Hollow_Cylinder" 0 0 10 8 0 = inr 289.8119222936584 /\
  second_moment_of_area "Hollow_Cylinder" 0 0 20 25 0 = inr 0 /\
  second_moment_of_area "Rectangular_Bar" 20 2 0 0 0 = inr 13.333333333333334 /\
  second_moment_of_area "Hollow_Rectangular_Bar" 10 2 0 0 0 = inr 725.3333333333334 /\
  second_moment_of_area "Hollow_Rectangular_Bar" 4 2 0 0 0 = inr 0 /\
  second_moment_of_area "Sphere" 20 2 10 8 4 = inr 0 /\
  second_moment_of_area "Cylinder" 0 0 1e100 0 0
  = inl (OverflowError "(34, 'Numerical result out of range')").
Proof.
  rewrite !second_moment_matches_shape_table.
  repeat split; vm_compute; reflexivity.
Defined.

(** C4, as stated, fails: the material ["GF–PLA"] spelled with an en dash, as
    the form sends it, is none of the six listed keys, yet it resolves to
    5.0 GPa and not to the 2.3 GPa default. *)
Lemma en_dash_material_is_in_the_table :
  (resolve_modulus en_dash_GF_PLA 0 =? listed_resolve_modulus en_dash_GF_PLA 0) = false /\
  resolve_modulus en_dash_GF_PLA 0 = 5.0 /\
  listed_resolve_modulus en_dash_GF_PLA 0 = 2.3.
Proof. repeat split; vm_compute; reflexivity. Qed.

(** C4, amended — A supplied modulus that is not zero is used unchanged.  A
    zero modulus is resolved from the material name with spaces replaced by
    underscores: CF-PLA gives 3.2 and GF-PLA gives 5.0, each spelled with a
    hyphen or with an en dash; PLA and Standard_PLA give 2.3; ABS and
    Standard_ABS give 2.1; any other name gives 2.3.  Nothing is raised. *)
Theorem resolve_modulus_table (material : string) (E : float) :
  let name := PyStr.replace " " "_" material in
  resolve_modulus material E =
    if E =? 0 then
      if one_of ["CF–PLA"; "CF-PLA"] name then 3.2
      else if one_of ["GF–PLA"; "GF-PLA"] name then 5.0
      else if one_of ["Standard_PLA"; "PLA"] name then 2.3
      else if one_of ["Standard_ABS"; "ABS"] name then 2.1
      else 2.3
    else E.
Proof.
  intros name. unfold resolve_modulus. fold name.
  destruct (E =? 0); trivial.
  unfold MATERIAL_MODULUS, one_of, existsb.
  rewrite !dict_get_cons.
  rewrite !(String.eqb_sym name).
  repeat match goal with
         | |- context [String.eqb ?k name] => destruct (String.eqb k name)
         end; reflexivity.
Qed.

(** C5, as stated, fails: for the 20 x 2 x 100 mm PLA plate the formula load
    is 0.008 kN, because the load is rounded to three decimals, and the
    returned value is 0.008 * 1.01; neither is within 0.0004 of the claimed
    0.00758 and 0.00766. *)
Lemma pla_plate_is_rounded_to_three_decimals :
  formula_buckling pla_plate = inr 0.008 /\
  within 0.0004 0.00758 0.008 = false /\
  predict_buckling None pla_plate = success_response (0.008 * 1.01) /\
  within 0.0004 0.00766 (0.008 * 1.01) = false.
Proof. repeat split; vm_compute; reflexivity. Qed.

(** C5, amended — For shape Plate, width 20, thickness 2, length 100,
    material PLA and modulus 0: the second moment of area is
    20*2**3/12 = 13.333 mm^4, the resolved modulus is 2300 MPa, the effective
    length is 200 mm, the critical load is 7.5667 N, which the formula rounds
    to 0.008 kN, and the value returned is 0.008 * 1.01 = 0.00808 kN. *)
Theorem pla_plate_worked_example :
  second_moment_of pla_plate = inr (20 * 8 / 12) /\
  within 0.0005 13.333 (20 * 8 / 12) = true /\
  E_MPa_of pla_plate = 2300 /\
  2 * pla_plate.(Length_mm) = 200 /\
  (pi2 <- float_pow pi 2 ;; float_div (pi2 * 2300 * (20 * 8 / 12)) 40000)
  = inr 7.5666967075018414 /\
  formula_buckling pla_plate = inr (py_round (7.5666967075018414 / 1000) 3) /\
  py_round (7.5666967075018414 / 1000) 3 = 0.008 /\
  predict_buckling None pla_plate = success_response (0.008 * 1.01) /\
  within 0.000001 0.00808 (0.008 * 1.01) = true.
Proof. repeat split; vm_compute; reflexivity. Qed.




Example euler_load_instances :
  critical_load_kN 2100 (20 * 8 / 12) 100 = inr 0.007 /\
  critical_load_kN 2300 (20 * 8 / 12) 100 = inr 0.008 /\
  critical_load_kN 2300 (20 * 27 / 12) 100 = inr 0.026 /\
  critical_load_kN 2300 (20 * 8 / 12) 50 = inr 0.03.
Proof. repeat split; vm_compute; reflexivity. Qed.

(** C7 — For every input the endpoint returns either the success object,
    whose single key is [predicted_buckling_load_kN], or the error object,
    whose single key is [error] and whose value is the message of the
    exception that the body raised; the two objects are never equal; an
    exception of the model is turned into the error object with the model's
    message, and an exception of the formula, when the model did not raise,
    into the error object with one of the formula's two messages:
    "(34, 'Numerical result out of range')" for the [OverflowError] of a
    power and "float division by zero" for the [ZeroDivisionError] of the
    division. *)
Theorem response_is_success_or_error {libm : Libm}
    (model : option predictor) (data : BucklingInput) :
  let message e :=
    match e with
    | OverflowError msg | ZeroDivisionError msg | ModelError msg => msg
    end in
  ((exists v, predict_body model data = inr v /\
              predict_buckling model data = [("predicted_buckling_load_kN", PyFloat v)]) \/
   (exists e, predict_body model data = inl e /\
              predict_buckling model data = [("error", PyString (message e))])) /\
  (forall v msg,
     [("predicted_buckling_load_kN", PyFloat v)] <> [("error", PyString msg)]) /\
  (forall (predict : predictor) e, model = Some predict ->
     predict (features data (E_MPa_of data)) = inl e ->
     predict_buckling model data = [("error", PyString (message e))]) /\
  (forall e, model_returns model data -> formula_buckling data = inl e ->
     (e = OverflowError "(34, 'Numerical result out of range')" /\
      predict_buckling model data
      = [("error", PyString "(34, 'Numerical result out of range')")]) \/
     (e = ZeroDivisionError "float division by zero" /\
      predict_buckling model data = [("error", PyString "float division by zero")])).
Proof.
  intros message.
  assert (Hstr : forall e, exn_str e = message e) by (intros []; reflexivity).
  repeat split.
  - unfold predict_buckling, error_response.
    destruct (predict_body model data) as [e|v]; [right|left]; eauto.
  - discriminate.
  - intros predict e -> H. unfold predict_buckling.
    rewrite (predict_body_model_raises data _ _ H).
    unfold error_response. rewrite Hstr. reflexivity.
  - intros e Hm He. rewrite (predict_buckling_raises data model e Hm He).
    destruct (formula_buckling_raises_only data e He) as [->| ->]; [left|right];
      split; reflexivity.
Qed.

Lemma response_is_success_or_error_witness :
  predict_buckling None pla_plate = [("predicted_buckling_load_kN", PyFloat 0.00808)] /\
  predict_buckling (Some failing_model) pla_plate = [("error", PyString "X has 7 features")] /\
  predict_buckling None thick_plate
  = [("error", PyString "(34, 'Numerical result out of range')")] /\
  predict_buckling None thin_short_plate = [("error", PyString "float division by zero")].
Proof.
  destruct (response_is_success_or_error None pla_plate) as (Hs & _ & _ & _).
  destruct (response_is_success_or_error (Some failing_model) pla_plate) as (_ & _ & Hm & _).
  destruct (response_is_success_or_error None thick_plate) as (_ & _ & _ & Ho).
  destruct (response_is_success_or_error None thin_short_plate) as (_ & _ & _ & Hz).
  split; [|split; [|split]].
  - destruct Hs as [(v & Hv & Hr)|(e & He & _)]; [|vm_compute in He; discriminate He].
    vm_compute in Hv. injection Hv as <-. exact Hr.
  - apply (Hm failing_model (ModelError "X has 7 features")); reflexivity.
  - destruct (Ho (OverflowError "(34, 'Numerical result out of range')") Logic.I eq_refl)
      as [[_ H]|[Hc _]]; [exact H|discriminate Hc].
  - destruct (Hz (ZeroDivisionError "float division by zero") Logic.I eq_refl)
      as [[Hc _]|[_ H]]; [discriminate Hc|exact H].
Defined.

(** C8, as stated, fails: for a plate whose numerator pi**2*E*I and squared
    effective length both overflow to infinity the success value is NaN,
    which is not non-negative; and with a model that raises, a tube with
    inner diameter above the outer one gets the error object, not 0.0. *)
Lemma success_value_can_be_nan :
  predict_buckling None overflowing_plate = success_response nan /\
  (0 <=? nan) = false /\
  invalid_dimensions reversed_tube /\
  predict_buckling (Some failing_model) reversed_tube
  = error_response (ModelError "X has 7 features").
Proof.
  repeat split; try (vm_compute; reflexivity).
  right. left. split; vm_compute; reflexivity.
Qed.

(** C8, amended — Every success value of the endpoint is non-negative or
    NaN.  When the second moment of area is computed and is not positive,
    the formula returns exactly 0.0 and, if the model (when present) does not
    raise, the endpoint returns the success value 0.0, not an error; the
    second moment of area is 0 for an unrecognized shape, for a hollow
    cylinder whose outer diameter is not above the inner one, and for a
    hollow rectangular bar whose width is not above twice the thickness. *)
Theorem success_value_nonnegative_or_nan {libm : Libm}
    (model : option predictor) (data : BucklingInput) :
  (forall v, predict_buckling model data = success_response v ->
     (0 <=? v) = true \/ isnan v = true) /\
  (forall I, second_moment_of data = inr I -> (0 <? I) = false ->
     formula_buckling data = inr 0 /\
     (model_returns model data -> predict_buckling model data = success_response 0)) /\
  (invalid_dimensions data -> second_moment_of data = inr 0).
Proof.
  repeat split.
  - intros v Hv. apply success_response_inv, predict_body_inr in Hv as (r & Hr & ->).
    apply Signed_false_nonneg, (mul_Signed false false); [|reflexivity].
    apply (formula_buckling_Signed data r Hr).
  - apply (formula_buckling_degenerate data I); assumption.
  - intros Hm. apply (predict_buckling_returns data model 0 Hm).
    apply (formula_buckling_degenerate data I); assumption.
  - apply invalid_dimensions_zero.
Qed.

Lemma success_value_nonnegative_or_nan_witness :
  ((0 <=? 0.008 * 1.01) = true \/ isnan (0.008 * 1.01) = true) /\
  predict_buckling None reversed_tube = success_response 0.
Proof.
  destruct (success_value_nonnegative_or_nan None pla_plate) as (Hv & _ & _).
  destruct (success_value_nonnegative_or_nan None reversed_tube) as (_ & Hz & _).
  split.
  - apply Hv. vm_compute. reflexivity.
  - apply (Hz 0); [vm_compute; reflexivity|reflexivity|exact Logic.I].
Defined.

(** C9 — Two requests that differ only in Fibre_Type, Poissons_Ratio,
    Strength_0_deg_MPa, Strength_90_deg_MPa, Area_mm2, I_min_mm4, I_max_mm4
    or Buckling_Load_norm give the same feature row to the model, the same
    formula result and the same response of the endpoint. *)
Theorem carried_fields_do_not_interfere {libm : Libm}
    (model : option predictor) (d1 d2 : BucklingInput) :
  same_consumed_fields d1 d2 ->
  (forall E_MPa, features d1 E_MPa = features d2 E_MPa) /\
  formula_buckling d1 = formula_buckling d2 /\
  predict_buckling model d1 = predict_buckling model d2.
Proof.
  destruct d1, d2. unfold same_consumed_fields. simpl.
  intros (-> & -> & -> & -> & -> & -> & -> & -> & ->).
  repeat split.
Qed.

Lemma carried_fields_do_not_interfere_witness :
  (forall E_MPa, features pla_plate E_MPa = features pla_plate_annotated E_MPa) /\
  formula_buckling pla_plate = formula_buckling pla_plate_annotated /\
  predict_buckling None pla_plate = predict_buckling None pla_plate_annotated.
Proof.
  apply (carried_fields_do_not_interfere None pla_plate pla_plate_annotated).
  repeat split.
Defined.

(** C10, as stated, fails: with a negative supplied modulus the endpoint
    still answers with the error object when a power of the geometry
    overflows, or when the model raises. *)
Lemma negative_modulus_can_answer_error :
  (thick_plate_negative_modulus.(Youngs_Modulus_GPa) <? 0) = true /\
  predict_buckling None thick_plate_negative_modulus
  = error_response (OverflowError errno_range) /\
  (plate_negative_modulus.(Youngs_Modulus_GPa) <? 0) = true /\
  predict_buckling (Some failing_model) plate_negative_modulus
  = error_response (ModelError "X has 7 features").
Proof. repeat split; vm_compute; reflexivity. Qed.

(** C10, amended — For every input with a strictly negative supplied
    modulus, the negative value is used unchanged (no table lookup), the
    validity guard fails whatever the second moment of area and the length,
    and, when the second moment of area is computed (no power of the
    geometry overflows), the formula returns 0.0 and the endpoint returns the
    success value 0.0 if the model (when present) does not raise. *)
Theorem negative_modulus_fails_guard {libm : Libm}
    (model : option predictor) (data : BucklingInput) :
  (data.(Youngs_Modulus_GPa) <? 0) = true ->
  resolve_modulus data.(Material) data.(Youngs_Modulus_GPa) = data.(Youngs_Modulus_GPa) /\
  (forall I Le, valid_guard (data.(Youngs_Modulus_GPa) * 1000) I Le = false) /\
  (forall I, second_moment_of data = inr I ->
     formula_buckling data = inr 0 /\
     (model_returns model data -> predict_buckling model data = success_response 0)).
Proof.
  intros Hneg.
  assert (Hres : resolve_modulus data.(Material) data.(Youngs_Modulus_GPa)
                 = data.(Youngs_Modulus_GPa)).
  { unfold resolve_modulus. rewrite (ltb_eqb _ _ Hneg). reflexivity. }
  assert (Hguard : forall I Le, valid_guard (data.(Youngs_Modulus_GPa) * 1000) I Le = false).
  { intros I Le. unfold valid_guard. rewrite (negative_times_1000 _ Hneg). reflexivity. }
  assert (Hzero : forall I, second_moment_of data = inr I -> formula_buckling data = inr 0).
  { intros I HI. rewrite formula_buckling_unfold, HI. simpl.
    apply critical_load_guard_fails. unfold E_MPa_of. rewrite Hres. apply Hguard. }
  repeat split; trivial.
  - apply (Hzero I); assumption.
  - intros Hm. apply (predict_buckling_returns data model 0 Hm), (Hzero I); assumption.
Qed.

Lemma negative_modulus_fails_guard_witness :
  resolve_modulus "PLA" (-1) = (-1) /\
  (forall I Le, valid_guard (-1 * 1000) I Le = false) /\
  (forall I, second_moment_of plate_negative_modulus = inr I ->
     formula_buckling plate_negative_modulus = inr 0 /\
     (model_returns None plate_negative_modulus ->
      predict_buckling None plate_negative_modulus = success_response 0)).
Proof.
  apply (negative_modulus_fails_guard None plate_negative_modulus).
  vm_compute. reflexivity.
Defined.

(** * Further properties of the backend and of the form *)

(** ** The form and the backend together *)

Lemma replace_first_field (s : string) :
  PyStr.replace " " "_" (first_field " " s) = first_field " " s.
Proof.
  induction s as [|c s IH]; [reflexivity|].
  simpl. destruct (Ascii.eqb c " ") eqn:Hc; [reflexivity|].
  simpl. rewrite Hc, IH. reflexivity.
Qed.

Lemma table_modulus_positive (name : string) :
  (0 <? dict_get MATERIAL_MODULUS name 2.3 * 1000) = true.
Proof.
  unfold MATERIAL_MODULUS. rewrite !dict_get_cons.
  repeat match goal with
         | |- context [String.eqb ?k name] => destruct (String.eqb k name)
         end; reflexivity.
Qed.

Lemma payload_modulus shape material number_input :
  E_MPa_of (App.input_data shape material number_input)
  = dict_get MATERIAL_MODULUS (first_field " " material) 2.3 * 1000.
Proof.
  unfold E_MPa_of, resolve_modulus. simpl. rewrite replace_first_field. reflexivity.
Qed.

(** X1 — For each of the six shapes the form offers, the backend recognises
    the name the form sends and computes the second moment of area of that
    shape from exactly the numbers the form asked for; the length sent is the
    number under "Length (mm)". *)
Theorem form_shapes_reach_their_rows {libm : Libm}
    (material : string) (number_input : string -> float) :
  let payload shape := App.input_data shape material number_input in
  let n := number_input in
  second_moment_of (payload "Cylinder")
  = second_moment_of_area "Cylinder" 0 0 (n "Diameter (mm)") 0 0 /\
  second_moment_of (payload "Hollow Cylinder")
  = second_moment_of_area "Hollow_Cylinder" 0 0
      (n "Outer Diameter (mm)") (n "Inner Diameter (mm)") 0 /\
  second_moment_of (payload "Rectangular Bar")
  = second_moment_of_area "Rectangular_Bar" (n "Width (mm)") (n "Thickness (mm)") 0 0 0 /\
  second_moment_of (payload "Hollow Rectangular Bar")
  = second_moment_of_area "Hollow_Rectangular_Bar"
      (n "Outer Width (mm)") (n "Thickness (mm)") 0 0 0 /\
  second_moment_of (payload "Plate")
  = second_moment_of_area "Plate" (n "Width (mm)") (n "Thickness (mm)") 0 0 0 /\
  second_moment_of (payload "Plate with Hole")
  = second_moment_of_area "Plate_With_Hole" (n "Width (mm)") (n "Thickness (mm)") 0 0
      (n "Hole Diameter (mm)") /\
  (forall shape, In shape App.shape_options -> shape <> "Select" ->
     shape_of_name (normalize_shape (Shape (payload shape))) <> UnrecognizedShape /\
     Length_mm (payload shape) = n "Length (mm)").
Proof.
  intros payload n. repeat split; try reflexivity.
  - destruct H as [<-|[<-|[<-|[<-|[<-|[<-|[<-|[]]]]]]]]; try discriminate. now elim H0.
  - destruct H as [<-|[<-|[<-|[<-|[<-|[<-|[<-|[]]]]]]]]; try reflexivity. now elim H0.
Qed.

Lemma form_shapes_reach_their_rows_witness :
  second_moment_of (App.input_data "Plate with Hole" "Standard PLA" plate_entries)
  = inr 0.7669627189741615 /\
  second_moment_of (App.input_data "Plate" "Standard PLA" plate_entries)
  = inr 13.333333333333334.
Proof.
  destruct (form_shapes_reach_their_rows "Standard PLA" plate_entries)
    as (_ & _ & _ & _ & HP & HH & _).
  split; [rewrite HH|rewrite HP]; vm_compute; reflexivity.
Defined.

(** X2 — The form sends the first word of the chosen material and a zero
    modulus, so the backend looks the modulus up under that word: 3200 MPa
    for the carbon-fibre option, 5000 for the glass-fibre one, and the
    2300 MPa default for both "Standard PLA" and "Standard ABS", whose first
    word "Standard" is no key of the table; the two standard materials give
    the same payload and the same response, although the backend's table
    gives 2.1 GPa to a request that names "Standard ABS" in full. *)
Theorem form_material_moduli {libm : Libm}
    (model : option predictor) (shape : string) (number_input : string -> float) :
  let payload material := App.input_data shape material number_input in
  (forall material,
     E_MPa_of (payload material)
     = dict_get MATERIAL_MODULUS (first_field " " material) 2.3 * 1000) /\
  E_MPa_of (payload "CF–PLA (15% Carbon Fiber Reinforced PLA)") = 3200 /\
  E_MPa_of (payload "GF–PLA (25% Glass Fiber Reinforced PLA)") = 5000 /\
  E_MPa_of (payload "Standard PLA") = 2300 /\
  E_MPa_of (payload "Standard ABS") = 2300 /\
  Material (payload "Standard ABS") = "Standard"%string /\
  payload "Standard ABS" = payload "Standard PLA" /\
  predict_buckling model (payload "Standard ABS")
  = predict_buckling model (payload "Standard PLA") /\
  resolve_modulus "Standard ABS" 0 * 1000 = 2100.
Proof.
  intros payload. split; [intros material; apply payload_modulus|].
  repeat split.
Qed.

(** X3 — When the form shows its predict button (a shape is selected and the
    length is above zero), the modulus and the effective length of the
    request pass the backend's validity guard whatever the material: the
    guard is decided by the second moment of area alone. *)
Theorem enabled_form_passes_modulus_and_length_guard
    (shape material : string) (number_input : string -> float) (I : float) :
  let payload := App.input_data shape material number_input in
  App.predict_enabled shape number_input = true ->
  valid_guard (E_MPa_of payload) I (2 * Length_mm payload) = (0 <? I).
Proof.
  intros payload H. unfold App.predict_enabled in H.
  apply andb_prop in H as [_ HL].
  unfold valid_guard, payload. rewrite payload_modulus, table_modulus_positive.
  change (Length_mm (App.input_data shape material number_input))
    with (App.length (App.geometry_inputs shape number_input)).
  rewrite (Positive_positive _ (two_mul_Positive _ (positive_Positive _ HL))).
  simpl. apply andb_true_r.
Qed.

Lemma enabled_form_passes_modulus_and_length_guard_witness :
  valid_guard 2300 13.333333333333334 200 = true.
Proof.
  apply (enabled_form_passes_modulus_and_length_guard
           "Plate" "Standard ABS" plate_entries 13.333333333333334).
  reflexivity.
Defined.

(** *** Loads that are shown as zero *)

Lemma round_half_even_below_half (N D : Z) :
  (0 <= N)%Z -> (2 * N < D)%Z -> round_half_even N D = 0%Z.
Proof.
  intros HN HD. unfold round_half_even.
  rewrite (Z.mod_small N D), (Z.div_small N D) by lia.
  destruct (Z.compare_spec (2 * N) D); lia.
Qed.

(** A float below [0.005] scales to less than half a hundredth. *)
Lemma scaled_decimal_below_half_cent (m : positive) (e : Z) :
  valid_binary (S754_finite false m e) = true ->
  SFltb (S754_finite false m e) (S754_finite false 5764607523034235 (-60)) = true ->
  scaled_decimal m e 100 = 0%Z.
Proof.
  intros Hv H.
  apply valid_canon in Hv as [(_ & Hd & _) _].
  assert (Hm : (Zpos m < 9007199254740992)%Z).
  { pose proof (Zdigits2_bounds (Zpos m) ltac:(lia)) as [_ Hb].
    apply (Z.lt_le_trans _ _ _ Hb).
    change 9007199254740992%Z with (2 ^ 53)%Z. apply Z.pow_le_mono_r; lia. }
  unfold SFltb, SFcompare in H. unfold scaled_decimal.
  destruct (Z.compare_spec e (-60)) as [He|He|He]; try discriminate.
  - subst e.
    destruct (Pos.compare_cont Eq m 5764607523034235) eqn:Hp; try discriminate.
    assert (Hlt : (Zpos m < 5764607523034235)%Z) by exact Hp.
    change (0 <=? -60)%Z with false. cbv iota.
    apply round_half_even_below_half; [lia|].
    change (2 ^ (- (-60)))%Z with 1152921504606846976%Z. lia.
  - destruct (Z.leb_spec 0 e); [lia|].
    apply round_half_even_below_half; [lia|].
    assert (Hp : (2305843009213693952 <= 2 ^ (- e))%Z).
    { change 2305843009213693952%Z with (2 ^ 61)%Z. apply Z.pow_le_mono_r; lia. }
    remember (2 ^ (- e))%Z as P. lia.
Qed.

Lemma format_2f_below_half_cent (x : float) :
  Signed false x -> (x <? 0.005) = true -> format_2f x = "0.00".
Proof.
  unfold Signed, format_2f. rewrite FloatAxioms.ltb_spec.
  pose proof (FloatAxioms.Prim2SF_valid x) as Hv.
  change (Prim2SF 0.005) with (S754_finite false 5764607523034235 (-60)).
  destruct (Prim2SF x) as [s|s| |s m e]; intros Hs H.
  - cbn in Hs. subst s. reflexivity.
  - cbn in Hs. subst s. discriminate H.
  - discriminate H.
  - cbn in Hs. subst s.
    rewrite (scaled_decimal_below_half_cent m e Hv H). reflexivity.
Qed.


(** *** What the page shows *)

Lemma show_success (v : float) :
  App.show_result (success_response v)
  = App.st_success ("✅ Predicted Buckling Load: " ++ format_2f v ++ " kN").
Proof. reflexivity. Qed.

Lemma show_error (e : exn) :
  App.show_result (error_response e) = App.st_error "❌ Prediction failed. Check backend logs.".
Proof. reflexivity. Qed.

(** X4 — When the predict button of the form is pressed and the object that
    the backend answers with is delivered (its model, if any, did not
    raise), the page shows 1.01 times the Euler-formula load of the payload
    with two decimals, or, when the formula raised, one fixed failure
    text. *)
Theorem page_shows_load_or_fixed_failure_text {libm : Libm}
    (model : option predictor) (shape material : string) (number_input : string -> float)
    (post : BucklingInput -> option response) :
  let payload := App.input_data shape material number_input in
  let shown := App.page shape material number_input true post in
  App.predict_enabled shape number_input = true ->
  post payload = Some (predict_buckling model payload) ->
  model_returns model payload ->
  (forall r, formula_buckling payload = inr r ->
     shown = Some (App.st_success
                     ("✅ Predicted Buckling Load: " ++ format_2f (r * 1.01) ++ " kN"))) /\
  (forall e, formula_buckling payload = inl e ->
     shown = Some (App.st_error "❌ Prediction failed. Check backend logs.")).
Proof.
  intros payload shown Hen Hpost Hm. unfold shown, App.page. rewrite Hen.
  fold payload. rewrite Hpost. split.
  - intros r Hr. rewrite (predict_buckling_returns payload model r Hm Hr). reflexivity.
  - intros e He. rewrite (predict_buckling_raises payload model e Hm He). reflexivity.
Qed.

Lemma page_shows_load_or_fixed_failure_text_witness :
  let post data := Some (predict_buckling None data) in
  App.page "Plate" "Standard PLA" plate_entries true post
  = Some (App.st_success "✅ Predicted Buckling Load: 0.01 kN") /\
  App.page "Plate" "Standard PLA" thick_plate_entries true post
  = Some (App.st_error "❌ Prediction failed. Check backend logs.").
Proof.
  intros post.
  destruct (page_shows_load_or_fixed_failure_text None "Plate" "Standard PLA" plate_entries
              post) as [Hs _]; [reflexivity|reflexivity|exact Logic.I|].
  destruct (page_shows_load_or_fixed_failure_text None "Plate" "Standard PLA"
              thick_plate_entries post) as [_ He]; [reflexivity|reflexivity|exact Logic.I|].
  split.
  - apply (Hs 0.008). vm_compute. reflexivity.
  - apply (He (OverflowError errno_range)). vm_compute. reflexivity.
Defined.

(** X5 — When the object that the backend answers with is delivered, or the
    connection fails, the page never stops on an exception of its own and
    never shows the backend's error message: an error shown is one of two
    fixed texts, a success is shown only when the Euler formula returned a
    load, and shows 1.01 times that load, the hint to fill the form only
    while the button is disabled, and nothing only while the button is not
    pressed. *)
Theorem page_never_shows_backend_message {libm : Libm}
    (model : option predictor) (shape material : string) (number_input : string -> float)
    (button : bool) (post : BucklingInput -> option response) :
  let payload := App.input_data shape material number_input in
  post payload = Some (predict_buckling model payload) \/ post payload = None ->
  match App.page shape material number_input button post with
  | Some (App.st_error body) =>
      body = "❌ Prediction failed. Check backend logs."%string \/
      body = "⚠️ Could not connect to FastAPI backend. Is it running?"%string
  | Some (App.uncaught _) => False
  | Some (App.st_info _) => App.predict_enabled shape number_input = false
  | Some (App.st_success body) =>
      exists r, formula_buckling payload = inr r /\
                body = ("✅ Predicted Buckling Load: " ++ format_2f (r * 1.01) ++ " kN")%string
  | None => button = false
  end.
Proof.
  intros payload Hpost. unfold App.page. fold payload.
  destruct (App.predict_enabled shape number_input); [|reflexivity].
  destruct button; [|reflexivity].
  destruct Hpost as [-> | ->]; [|right; reflexivity].
  unfold predict_buckling.
  destruct (predict_body model payload) as [e|v] eqn:Hb.
  - left. reflexivity.
  - rewrite show_success. apply predict_body_inr in Hb as (r & Hr & ->). eauto.
Qed.

Lemma page_never_shows_backend_message_witness :
  let delivered data := Some (predict_buckling None data) in
  match App.page "Plate" "Standard PLA" thick_plate_entries true delivered with
  | Some (App.st_error body) =>
      body = "❌ Prediction failed. Check backend logs."%string \/
      body = "⚠️ Could not connect to FastAPI backend. Is it running?"%string
  | Some (App.uncaught _) => False
  | Some (App.st_info _) => App.predict_enabled "Plate" thick_plate_entries = false
  | Some (App.st_success body) =>
      exists r,
        formula_buckling (App.input_data "Plate" "Standard PLA" thick_plate_entries) = inr r /\
        body = ("✅ Predicted Buckling Load: " ++ format_2f (r * 1.01) ++ " kN")%string
  | None => true = false
  end /\
  App.page "Plate" "Standard PLA" thick_plate_entries true delivered
  = Some (App.st_error "❌ Prediction failed. Check backend logs.").
Proof.
  intros delivered. split; [|vm_compute; reflexivity].
  apply (page_never_shows_backend_message None "Plate" "Standard PLA" thick_plate_entries
           true delivered).
  left. reflexivity.
Defined.

(** X6 — A load below 0.005 kN is shown as 0.00 kN: whenever the backend
    answers with a success value below [0.005], the page shows the text
    "Predicted Buckling Load: 0.00 kN". *)
Theorem small_load_is_shown_as_zero {libm : Libm}
    (model : option predictor) (data : BucklingInput) (v : float) :
  predict_buckling model data = success_response v -> (v <? 0.005) = true ->
  App.show_result (predict_buckling model data)
  = App.st_success "✅ Predicted Buckling Load: 0.00 kN".
Proof.
  intros Hv Hlt. rewrite Hv, show_success.
  apply success_response_inv, predict_body_inr in Hv as (r & Hr & ->).
  rewrite format_2f_below_half_cent; [reflexivity| |exact Hlt].
  apply (mul_Signed false false); [|reflexivity].
  apply (formula_buckling_Signed _ r Hr).
Qed.

Lemma small_load_is_shown_as_zero_witness :
  App.show_result
    (predict_buckling None (App.input_data "Plate" "Standard PLA" long_plate_entries))
  = App.st_success "✅ Predicted Buckling Load: 0.00 kN".
Proof.
  apply (small_load_is_shown_as_zero None _ (0.004 * 1.01)); vm_compute; reflexivity.
Defined.


(** ** The modulus of a request *)

(** X7 — A modulus of zero (0.0 or -0.0) is resolved from the material to a
    positive number of MPa, for every material name, known or not: the
    validity guard then never fails because of the modulus. *)
Theorem unspecified_modulus_passes_guard (material : string) (E I Le : float) :
  (E =? 0) = true ->
  (0 <? resolve_modulus material E * 1000) = true /\
  valid_guard (resolve_modulus material E * 1000) I Le = (0 <? I) && (0 <? Le).
Proof.
  intros H. unfold resolve_modulus, valid_guard. rewrite H, table_modulus_positive.
  split; reflexivity.
Qed.

Lemma unspecified_modulus_passes_guard_witness :
  (0 <? resolve_modulus "Unobtainium" (-0) * 1000) = true /\
  valid_guard (resolve_modulus "Unobtainium" (-0) * 1000) 13.333333333333334 200
  = (0 <? 13.333333333333334) && (0 <? 200).
Proof.
  apply (unspecified_modulus_passes_guard "Unobtainium" (-0) 13.333333333333334 200).
  reflexivity.
Defined.

Lemma Positive_mul_not_nan x c : Positive x -> Positive c -> isnan (x * c) = false.
Proof.
  unfold Positive. intros Hx Hc. apply not_nan. rewrite FloatAxioms.mul_spec.
  destruct (Prim2SF x) as [sx|sx| |sx mx ex]; try contradiction;
    destruct (Prim2SF c) as [sc|sc| |sc mc ec]; try contradiction;
    destruct sx; try contradiction; destruct sc; try contradiction;
    try discriminate.
  destruct (SFmul_finite_nonneg mx ex mc ec) as [H _].
  intros Heq. unfold SF64mul in Heq. rewrite Heq in H. discriminate H.
Qed.

Lemma positive_product_Positive x : (0 <? x * 1000) = true -> Positive x.
Proof.
  intros H. unfold Positive.
  destruct (Prim2SF x) as [[]|[]| |[] m e] eqn:Hx; simpl; trivial; exfalso;
    try (assert (S : Signed true x) by (unfold Signed; rewrite Hx; reflexivity);
         rewrite (Signed_true_not_positive _ (mul_Signed true false x 1000 S eq_refl)) in H;
         discriminate H);
    rewrite FloatAxioms.ltb_spec, FloatAxioms.mul_spec, Hx in H; discriminate H.
Qed.

(** X8 — Between two requests of the same geometry that both supply a
    non-zero modulus, the one with the larger modulus never gets the smaller
    load: when the endpoint answers both with a number, the success values
    are ordered like the moduli, whatever the materials named and the models
    loaded. *)
Theorem larger_modulus_never_lowers_the_load {libm : Libm}
    (model1 model2 : option predictor) (d1 d2 : BucklingInput) (v1 v2 : float) :
  same_geometry d1 d2 ->
  (d1.(Youngs_Modulus_GPa) =? 0) = false ->
  (d2.(Youngs_Modulus_GPa) =? 0) = false ->
  (d1.(Youngs_Modulus_GPa) <=? d2.(Youngs_Modulus_GPa)) = true ->
  predict_buckling model1 d1 = success_response v1 ->
  predict_buckling model2 d2 = success_response v2 ->
  isnan v1 = false -> isnan v2 = false ->
  (v1 <=? v2) = true.
Proof.
  intros (HS & HL & Hb & Ht & Ho & Hi & Hh) Hz1 Hz2 Hle H1 H2 Hn1 Hn2.
  apply success_response_inv, predict_body_inr in H1 as (r1 & Hr1 & ->).
  apply success_response_inv, predict_body_inr in H2 as (r2 & Hr2 & ->).
  destruct (mul_not_nan _ _ Hn1) as [Nr1 _]. destruct (mul_not_nan _ _ Hn2) as [Nr2 _].
  pose proof (Nonneg_intro _ (formula_buckling_Signed _ _ Hr1) Nr1) as P1.
  pose proof (Nonneg_intro _ (formula_buckling_Signed _ _ Hr2) Nr2) as P2.
  apply mul_le_mono_r; trivial; [exact Logic.I|].
  rewrite formula_buckling_unfold in Hr1, Hr2.
  unfold second_moment_of, E_MPa_of, resolve_modulus in Hr1, Hr2.
  rewrite Hz1 in Hr1. rewrite Hz2 in Hr2.
  rewrite <- HS, <- HL, <- Hb, <- Ht, <- Ho, <- Hi, <- Hh in Hr2.
  destruct (second_moment_of_area _ _ _ _ _ _) as [e|I]; [discriminate|].
  simpl in Hr1, Hr2.
  destruct (0 <? Youngs_Modulus_GPa d1 * 1000) eqn:Hpos.
  - pose proof (positive_product_Positive _ Hpos) as PE1.
    pose proof (Positive_leb _ _ PE1 Hle) as PE2.
    apply (critical_load_mono_E r1 r2 Nr1 Nr2 (Youngs_Modulus_GPa d1 * 1000)
             (Youngs_Modulus_GPa d2 * 1000) I (Length_mm d1)); trivial.
    apply mul_le_mono_r; trivial; try (apply Positive_Nonneg; assumption);
      try exact Logic.I; apply Positive_mul_not_nan; trivial; exact Logic.I.
  - rewrite critical_load_guard_fails in Hr1
      by (unfold valid_guard; rewrite Hpos; reflexivity).
    injection Hr1 as <-. apply (result_nonneg _ _ _ _ Hr2 Nr2).
Qed.

Lemma larger_modulus_never_lowers_the_load_witness :
  (0.007 * 1.01 <=? 0.01 * 1.01) = true.
Proof.
  apply (larger_modulus_never_lowers_the_load None (Some (fun _ => ret 42))
           (request "Plate" "PLA" 100 20 2 0 0 0 2)
           (request "Plate" "ABS" 100 20 2 0 0 0 3)).
  all: try (vm_compute; reflexivity).
  repeat split.
Defined.


(** ** Shape names *)

Module CaseFacts.
Import PyStr.
Local Open Scope N_scope.

Lemma code_byte n : n < 256 -> code (byte n) = n.
Proof. apply N_ascii_embedding. Qed.

Lemma byte_code c : byte (code c) = c.
Proof. apply ascii_N_embedding. Qed.

Lemma is_upper_bounds c : is_upper c = true -> 65 <= code c <= 90.
Proof.
  unfold is_upper. intros H. apply andb_prop in H as [H1 H2].
  apply N.leb_le in H1. apply N.leb_le in H2. lia.
Qed.

Lemma code_to_lower c :
  code (to_lower c) = if is_upper c then code c + 32 else code c.
Proof.
  unfold to_lower. destruct (is_upper c) eqn:H; [|reflexivity].
  apply is_upper_bounds in H. apply code_byte. lia.
Qed.

(** The tests on a code that the bounds in the context decide. *)
Ltac decide_tests :=
  repeat match goal with
         | |- context [(?a <=? ?b)%N] =>
             first [ rewrite (proj2 (N.leb_le a b)) by lia
                   | rewrite (proj2 (N.leb_gt a b)) by lia ]
         | |- context [(?a =? ?b)%N] => rewrite (proj2 (N.eqb_neq a b)) by lia
         end.

Ltac lower_char c :=
  let H := fresh "H" in
  let n := fresh "n" in
  rewrite (code_to_lower c);
  destruct (is_upper c) eqn:H;
  [ apply is_upper_bounds in H; set (n := code c) in *; clearbody n; decide_tests
  | idtac ].

Lemma whitespace_width_lower s : whitespace_width (lower s) = whitespace_width s.
Proof.
  destruct s as [|c1 [|c2 [|c3 r]]]; simpl lower; unfold whitespace_width; trivial.
  - lower_char c1; reflexivity.
  - lower_char c1; lower_char c2; reflexivity.
  - lower_char c1; lower_char c2; lower_char c3; reflexivity.
Qed.

Lemma lstrip_from_lower s : forall k, lstrip_from k (lower s) = lower (lstrip_from k s).
Proof.
  induction s as [|c s IH]; intros k; [reflexivity|].
  change (lower (String c s)) with (String (to_lower c) (lower s)).
  cbn [lstrip_from].
  change (String (to_lower c) (lower s)) with (lower (String c s)).
  rewrite whitespace_width_lower.
  destruct k; [|apply IH].
  destruct (whitespace_width (String c s)); [reflexivity|apply IH].
Qed.

Lemma all_whitespace_from_lower s :
  forall k, all_whitespace_from k (lower s) = all_whitespace_from k s.
Proof.
  induction s as [|c s IH]; intros k; [reflexivity|].
  change (lower (String c s)) with (String (to_lower c) (lower s)).
  cbn [all_whitespace_from].
  change (String (to_lower c) (lower s)) with (lower (String c s)).
  rewrite whitespace_width_lower.
  destruct k; [|apply IH].
  destruct (whitespace_width (String c s)); [reflexivity|apply IH].
Qed.

Lemma rstrip_lower s : rstrip (lower s) = lower (rstrip s).
Proof.
  induction s as [|c s IH]; [reflexivity|].
  change (lower (String c s)) with (String (to_lower c) (lower s)).
  cbn [rstrip].
  change (String (to_lower c) (lower s)) with (lower (String c s)).
  rewrite all_whitespace_from_lower.
  destruct (all_whitespace_from 0 (String c s)); [reflexivity|].
  simpl lower. rewrite IH. reflexivity.
Qed.

Lemma strip_lower s : strip (lower s) = lower (strip s).
Proof. unfold strip, lstrip. rewrite lstrip_from_lower. apply rstrip_lower. Qed.

Lemma eqb_code c d : Ascii.eqb c d = (code c =? code d).
Proof.
  destruct (Ascii.eqb_spec c d) as [->|H].
  - symmetry. apply N.eqb_refl.
  - symmetry. apply N.eqb_neq. intros E. apply H.
    rewrite <- (byte_code c), <- (byte_code d), E. reflexivity.
Qed.

Lemma replace_lower s :
  replace " " "_" (lower s) = lower (replace " " "_" s).
Proof.
  induction s as [|c s IH]; [reflexivity|].
  simpl. rewrite IH. f_equal.
  assert (Hl : code (to_lower c) = if is_upper c then code c + 32 else code c)
    by apply code_to_lower.
  rewrite !eqb_code. change (code " ") with 32. rewrite Hl.
  destruct (is_upper c) eqn:H.
  - apply is_upper_bounds in H.
    rewrite (proj2 (N.eqb_neq (code c + 32) 32)) by lia.
    rewrite (proj2 (N.eqb_neq (code c) 32)) by lia. reflexivity.
  - assert (Hc : to_lower c = c) by (unfold to_lower; rewrite H; reflexivity).
    rewrite Hc. destruct (code c =? 32); [reflexivity|exact (eq_sym Hc)].
Qed.

Lemma to_lower_fixed c : is_upper c = false -> to_lower c = c.
Proof. intros H. unfold to_lower. rewrite H. reflexivity. Qed.

Lemma is_cased_to_lower c : is_cased (to_lower c) = is_cased c.
Proof.
  destruct (is_upper c) eqn:H; [|rewrite (to_lower_fixed c H); reflexivity].
  unfold is_cased. rewrite H. unfold is_upper, is_lower. rewrite code_to_lower, H.
  apply is_upper_bounds in H. set (n := code c) in *. clearbody n. decide_tests.
  reflexivity.
Qed.

Lemma to_lower_to_lower c : to_lower (to_lower c) = to_lower c.
Proof.
  destruct (is_upper c) eqn:H; [|rewrite !(to_lower_fixed c H); reflexivity].
  apply to_lower_fixed. unfold is_upper. rewrite code_to_lower, H.
  apply is_upper_bounds in H. set (n := code c) in *. clearbody n. decide_tests.
  reflexivity.
Qed.

Lemma to_upper_to_lower c : to_upper (to_lower c) = to_upper c.
Proof.
  destruct (is_upper c) eqn:H; [|rewrite (to_lower_fixed c H); reflexivity].
  pose proof (is_upper_bounds c H) as B.
  unfold to_upper, is_lower. rewrite code_to_lower, H.
  replace (code c + 32 - 32) with (code c) by lia. rewrite byte_code.
  set (n := code c) in *. clearbody n. decide_tests. reflexivity.
Qed.

Lemma title_from_lower s : forall p, title_from p (lower s) = title_from p s.
Proof.
  induction s as [|c s IH]; intros p; [reflexivity|].
  simpl. rewrite is_cased_to_lower, IH, to_lower_to_lower, to_upper_to_lower. reflexivity.
Qed.

End CaseFacts.

Lemma normalize_shape_lower (s : string) : normalize_shape (lower s) = normalize_shape s.
Proof.
  unfold normalize_shape, PyStr.title.
  rewrite CaseFacts.strip_lower, CaseFacts.replace_lower. apply CaseFacts.title_from_lower.
Qed.


Module SpaceFacts.
Import PyStr.
Local Open Scope nat_scope.

(** A space that follows does not complete a whitespace character. *)
Lemma whitespace_width_app_space c s :
  whitespace_width (String c (s ++ " ")) = whitespace_width (String c s).
Proof.
  destruct s as [|c2 [|c3 r]]; unfold whitespace_width; cbn [append];
    change (code " ") with 32%N; cbn [N.eqb Pos.eqb N.leb N.compare Pos.compare
                                         Pos.compare_cont];
    rewrite ?andb_false_r, ?orb_false_r; cbn [andb orb];
    repeat match goal with
           | |- context [if ?b then _ else _] => destruct b
           end; reflexivity.
Qed.

Lemma whitespace_width_le_length s : whitespace_width s <= String.length s.
Proof.
  destruct s as [|c1 [|c2 [|c3 r]]]; unfold whitespace_width; cbn [String.length];
    repeat match goal with
           | |- context [if ?b then _ else _] => destruct b
           end; lia.
Qed.

Lemma all_whitespace_from_app_space t :
  forall k, k <= String.length t ->
  all_whitespace_from k (t ++ " ") = all_whitespace_from k t.
Proof.
  induction t as [|c t IH]; intros k Hk.
  - simpl in Hk. assert (k = 0) by lia. subst k. reflexivity.
  - cbn [append all_whitespace_from]. destruct k as [|k].
    + change (String c (t ++ " ")) with (String c (t ++ " ")).
      rewrite whitespace_width_app_space.
      pose proof (whitespace_width_le_length (String c t)) as Hw.
      destruct (whitespace_width (String c t)) as [|w]; [reflexivity|].
      apply IH. simpl in Hw. lia.
    + apply IH. simpl in Hk. lia.
Qed.

Lemma rstrip_app_space t : rstrip (t ++ " ") = rstrip t.
Proof.
  induction t as [|c t IH]; [reflexivity|].
  cbn [append rstrip].
  change (String c (t ++ " ")) with (String c t ++ " ").
  rewrite (all_whitespace_from_app_space (String c t) 0) by lia.
  rewrite IH. reflexivity.
Qed.

Lemma lstrip_from_app_space s :
  forall k, k <= String.length s ->
  rstrip (lstrip_from k (s ++ " ")) = rstrip (lstrip_from k s).
Proof.
  induction s as [|c s IH]; intros k Hk.
  - simpl in Hk. assert (k = 0) by lia. subst k. reflexivity.
  - cbn [append lstrip_from]. destruct k as [|k].
    + rewrite whitespace_width_app_space.
      pose proof (whitespace_width_le_length (String c s)) as Hw.
      destruct (whitespace_width (String c s)) as [|w].
      * change (String c (s ++ " ")) with (String c s ++ " "). apply rstrip_app_space.
      * apply IH. simpl in Hw. lia.
    + apply IH. simpl in Hk. lia.
Qed.

Lemma strip_app_space s : strip (s ++ " ") = strip s.
Proof. unfold strip, lstrip. apply lstrip_from_app_space. lia. Qed.

Lemma strip_space_app s : strip (String " " s) = strip s.
Proof. reflexivity. Qed.

Lemma strip_spaces_l n s : strip (spaces n ++ s) = strip s.
Proof. induction n as [|n IH]; [reflexivity|]. simpl. rewrite strip_space_app. exact IH. Qed.

Lemma app_spaces_S s n : (s ++ spaces (S n) = (s ++ spaces n) ++ " ")%string.
Proof.
  induction n as [|n IH] in s |- *.
  - simpl. induction s as [|c s IHs]; [reflexivity|]. simpl. rewrite <- IHs. reflexivity.
  - change (spaces (S (S n))) with (String " " (spaces (S n))).
    induction s as [|c s IHs].
    + simpl. f_equal. apply (IH EmptyString).
    + simpl. f_equal. exact IHs.
Qed.

Lemma strip_spaces_r n s : strip (s ++ spaces n) = strip s.
Proof.
  induction n as [|n IH].
  - simpl. induction s as [|c s IHs]; [reflexivity|]. simpl.
    replace (s ++ "")%string with s; [reflexivity|].
    clear. induction s as [|c s IHs]; [reflexivity|]. simpl. rewrite <- IHs. reflexivity.
  - rewrite app_spaces_S, strip_app_space. exact IH.
Qed.

End SpaceFacts.

Lemma normalize_shape_spaces (l r : nat) (s : string) :
  normalize_shape (spaces l ++ s ++ spaces r) = normalize_shape s.
Proof.
  unfold normalize_shape.
  rewrite SpaceFacts.strip_spaces_l, SpaceFacts.strip_spaces_r. reflexivity.
Qed.


(** A request answers as any other whose shape normalizes to the same name. *)
Lemma same_normalized_shape {libm : Libm} (model : option predictor)
    (s1 s2 material : string) (L b t do_ di_ d_hole E : float) :
  normalize_shape s1 = normalize_shape s2 ->
  formula_buckling (request s1 material L b t do_ di_ d_hole E)
  = formula_buckling (request s2 material L b t do_ di_ d_hole E) /\
  predict_buckling model (request s1 material L b t do_ di_ d_hole E)
  = predict_buckling model (request s2 material L b t do_ di_ d_hole E).
Proof.
  intros H.
  assert (HF : formula_buckling (request s1 material L b t do_ di_ d_hole E)
               = formula_buckling (request s2 material L b t do_ di_ d_hole E)).
  { unfold formula_buckling. simpl. rewrite H. reflexivity. }
  split; [exact HF|].
  unfold predict_buckling, predict_body. rewrite HF. reflexivity.
Qed.

(** X9 — The shape is matched without regard to the case of ASCII letters:
    two requests whose shape names differ only in case normalize to the same
    name and get the same formula result and the same response. *)
Theorem shape_case_is_ignored {libm : Libm} (model : option predictor)
    (s1 s2 material : string) (L b t do_ di_ d_hole E : float) :
  lower s1 = lower s2 ->
  normalize_shape s1 = normalize_shape s2 /\
  formula_buckling (request s1 material L b t do_ di_ d_hole E)
  = formula_buckling (request s2 material L b t do_ di_ d_hole E) /\
  predict_buckling model (request s1 material L b t do_ di_ d_hole E)
  = predict_buckling model (request s2 material L b t do_ di_ d_hole E).
Proof.
  intros H.
  assert (Hn : normalize_shape s1 = normalize_shape s2).
  { rewrite <- (normalize_shape_lower s1), H. apply normalize_shape_lower. }
  split; [exact Hn|]. apply same_normalized_shape, Hn.
Qed.

Lemma shape_case_is_ignored_witness :
  normalize_shape "hOLLOW cylinder" = "Hollow_Cylinder"%string /\
  formula_buckling (request "hOLLOW cylinder" "PLA" 100 0 0 20 10 0 0) = inr 4.179 /\
  predict_buckling None (request "hOLLOW cylinder" "PLA" 100 0 0 20 10 0 0)
  = success_response (4.179 * 1.01).
Proof.
  destruct (shape_case_is_ignored None "hOLLOW cylinder" "Hollow Cylinder" "PLA"
              100 0 0 20 10 0 0 eq_refl) as (Hn & Hf & Hp).
  rewrite Hn, Hf, Hp. repeat split; vm_compute; reflexivity.
Defined.

(** X10 — Spaces before and after the shape name are ignored: padding the
    name with any number of spaces on either side changes neither the
    normalized name nor the formula result nor the response. *)
Theorem shape_padding_is_ignored {libm : Libm} (model : option predictor)
    (l r : nat) (s material : string) (L b t do_ di_ d_hole E : float) :
  let padded := (spaces l ++ s ++ spaces r)%string in
  normalize_shape padded = normalize_shape s /\
  formula_buckling (request padded material L b t do_ di_ d_hole E)
  = formula_buckling (request s material L b t do_ di_ d_hole E) /\
  predict_buckling model (request padded material L b t do_ di_ d_hole E)
  = predict_buckling model (request s material L b t do_ di_ d_hole E).
Proof.
  intros padded.
  pose proof (normalize_shape_spaces l r s) as Hn.
  split; [exact Hn|]. apply same_normalized_shape, Hn.
Qed.

Lemma shape_padding_is_ignored_witness :
  normalize_shape "  plate with hole   " = "Plate_With_Hole"%string /\
  formula_buckling (request "  plate with hole   " "PLA" 100 20 2 0 0 4 0) = inr 0.
Proof.
  destruct (shape_padding_is_ignored None 2 3 "plate with hole" "PLA" 100 20 2 0 0 4 0)
    as (Hn & Hf & _).
  split; [exact Hn|].
  transitivity (formula_buckling (request "plate with hole" "PLA" 100 20 2 0 0 4 0));
    [exact Hf|vm_compute; reflexivity].
Defined.


(** ** The model and the default entries *)

(** X11 — A loaded model never changes the response: whenever the model
    does not raise, the endpoint answers exactly as it does without a model,
    whatever the model predicted. *)
Theorem model_prediction_is_discarded {libm : Libm}
    (model : option predictor) (data : BucklingInput) :
  model_returns model data ->
  predict_buckling model data = predict_buckling None data.
Proof.
  intros Hm. destruct (formula_buckling data) as [e|r] eqn:Hf.
  - rewrite (predict_buckling_raises data model e Hm Hf).
    rewrite (predict_buckling_raises data None e Logic.I Hf). reflexivity.
  - rewrite (predict_buckling_returns data model r Hm Hf).
    rewrite (predict_buckling_returns data None r Logic.I Hf). reflexivity.
Qed.

Lemma model_prediction_is_discarded_witness :
  predict_buckling (Some (fun _ => ret 42)) pla_plate
  = [("predicted_buckling_load_kN", PyFloat 0.00808)] /\
  predict_buckling (Some (fun _ => ret 42)) thick_plate
  = [("error", PyString "(34, 'Numerical result out of range')")].
Proof.
  split.
  - rewrite (model_prediction_is_discarded (Some (fun _ => ret 42)) pla_plate);
      [vm_compute; reflexivity|].
    exists 42. reflexivity.
  - rewrite (model_prediction_is_discarded (Some (fun _ => ret 42)) thick_plate);
      [vm_compute; reflexivity|].
    exists 42. reflexivity.
Defined.

Lemma second_moment_of_area_zero {libm : Libm} (name : string) :
  second_moment_of_area name 0 0 0 0 0 = inr 0.
Proof.
  unfold second_moment_of_area.
  repeat match goal with
         | |- context [String.eqb name ?k] => destruct (String.eqb name k)
         end; reflexivity.
Qed.

(** X12 — A form whose dimension fields are left at zero, whatever the
    shape, the material and the length, is answered with the load 0.0 and
    never with an error (when the model, if any, does not raise), and the
    page shows 0.00 kN when the button was pressed and the answer is
    delivered. *)
Theorem untouched_dimensions_give_zero {libm : Libm}
    (model : option predictor) (shape material : string) (number_input : string -> float)
    (post : BucklingInput -> option response) :
  let payload := App.input_data shape material number_input in
  (forall label, label <> "Length (mm)"%string -> number_input label = 0) ->
  model_returns model payload ->
  formula_buckling payload = inr 0 /\
  predict_buckling model payload = success_response 0 /\
  (App.predict_enabled shape number_input = true ->
   post payload = Some (predict_buckling model payload) ->
   App.page shape material number_input true post
   = Some (App.st_success "✅ Predicted Buckling Load: 0.00 kN")).
Proof.
  intros payload Hz Hm.
  assert (HI : second_moment_of payload = inr 0).
  { unfold second_moment_of, payload. simpl Shape.
    unfold App.input_data, App.geometry_inputs.
    repeat match goal with
           | |- context [String.eqb shape ?k] => destruct (String.eqb shape k)
           end;
      cbn [Width_mm Thickness_mm Outer_Diameter_mm Inner_Diameter_mm Hole_Diameter_mm
           App.width App.thickness App.outer_diameter App.inner_diameter
           App.hole_diameter Shape];
      rewrite ?Hz by discriminate; apply second_moment_of_area_zero. }
  assert (HF : formula_buckling payload = inr 0).
  { apply (formula_buckling_degenerate payload 0 HI). reflexivity. }
  assert (HP : predict_buckling model payload = success_response 0).
  { rewrite (predict_buckling_returns payload model 0 Hm HF). reflexivity. }
  repeat split; trivial.
  intros Hen Hpost. unfold App.page. rewrite Hen. fold payload. rewrite Hpost, HP.
  reflexivity.
Qed.

Lemma untouched_dimensions_give_zero_witness :
  predict_buckling None (App.input_data "Hollow Cylinder" "Standard ABS" only_length)
  = success_response 0 /\
  App.page "Hollow Cylinder" "Standard ABS" only_length true
    (fun data => Some (predict_buckling None data))
  = Some (App.st_success "✅ Predicted Buckling Load: 0.00 kN").
Proof.
  destruct (untouched_dimensions_give_zero None "Hollow Cylinder" "Standard ABS" only_length
              (fun data => Some (predict_buckling None data)))
    as (_ & HP & Hpage).
  - intros label H. unfold only_length.
    destruct (String.eqb_spec label "Length (mm)"); [contradiction|reflexivity].
  - exact Logic.I.
  - split; [exact HP|apply Hpage; reflexivity].
Defined.
